(** * sr620: the dual-destination log writer and the instrument

    A shallow embedding of [sr620.py]: [DualFileData], the writer with its
    two background workers and its state flags; [SR620], the instrument on
    the serial port with its polling loop; and the merge of the defaults,
    the configuration file and the command line.

    The Python methods are translated one by one into a small monad that
    threads the object and its environment, raises and catches exceptions,
    supports [return] from the middle of a method, and records every call
    that leaves the object (file operations, thread starts, observer
    callbacks, log records).  The methods of the instrument run in a
    second monad of the same kind, over the instrument, the writer and the
    port. *)

From Stdlib Require Import ZArith String Ascii List Bool Lia.
From Stdlib Require Import DecimalString DecimalNat.
From stdpp Require Import base option list gmap strings fin_maps.

Local Open Scope string_scope.
Local Open Scope list_scope.
Local Open Scope Z_scope.

(** ** State flags ([class StateFlag(Flag)]) *)

Module StateFlag.

(** A [Flag] value is its integer; members are the powers of two below. *)
Definition t := Z.

Definition NONE : t := 0.
Definition SERIAL : t := 1.
Definition USB : t := 2.
Definition DUAL_WRITE : t := 4.
Definition SYNCING_FILES : t := 8.
Definition DELETING_FILES : t := 16.
Definition BUFFERING : t := 32.

(** [for f in StateFlag], in definition order. *)
Definition members : list t :=
  [NONE; SERIAL; USB; DUAL_WRITE; SYNCING_FILES; DELETING_FILES; BUFFERING].

(** All bits of the enumeration: the mask [~] complements within. *)
Definition all_bits : t := 63.

(** [a | b] *)
Definition union (a b : t) : t := Z.lor a b.

(** [a & b] *)
Definition inter (a b : t) : t := Z.land a b.

(** [~a]: the members that are not in [a]. *)
Definition invert (a : t) : t := Z.ldiff all_bits a.

(** [f in s], which [Flag.__contains__] computes as [f & s == f]. *)
Definition contains (f s : t) : bool := Z.land f s =? f.

End StateFlag.

Global Arguments StateFlag.union : simpl never.
Global Arguments StateFlag.inter : simpl never.
Global Arguments StateFlag.invert : simpl never.
Global Arguments StateFlag.contains : simpl never.

Notation "f '∈f' s" := (StateFlag.contains f s = true) (at level 70).

(** ** Exceptions *)

(** The exception classes the modelled code can meet; all derive from
    [Exception], so [except Exception] and a bare [except] catch each. *)
Inductive Exn : Type :=
| OSError
| ValueError
| TypeError
| AttributeError
| RuntimeError.

(** ** Files and folders *)

(** The two folders of the writer: [primary_data_folder] and
    [secondary_data_folder].  A path is a folder or an entry of one. *)
Inductive Store : Type := Primary | Secondary.

Global Instance Store_eq_dec : EqDecision Store := ltac:(solve_decision).

Inductive Path : Type :=
| Folder (s : Store)
| Entry (s : Store) (name : string).

(** What a folder holds under a name. *)
Inductive Node : Type :=
| File (content : string)
| Dir (st_size : Z).

(** A Python file object: the base name of the file it was opened on and
    whether [close] ran.  The folder of the file is that of the slot that
    holds the object: [fprimary] is only ever given files of the primary
    folder, [fsecondary] files of the secondary folder. *)
Record FileObj : Type := mkFile {
  fbase : string;      (* os.path.basename(f.name) *)
  fclosed : bool
}.

(** An [os.DirEntry] from [os.scandir]. *)
Record DirEntry : Type := mkEntry {
  ename : string;      (* f.name *)
  eis_file : bool      (* f.is_file() *)
}.

Definition entry_of (kv : string * Node) : DirEntry :=
  mkEntry kv.1 (match kv.2 with File _ => true | Dir _ => false end).

(** ** Threads and observers *)

Inductive Worker : Type := SyncWorker | DeleteWorker.

Global Instance Worker_eq_dec : EqDecision Worker := ltac:(solve_decision).

(** A [Thread] object, by its target ([self._sync] or [self._delete]) and
    by the order of its creation. *)
Record Thread : Type := mkThread {
  target : Worker;
  ident : nat
}.

Global Instance Thread_eq_dec : EqDecision Thread := ltac:(solve_decision).

(** A registered callback, by name. *)
Definition Listener := nat.

(** ** The clock *)

(** One reading of [datetime.utcnow()].  [epoch] is the text that
    [f"{ts}"] gives for [ts = dt.timestamp()]. *)
Record DateTime : Type := mkDateTime {
  year : nat;
  yday : nat;
  hour : nat;
  minute : nat;
  epoch : string
}.

(** ** Calls that leave the object *)

Inductive Level : Type := DEBUG | INFO | WARNING | ERROR.

Inductive Op : Type :=
| OpOpen (s : Store) (name : string)
| OpWrite (s : Store) (name : string)
| OpClose (s : Store) (name : string)
| OpCopy (name : string)
| OpRemove (name : string)
| OpStart (w : Worker).

Inductive Event : Type :=
| EvOpen (s : Store) (name : string)          (* open(path, 'a', buffering=1) *)
| EvWrite (s : Store) (f : FileObj) (text : string)   (* f.write(text) *)
| EvClose (s : Store) (f : FileObj)           (* f.close() *)
| EvCopy (name : string) (flags : StateFlag.t)
    (* shutil.copyfile of a primary file to the secondary folder, with the
       flag word that the other threads read while it runs *)
| EvRemove (name : string)                    (* os.remove *)
| EvStart (t : Thread)                        (* Thread.start() *)
| EvNotify (foo : Listener)                   (* foo() *)
| EvLog (lvl : Level) (msg : string).         (* logging.debug/info/... *)

(** ** The object and its environment *)

(** The fields of a [DualFileData].  The two folder paths are the two
    [Store]s; [data_file_pattern] is [data_file_match] below. *)
Record DualFileData : Type := mkDualFileData {
  file_prefix : string;
  max_history : Z;
  max_sync : Z;
  fprimary : option FileObj;
  fsecondary : option FileObj;
  fdoy : Z;
  _state : StateFlag.t;
  _newstate_listeners : list Listener;
  sync_thread : option Thread;
  delete_thread : option Thread;
  databuffer : list string
}.

(** [DualFileData.__init__] *)
Definition __init__ (file_prefix : string) (max_history max_sync : Z) : DualFileData :=
  {| file_prefix := file_prefix;
     max_history := max_history;
     max_sync := max_sync;
     fprimary := None;
     fsecondary := None;
     fdoy := 0;
     _state := StateFlag.NONE;
     _newstate_listeners := [];
     sync_thread := None;
     delete_thread := None;
     databuffer := [] |}.

(** The environment: the clock, the two folders ([None] when the folder
    does not exist, as when the medium is not mounted), the operations that
    fail with an I/O error, the threads that are alive and the number of
    [Thread] objects made so far. *)
Record World : Type := mkWorld {
  utcnow : DateTime;
  primary : option (gmap string Node);
  secondary : option (gmap string Node);
  fault : Op -> bool;
  alive : list Thread;
  threads_made : nat
}.

(** One call in progress: the object, the environment and the local
    variable [sbuffer] of [write], which is assigned inside a [try] block
    and read after it. *)
Record Machine : Type := mkMachine {
  self : DualFileData;
  world : World;
  sbuffer : list string
}.

(** Field updates. *)
Definition set_fprimary (v : option FileObj) (d : DualFileData) : DualFileData :=
  mkDualFileData (file_prefix d) (max_history d) (max_sync d) v (fsecondary d)
    (fdoy d) (_state d) (_newstate_listeners d) (sync_thread d) (delete_thread d)
    (databuffer d).
Definition set_fsecondary (v : option FileObj) (d : DualFileData) : DualFileData :=
  mkDualFileData (file_prefix d) (max_history d) (max_sync d) (fprimary d) v
    (fdoy d) (_state d) (_newstate_listeners d) (sync_thread d) (delete_thread d)
    (databuffer d).
Definition set_fdoy (v : Z) (d : DualFileData) : DualFileData :=
  mkDualFileData (file_prefix d) (max_history d) (max_sync d) (fprimary d)
    (fsecondary d) v (_state d) (_newstate_listeners d) (sync_thread d)
    (delete_thread d) (databuffer d).
Definition set_state (v : StateFlag.t) (d : DualFileData) : DualFileData :=
  mkDualFileData (file_prefix d) (max_history d) (max_sync d) (fprimary d)
    (fsecondary d) (fdoy d) v (_newstate_listeners d) (sync_thread d)
    (delete_thread d) (databuffer d).
Definition set_listeners (v : list Listener) (d : DualFileData) : DualFileData :=
  mkDualFileData (file_prefix d) (max_history d) (max_sync d) (fprimary d)
    (fsecondary d) (fdoy d) (_state d) v (sync_thread d) (delete_thread d)
    (databuffer d).
Definition set_sync_thread (v : option Thread) (d : DualFileData) : DualFileData :=
  mkDualFileData (file_prefix d) (max_history d) (max_sync d) (fprimary d)
    (fsecondary d) (fdoy d) (_state d) (_newstate_listeners d) v (delete_thread d)
    (databuffer d).
Definition set_delete_thread (v : option Thread) (d : DualFileData) : DualFileData :=
  mkDualFileData (file_prefix d) (max_history d) (max_sync d) (fprimary d)
    (fsecondary d) (fdoy d) (_state d) (_newstate_listeners d) (sync_thread d) v
    (databuffer d).
Definition set_databuffer (v : list string) (d : DualFileData) : DualFileData :=
  mkDualFileData (file_prefix d) (max_history d) (max_sync d) (fprimary d)
    (fsecondary d) (fdoy d) (_state d) (_newstate_listeners d) (sync_thread d)
    (delete_thread d) v.

Definition store (w : World) (s : Store) : option (gmap string Node) :=
  match s with Primary => primary w | Secondary => secondary w end.

Definition set_store (s : Store) (v : option (gmap string Node)) (w : World) : World :=
  match s with
  | Primary => mkWorld (utcnow w) v (secondary w) (fault w) (alive w) (threads_made w)
  | Secondary => mkWorld (utcnow w) (primary w) v (fault w) (alive w) (threads_made w)
  end.

Definition set_alive (v : list Thread) (w : World) : World :=
  mkWorld (utcnow w) (primary w) (secondary w) (fault w) v (threads_made w).

Definition set_threads_made (v : nat) (w : World) : World :=
  mkWorld (utcnow w) (primary w) (secondary w) (fault w) (alive w) v.

(** ** The monad of a method call *)

(** How a block of statements ends: it falls through with a value, it
    executes [return], or it raises. *)
Inductive Outcome (A : Type) : Type :=
| Val (a : A)
| Ret
| Exc (e : Exn).
Arguments Val {A} a.
Arguments Ret {A}.
Arguments Exc {A} e.

Definition M (A : Type) : Type := Machine -> Outcome A * Machine * list Event.

Global Instance M_ret : MRet M := fun A a m => (Val a, m, []).

Global Instance M_bind : MBind M := fun A B k c m =>
  let '(o, m1, e1) := c m in
  match o with
  | Val a => let '(o2, m2, e2) := k a m1 in (o2, m2, e1 ++ e2)
  | Ret => (Ret, m1, e1)
  | Exc x => (Exc x, m1, e1)
  end.

Definition pass : M unit := mret tt.

(** [raise e] *)
Definition raise {A} (e : Exn) : M A := fun m => (Exc e, m, []).

(** [return] *)
Definition return_ {A} : M A := fun m => (Ret, m, []).

(** The body of a [def] that returns nothing: [return] ends the call. *)
Definition def (body : M unit) : M unit := fun m =>
  let '(o, m1, e1) := body m in
  (match o with Ret => Val tt | _ => o end, m1, e1).

(** [try: body / except Exception as e: handler e] (and the bare
    [except:], which catches the same exceptions here). *)
Definition try_except (body : M unit) (handler : Exn -> M unit) : M unit := fun m =>
  let '(o, m1, e1) := body m in
  match o with
  | Exc x => let '(o2, m2, e2) := handler x m1 in (o2, m2, e1 ++ e2)
  | _ => (o, m1, e1)
  end.

(** [try: body / finally: fin]: [fin] runs however [body] ends, and the
    way [body] ended stands unless [fin] itself returns or raises. *)
Definition try_finally (body : M unit) (fin : M unit) : M unit := fun m =>
  let '(o, m1, e1) := body m in
  let '(o2, m2, e2) := fin m1 in
  (match o2 with Val _ => o | _ => o2 end, m2, e1 ++ e2).

(** [if c: body] *)
Definition when (c : bool) (body : M unit) : M unit := if c then body else pass.

(** [for x in xs: body x] *)
Fixpoint for_each {A} (xs : list A) (body : A -> M unit) : M unit :=
  match xs with
  | [] => pass
  | x :: xs' => body x ;; for_each xs' body
  end.

(** Reading and writing the object, the environment and the local. *)
Definition gets {A} (f : DualFileData -> A) : M A := fun m => (Val (f (self m)), m, []).
Definition modify (f : DualFileData -> DualFileData) : M unit := fun m =>
  (Val tt, mkMachine (f (self m)) (world m) (sbuffer m), []).
Definition get_world : M World := fun m => (Val (world m), m, []).
Definition modify_world (f : World -> World) : M unit := fun m =>
  (Val tt, mkMachine (self m) (f (world m)) (sbuffer m), []).
Definition get_sbuffer : M (list string) := fun m => (Val (sbuffer m), m, []).
Definition put_sbuffer (v : list string) : M unit := fun m =>
  (Val tt, mkMachine (self m) (world m) v, []).

(** A call that leaves the object. *)
Definition emit (ev : Event) : M unit := fun m => (Val tt, m, [ev]).

(** Truthiness of a slot that holds [None] or an object. *)
Definition truthy {A} (o : option A) : bool :=
  match o with Some _ => true | None => false end.

(** ** The library calls the writer makes *)

Definition logging_debug (msg : string) : M unit := emit (EvLog DEBUG msg).
Definition logging_info (msg : string) : M unit := emit (EvLog INFO msg).
Definition logging_warning (msg : string) : M unit := emit (EvLog WARNING msg).
(** [logging.exception] logs at level ERROR, with the traceback. *)
Definition logging_exception (msg : string) : M unit := emit (EvLog ERROR msg).

(** [logging.WARNING(msg)]: [logging.WARNING] is the integer 30, not the
    function [logging.warning]; calling an integer raises [TypeError]. *)
Definition logging_WARNING (msg : string) : M unit := raise TypeError.

(** [datetime.utcnow()] *)
Definition datetime_utcnow : M DateTime := w ← get_world; mret (utcnow w).

(** Decimal digits of a number, zero-filled on the left to a width, as
    strftime prints the fields [%Y], [%j], [%H] and [%M]. *)
Fixpoint zeros (n : nat) : string :=
  match n with O => "" | S n' => String "0"%char (zeros n') end.

Definition zfill (width : nat) (s : string) : string :=
  zeros (width - String.length s) +:+ s.

Definition decimal (n : nat) : string := NilEmpty.string_of_uint (Nat.to_uint n).

(** [dt.strftime("%Y%j%H%M")] *)
Definition strftime_YjHM (dt : DateTime) : string :=
  zfill 4 (decimal (year dt)) +:+ zfill 3 (decimal (yday dt))
  +:+ zfill 2 (decimal (hour dt)) +:+ zfill 2 (decimal (minute dt)).

(** [int(s)] for the texts this code passes, which are decimal digits
    (leading zeros allowed); [None] stands for [ValueError]. *)
Definition int_of_string (s : string) : option Z :=
  match s with
  | EmptyString => None
  | _ => (fun d => Z.of_nat (Nat.of_uint d)) <$> NilEmpty.uint_of_string s
  end.

Definition int (s : string) : M Z :=
  match int_of_string s with
  | Some z => mret z
  | None => raise ValueError
  end.

(** [s[-a:-b]] for [a >= b > 0]: both ends count from the end of [s] and
    are clamped to its start. *)
Definition slice_from_end (a b : nat) (s : string) : string :=
  let n := String.length s in
  substring (n - a) ((n - b) - (n - a)) s.

(** [f[-a:-b]] for an [os.DirEntry] [f]: the class defines no
    [__getitem__], so the subscript raises [TypeError]. *)
Definition DirEntry_getitem (f : DirEntry) (a b : nat) : M string := raise TypeError.

(** *** The file name pattern *)

Definition is_digit (c : ascii) : bool :=
  let n := nat_of_ascii c in (48 <=? n)%nat && (n <=? 57)%nat.

Fixpoint all_digits (s : string) : bool :=
  match s with
  | EmptyString => true
  | String c s' => is_digit c && all_digits s'
  end.

Definition newline : string := String "010"%char EmptyString.

Fixpoint strip_prefix (p s : string) : option string :=
  match p, s with
  | EmptyString, _ => Some s
  | String a p', String b s' => if Ascii.eqb a b then strip_prefix p' s' else None
  | String _ _, EmptyString => None
  end.

(** [[0-9]{11}.txt] against the whole of [rest]; the dot is any character
    but a newline. *)
Definition match_stamp (rest : string) : bool :=
  (String.length rest =? 15)%nat
  && all_digits (substring 0 11 rest)
  && negb (String.eqb (substring 11 1 rest) newline)
  && String.eqb (substring 12 3 rest) "txt".

Definition match_whole (prefix name : string) : bool :=
  match strip_prefix prefix name with
  | Some rest => match_stamp rest
  | None => false
  end.

(** [re.search(self.data_file_pattern, name) is not None] for the pattern
    [^{prefix}[0-9]{11}.txt$].  The prefix is read as literal text, which
    it is when it holds no regular-expression operator, as the default
    [sr620-] does not.  [$] matches at the end of the name and also just
    before a newline that ends it. *)
Definition data_file_match (prefix name : string) : bool :=
  match_whole prefix name
  || (let n := String.length name in
      String.eqb (substring (n - 1) 1 name) newline
      && match_whole prefix (substring 0 (n - 1) name)).

(** *** Files *)

Definition append_text (text : string) (n : Node) : Node :=
  match n with
  | File c => File (c +:+ text)
  | Dir z => Dir z
  end.

Definition node_size (n : Node) : Z :=
  match n with
  | File c => Z.of_nat (String.length c)
  | Dir z => z
  end.

Definition lookup_entry (w : World) (s : Store) (name : string) : option Node :=
  match store w s with
  | Some d => d !! name
  | None => None
  end.

(** [open(path, 'a', buffering=1)] on an entry of a folder: the file is
    created when it is missing. *)
Definition builtin_open (s : Store) (name : string) : M FileObj :=
  emit (EvOpen s name);;
  w ← get_world;
  match store w s with
  | None => raise OSError
  | Some d =>
      if fault w (OpOpen s name) then raise OSError
      else match d !! name with
           | Some (Dir _) => raise OSError
           | Some (File _) => mret (mkFile name false)
           | None =>
               modify_world (set_store s (Some (<[name := File ""]> d)));;
               mret (mkFile name false)
           end
  end.

(** The two slots of the object that hold a file object. *)
Inductive Slot : Type := Fprimary | Fsecondary.

Definition slot_get (k : Slot) : DualFileData -> option FileObj :=
  match k with Fprimary => fprimary | Fsecondary => fsecondary end.

Definition slot_set (k : Slot) : option FileObj -> DualFileData -> DualFileData :=
  match k with Fprimary => set_fprimary | Fsecondary => set_fsecondary end.

Definition slot_store (k : Slot) : Store :=
  match k with Fprimary => Primary | Fsecondary => Secondary end.

(** [self.<slot>.write(text)].  The files are line buffered and every
    text written ends in a newline, so the text reaches the file, or the
    error is raised, within the call. *)
Definition file_write (k : Slot) (text : string) : M unit :=
  o ← gets (slot_get k);
  match o with
  | None => raise AttributeError
  | Some f =>
      emit (EvWrite (slot_store k) f text);;
      if fclosed f then raise ValueError
      else
        w ← get_world;
        match store w (slot_store k) with
        | None => raise OSError
        | Some d =>
            if fault w (OpWrite (slot_store k) (fbase f)) then raise OSError
            else modify_world
                   (set_store (slot_store k) (Some (alter (append_text text) (fbase f) d)))
        end
  end.

(** [self.<slot>.close()]: the object is closed whatever the outcome; a
    second [close] does nothing. *)
Definition file_close (k : Slot) : M unit :=
  o ← gets (slot_get k);
  match o with
  | None => raise AttributeError
  | Some f =>
      emit (EvClose (slot_store k) f);;
      modify (slot_set k (Some (mkFile (fbase f) true)));;
      w ← get_world;
      if negb (fclosed f) && fault w (OpClose (slot_store k) (fbase f))
      then raise OSError else pass
  end.

(** [os.scandir(folder)] *)
Definition os_scandir (s : Store) : M (list DirEntry) :=
  w ← get_world;
  match store w s with
  | Some d => mret (entry_of <$> map_to_list d)
  | None => raise OSError
  end.

(** [os.path.getsize(os.path.join(folder, name))] *)
Definition os_path_getsize (s : Store) (name : string) : M Z :=
  w ← get_world;
  match lookup_entry w s name with
  | Some n => mret (node_size n)
  | None => raise OSError
  end.

(** [shutil.copyfile(f.path, os.path.join(self.secondary_data_folder, f.name))] *)
Definition shutil_copyfile (name : string) : M unit :=
  st ← gets _state;
  emit (EvCopy name st);;
  w ← get_world;
  match lookup_entry w Primary name, secondary w with
  | Some (File c), Some d =>
      match d !! name with
      | Some (Dir _) => raise OSError
      | _ =>
          if fault w (OpCopy name) then raise OSError
          else modify_world (set_store Secondary (Some (<[name := File c]> d)))
      end
  | _, _ => raise OSError
  end.

(** [os.remove(f.path)] *)
Definition os_remove (name : string) : M unit :=
  emit (EvRemove name);;
  w ← get_world;
  match primary w with
  | Some d =>
      match d !! name with
      | Some (File _) =>
          if fault w (OpRemove name) then raise OSError
          else modify_world (set_store Primary (Some (delete name d)))
      | _ => raise OSError
      end
  | None => raise OSError
  end.

(** [Thread(target=...)] and [t.start()] *)
Definition Thread_new (k : Worker) : M Thread :=
  w ← get_world;
  modify_world (set_threads_made (S (threads_made w)));;
  mret (mkThread k (threads_made w)).

Definition Thread_start (t : Thread) : M unit :=
  emit (EvStart t);;
  w ← get_world;
  if fault w (OpStart (target t)) then raise RuntimeError
  else modify_world (set_alive (t :: alive w)).

(** ** [class DualFileData] *)

Import StateFlag.

Definition sep : string := String "009"%char EmptyString.

(** The loop of [_clearflag] carries the local [must_notify]. *)
Fixpoint for_fold {A B} (xs : list A) (acc : B) (body : B -> A -> M B) : M B :=
  match xs with
  | [] => mret acc
  | x :: xs' => acc' ← body acc x; for_fold xs' acc' body
  end.

Definition _notify_newstate : M unit :=
  ls ← gets _newstate_listeners;
  for_each ls (fun foo => emit (EvNotify foo)).

Definition _clearflag (flag : StateFlag.t) : M unit :=
  def (
    must_notify ← for_fold members false (fun must_notify f =>
      if f =? NONE then mret must_notify
      else
        s ← gets _state;
        if contains f flag && contains f s then
          modify (set_state (inter s (invert f)));;
          mret true
        else mret must_notify);
    when must_notify _notify_newstate).

Definition _setflag (flag : StateFlag.t) : M unit :=
  def (
    s ← gets _state;
    when (contains flag s) return_;;
    modify (set_state (union s flag));;
    _notify_newstate).

Definition register_newstatelistener (callback : Listener) : M unit :=
  modify (fun d => set_listeners (_newstate_listeners d ++ [callback]) d).

(** The property [filename] *)
Definition filename : M string :=
  dt ← datetime_utcnow;
  prefix ← gets file_prefix;
  mret (prefix +:+ strftime_YjHM dt +:+ ".txt").

(** The property [doy]: [int(dt.strftime("%j"))] *)
Definition doy : M Z :=
  dt ← datetime_utcnow;
  int (zfill 3 (decimal (yday dt))).

(** [os.path.isdir], [os.path.isfile], and the test that the base name of
    a path is among the names [os.scandir] lists for its parent.  The
    parent of the two data folders is outside the model: a data folder is
    listed there when it exists. *)
Definition isdir (w : World) (p : Path) : bool :=
  match p with
  | Folder s => truthy (store w s)
  | Entry s name =>
      match lookup_entry w s name with Some (Dir _) => true | _ => false end
  end.

Definition isfile (w : World) (p : Path) : bool :=
  match p with
  | Folder s => false
  | Entry s name =>
      match lookup_entry w s name with Some (File _) => true | _ => false end
  end.

Definition listed_in_parent (w : World) (p : Path) : bool :=
  match p with
  | Folder s => truthy (store w s)
  | Entry s name => truthy (lookup_entry w s name)
  end.

(** The static method [_exists] *)
Definition _exists (p : Path) : M bool :=
  w ← get_world;
  if isdir w p then mret (listed_in_parent w p)
  else if isfile w p then mret true
  else mret false.

Definition bool_text (b : bool) : string := if b then "True" else "False".

(** [open(self, secondary=False)] *)
Definition open (secondary : bool) : M unit :=
  def (
    when (negb secondary) (
      name ← filename;
      f ← builtin_open Primary name;
      modify (set_fprimary (Some f)));;
    try_except (
      when secondary (
        ex ← _exists (Folder Secondary);
        if (ex : bool) then
          _setflag USB;;
          p ← gets fprimary;
          name ← match p with
                 | Some f => mret (fbase f)
                 | None => raise AttributeError
                 end;
          f ← builtin_open Secondary name;
          modify (set_fsecondary (Some f))
        else
          _clearflag (union USB (union DUAL_WRITE SYNCING_FILES))))
    (fun e =>
       logging_exception
         ("Unhandled exception in DualDataFile.open() secondary=" +:+ bool_text secondary))).

(** The first [try] statement of [close]: the primary file. *)
Definition close_primary : M unit :=
  try_except (
    p ← gets fprimary;
    when (truthy p) (
      logging_debug "Closing primary file...";;
      file_close Fprimary;;
      logging_debug "Primary file closed."))
  (fun e =>
     logging_exception "Unhandled exception in DualDataFile.close() primary file").

(** The [try] and [except] clauses of the second [try] statement of
    [close]: the secondary file. *)
Definition close_secondary : M unit :=
  try_except (
    s ← gets fsecondary;
    when (truthy s) (
      logging_debug "Closing secondary file...";;
      file_close Fsecondary;;
      logging_debug "Secondary file closed."))
  (fun e =>
     logging_exception "Unhandled exception in DualDataFile.close() secondary file").

(** [close(self)] *)
Definition close : M unit :=
  def (
    close_primary;;
    try_finally close_secondary (_clearflag DUAL_WRITE)).

(** [repr] of an [os.DirEntry] in an f-string *)
Definition DirEntry_repr (f : DirEntry) : string := "<DirEntry '" +:+ ename f +:+ "'>".

(** The condition of the copy in the loop of [_sync], for a file of day
    [fdoy]: [(doy-fdoy < self.max_sync) and ((not self._exists(...)) or
    (os.path.getsize(...) != os.path.getsize(...)))]. *)
Definition sync_stale (doy fdoy : Z) (f : DirEntry) : M bool :=
  max_sync ← gets max_sync;
  if doy - fdoy <? max_sync then
    ex ← _exists (Entry Secondary (ename f));
    if negb ex then mret true
    else
      ssize ← os_path_getsize Secondary (ename f);
      psize ← os_path_getsize Primary (ename f);
      mret (negb (ssize =? psize))
  else mret false.

(** The statements under that condition: the copy. *)
Definition sync_copy (doy fdoy : Z) (f : DirEntry) : M unit :=
  logging_debug ("Copying file " +:+ ename f);;
  when (doy =? fdoy) (_setflag BUFFERING);;
  shutil_copyfile (ename f);;
  logging_info ("Copied file " +:+ ename f);;
  when (doy =? fdoy) (_clearflag BUFFERING).

(** The [try] block of the loop of [_sync] *)
Definition sync_try (doy : Z) (f : DirEntry) : M unit :=
  prefix ← gets file_prefix;
  if eis_file f && data_file_match prefix (ename f) then
    fdoy ← int (slice_from_end 11 8 (ename f));
    stale ← sync_stale doy fdoy f;
    when stale (sync_copy doy fdoy f)
  else
    logging_debug ("Skipping file " +:+ ename f).

(** The body of the loop of [_sync] *)
Definition sync_entry (doy : Z) (f : DirEntry) : M unit :=
  try_except (sync_try doy f)
    (fun e =>
       logging_exception ("Unable to copy file " +:+ DirEntry_repr f);;
       _clearflag BUFFERING).

(** [_sync(self)], the target of the Sync Worker *)
Definition _sync : M unit :=
  def (
    doy ← doy;
    entries ← os_scandir Primary;
    for_each entries (sync_entry doy);;
    modify (set_sync_thread None);;
    _clearflag SYNCING_FILES;;
    logging_info "Sync files done.";;
    open true).

(** [_offload_sync(self)] *)
Definition _offload_sync : M unit :=
  def (
    try_except (
      s ← gets _state;
      t ← gets sync_thread;
      when (contains SYNCING_FILES s || truthy t) (
        logging_warning "Want to start syncing files, but a proces is already underway.";;
        return_);;
      _setflag SYNCING_FILES;;
      th ← Thread_new SyncWorker;
      modify (set_sync_thread (Some th));;
      logging_info "Starting new thread for syncing files...";;
      Thread_start th)
    (fun e => logging_exception "Unable to start new thread for syncing files.")).

(** The [try] block of the loop of [_delete] *)
Definition delete_try (doy : Z) (f : DirEntry) : M unit :=
  prefix ← gets file_prefix;
  when (eis_file f && data_file_match prefix (ename f)) (
    fdoy ← (text ← DirEntry_getitem f 11 8; int text);
    max_history ← gets max_history;
    when (fdoy - doy >? max_history) (
      os_remove (ename f);;
      logging_debug ("Deleted file " +:+ ename f))).

(** The body of the loop of [_delete] *)
Definition delete_entry (doy : Z) (f : DirEntry) : M unit :=
  try_except (delete_try doy f)
    (fun e => logging_exception ("Unable to delete file " +:+ DirEntry_repr f)).

(** [_delete(self)], the target of the Delete Worker *)
Definition _delete : M unit :=
  def (
    doy ← doy;
    entries ← os_scandir Primary;
    for_each entries (delete_entry doy);;
    modify (set_delete_thread None);;
    _clearflag DELETING_FILES;;
    logging_info "Deletion of files done.").

(** [_offload_delete(self)] *)
Definition _offload_delete : M unit :=
  def (
    try_except (
      s ← gets _state;
      t ← gets sync_thread;
      when (contains SYNCING_FILES s || truthy t) (
        logging_warning "Want to start file deletion, but a proces is already underway.";;
        return_);;
      _setflag DELETING_FILES;;
      th ← Thread_new DeleteWorker;
      modify (set_delete_thread (Some th));;
      logging_info "Starting new thread for deleting files...";;
      Thread_start th)
    (fun e => logging_exception "Unable to start new thread for file deletion.")).

(** The rotation block of [write], run when [self.fdoy != self.doy]. *)
Definition rotate : M unit :=
  s ← gets fsecondary;
  let fsec := truthy s in
  close;;
  open false;;
  d ← doy;
  modify (set_fdoy d);;
  when fsec (open true);;
  _offload_delete.

(** The first [try] block of [write]: the primary destination. *)
Definition write_primary (ts data : string) : M unit :=
  p ← gets fprimary;
  when (truthy p) (
    s ← gets _state;
    if contains BUFFERING s then
      modify (fun d => set_databuffer (databuffer d ++ [ts +:+ sep +:+ data]) d);;
      return_
    else
      pending ← gets databuffer;
      for_each pending (fun bdata => file_write Fprimary (bdata +:+ newline));;
      pending ← gets databuffer;
      put_sbuffer pending;;
      modify (set_databuffer []);;
      file_write Fprimary (ts +:+ sep +:+ data +:+ newline)).

(** The second [try] block of [write], when the secondary folder is
    there: the statements after [self._setflag(StateFlag.USB)]. *)
Definition secondary_present (ts data : string) : M unit :=
  s ← gets _state;
  if contains SYNCING_FILES s then return_
  else
    fs ← gets fsecondary;
    if negb (truthy fs) then
      _offload_sync;;
      return_
    else
      try_except (
        passed ← get_sbuffer;
        for_each passed (fun bdata => file_write Fsecondary (bdata +:+ newline));;
        file_write Fsecondary (ts +:+ sep +:+ data +:+ newline);;
        _setflag DUAL_WRITE)
      (fun e =>
         logging_WARNING "Secondary file unaccesible.";;
         _clearflag DUAL_WRITE;;
         modify (set_fsecondary None)).

(** The second [try] block of [write], when the secondary folder is not
    there. *)
Definition secondary_absent : M unit :=
  _clearflag (union USB (union DUAL_WRITE SYNCING_FILES));;
  fs ← gets fsecondary;
  when (truthy fs) (
    modify (set_fsecondary None);;
    logging_debug "Lost handle to secondary file.");;
  modify (set_sync_thread None).

(** The second [try] block of [write]: the secondary destination. *)
Definition write_secondary (ts data : string) : M unit :=
  ex ← _exists (Folder Secondary);
  if (ex : bool) then
    _setflag USB;;
    secondary_present ts data
  else
    secondary_absent.

(** The statements of [write] after the rotation block. *)
Definition write_record (data : string) : M unit :=
  dt ← datetime_utcnow;
  let ts := epoch dt in
  put_sbuffer [];;
  try_except (write_primary ts data)
    (fun e =>
       logging_exception "Unhandled exception in DualDataFile.write() primary file");;
  try_except (write_secondary ts data)
    (fun e =>
       logging_exception "Unhandled exception in DualDataFile.write() secondary file").

(** [write(self, data)] *)
Definition write (data : string) : M unit :=
  def (
    last ← gets fdoy;
    today ← doy;
    when (negb (last =? today)) rotate;;
    write_record data).

Global Arguments _notify_newstate : simpl never.
Global Arguments _clearflag : simpl never.
Global Arguments _setflag : simpl never.
Global Arguments open : simpl never.
Global Arguments close : simpl never.
Global Arguments _sync : simpl never.
Global Arguments sync_stale : simpl never.
Global Arguments sync_copy : simpl never.
Global Arguments shutil_copyfile : simpl never.
Global Arguments _offload_sync : simpl never.
Global Arguments _delete : simpl never.
Global Arguments _offload_delete : simpl never.
Global Arguments rotate : simpl never.
Global Arguments write : simpl never.
Global Arguments doy : simpl never.
Global Arguments filename : simpl never.
Global Arguments _exists : simpl never.
Global Arguments builtin_open : simpl never.
Global Arguments file_write : simpl never.
Global Arguments file_close : simpl never.

(** ** [class SR620] *)

(** [SR620.writevalue(self, value)], with [self.datafile] the object of
    the machine. *)
Definition writevalue (value : string) : M unit :=
  def (
    try_except (write value)
      (fun e => logging_exception "Unhandled exception in SR620.writevalue().")).

(** ** The bodies of the two threads *)

(** [Thread.run]: the target is called; when it ends, by falling off its
    end or by an exception nobody caught, the thread is no longer alive. *)
Definition Thread_run (t : Thread) : M unit :=
  try_finally
    (match target t with SyncWorker => _sync | DeleteWorker => _delete end)
    (modify_world (fun w => set_alive (filter (fun t' => t' <> t) (alive w)) w)).

(** ** Definitions used in the statements and proofs *)

(** The machine with another flag word. *)
Definition with_state (v : StateFlag.t) (m : Machine) : Machine :=
  mkMachine (set_state v (self m)) (world m) (sbuffer m).

(** Every member of the enumeration is [NONE] or a single bit. *)
Definition single_bit (f : Z) : Prop := exists i, 0 <= i /\ f = 2 ^ i.

(** ** The loop of [_clearflag] as a function of the flag word *)

Definition clear_step (flag : StateFlag.t) (acc : StateFlag.t * bool) (f : StateFlag.t)
  : StateFlag.t * bool :=
  if f =? NONE then acc
  else if contains f flag && contains f acc.1 then (inter acc.1 (invert f), true)
  else acc.

Definition clear_loop (flag s : StateFlag.t) : StateFlag.t * bool :=
  fold_left (clear_step flag) members (s, false).

Global Arguments clear_loop : simpl never.

Definition clear_body (flag : StateFlag.t) (must_notify : bool) (f : StateFlag.t) : M bool :=
  if f =? NONE then mret must_notify
  else
    s ← gets _state;
    if contains f flag && contains f s then
      modify (set_state (inter s (invert f)));;
      mret true
    else mret must_notify.

(** What the loop of [_clearflag] keeps true of the flag word and of the
    local [must_notify], from the flag word [s0] it started with. *)
Definition clear_inv (flag s0 : StateFlag.t) (acc : StateFlag.t * bool) : Prop :=
  (forall j, 0 <= j -> Z.testbit acc.1 j = true -> Z.testbit s0 j = true)
  /\ (acc.2 = false -> acc.1 = s0)
  /\ (acc.2 = true -> exists i, 0 <= i /\ Z.testbit flag i = true
                               /\ Z.testbit s0 i = true /\ Z.testbit acc.1 i = false).

(** The file object after [close]. *)
Definition mark_closed (f : FileObj) : FileObj := mkFile (fbase f) true.

(** The environment after a write of [text] to the file [name] of a
    folder has succeeded. *)
Definition write_text (s : Store) (name text : string) (w : World) : World :=
  match store w s with
  | Some d => set_store s (Some (alter (append_text text) name d)) w
  | None => w
  end.

(** The environment after [open] has made the missing file [name]. *)
Definition create_file (s : Store) (name : string) (w : World) : World :=
  match store w s with
  | Some d =>
      match d !! name with
      | None => set_store s (Some (<[name := File ""]> d)) w
      | Some _ => w
      end
  | None => w
  end.

(** The machine in another environment. *)
Definition with_world (w : World) (m : Machine) : Machine :=
  mkMachine (self m) w (sbuffer m).

(** The machine with another object. *)
Definition with_self (d : DualFileData) (m : Machine) : Machine :=
  mkMachine d (world m) (sbuffer m).

(** The calls on files and threads among the events, without the log
    records and the observer callbacks. *)
Definition is_io (ev : Event) : bool :=
  match ev with
  | EvLog _ _ | EvNotify _ => false
  | _ => true
  end.

Definition io_calls (evs : list Event) : list Event := List.filter is_io evs.

(** The texts written to the files of a folder, in order. *)
Definition written (s : Store) (evs : list Event) : list string :=
  flat_map (fun ev =>
    match ev with
    | EvWrite s' f text => if decide (s' = s) then [text] else []
    | _ => []
    end) evs.

Global Arguments written : simpl never.

(** The line a record makes in a file, and the record [write] makes of a
    value at a time. *)
Definition line (record : string) : string := record +:+ newline.

Definition record_at (dt : DateTime) (data : string) : string :=
  epoch dt +:+ sep +:+ data.

(** The environment after the lines [texts] have been written, one after
    the other, to the file [name] of a folder. *)
Definition write_lines (s : Store) (name : string) (texts : list string) (w : World)
  : World :=
  fold_left (fun w text => write_text s name text w) texts w.

(** What [write] needs to reach its destinations: a primary file object
    that is open, in a folder that exists, on which writes do not fail; and
    the same of the secondary file object, when there is one and its folder
    is in place. *)
Definition ready (m : Machine) : Prop :=
  (exists f, fprimary (self m) = Some f /\ fclosed f = false
             /\ fault (world m) (OpWrite Primary (fbase f)) = false)
  /\ is_Some (primary (world m))
  /\ (forall g, fsecondary (self m) = Some g -> is_Some (secondary (world m)) ->
       fclosed g = false /\ fault (world m) (OpWrite Secondary (fbase g)) = false).

(** ** The methods as functions of the machine

    What [_setflag], [_clearflag], [close], [open] and [_offload_delete]
    leave behind, as functions; the lemmas [*_spec] below prove that the
    methods compute them. *)

(** The flag word after [_setflag] and after [_clearflag]. *)
Definition flag_set (flag s : StateFlag.t) : StateFlag.t :=
  if contains flag s then s else union s flag.

Definition flag_cleared (flag s : StateFlag.t) : StateFlag.t := (clear_loop flag s).1.

(** The name [open] gives the primary file now. *)
Definition name_now (m : Machine) : string :=
  file_prefix (self m) +:+ strftime_YjHM (utcnow (world m)) +:+ ".txt".

(** Whether [open(path, 'a')] succeeds on an entry of a folder. *)
Definition can_open (w : World) (s : Store) (name : string) : bool :=
  match store w s with
  | None => false
  | Some d =>
      negb (fault w (OpOpen s name))
      && match d !! name with Some (Dir _) => false | _ => true end
  end.

(** After [close()]. *)
Definition closed (m : Machine) : Machine :=
  with_state (flag_cleared DUAL_WRITE (_state (self m)))
    (with_self
       (set_fsecondary (mark_closed <$> fsecondary (self m))
          (set_fprimary (mark_closed <$> fprimary (self m)) (self m)))
       m).

(** After [open(secondary=False)] has succeeded. *)
Definition opened_primary (m : Machine) : Machine :=
  with_self (set_fprimary (Some (mkFile (name_now m) false)) (self m))
    (with_world (create_file Primary (name_now m) (world m)) m).

(** After [open(secondary=True)]. *)
Definition opened_secondary (m : Machine) : Machine :=
  match secondary (world m) with
  | None =>
      with_state
        (flag_cleared (union USB (union DUAL_WRITE SYNCING_FILES)) (_state (self m))) m
  | Some _ =>
      let m1 := with_state (flag_set USB (_state (self m))) m in
      match fprimary (self m) with
      | Some f =>
          if can_open (world m) Secondary (fbase f) then
            with_self (set_fsecondary (Some (mkFile (fbase f) false)) (self m1))
              (with_world (create_file Secondary (fbase f) (world m)) m1)
          else m1
      | None => m1
      end
  end.

(** Whether [_offload_delete] finds "a process already underway". *)
Definition delete_blocked (m : Machine) : bool :=
  contains SYNCING_FILES (_state (self m)) || truthy (sync_thread (self m)).

(** The thread [_offload_delete] or [_offload_sync] would make. *)
Definition next_thread (k : Worker) (m : Machine) : Thread :=
  mkThread k (threads_made (world m)).

(** After [_offload_delete()]. *)
Definition delete_offloaded (m : Machine) : Machine :=
  if delete_blocked m then m
  else
    mkMachine
      (set_delete_thread (Some (next_thread DeleteWorker m))
         (set_state (flag_set DELETING_FILES (_state (self m))) (self m)))
      (let w := set_threads_made (S (threads_made (world m))) (world m) in
       if fault (world m) (OpStart DeleteWorker) then w
       else set_alive (next_thread DeleteWorker m :: alive (world m)) w)
      (sbuffer m).

(** In the rotation block, when the primary file could be opened: before
    [_offload_delete] is called, and after it. *)
Definition reopened (m : Machine) : Machine :=
  let m1 := opened_primary (closed m) in
  let m2 := with_self (set_fdoy (Z.of_nat (yday (utcnow (world m)))) (self m1)) m1 in
  if truthy (fsecondary (self m)) then opened_secondary m2 else m2.

Definition rotated (m : Machine) : Machine := delete_offloaded (reopened m).

Definition option_list {A} (o : option A) : list A :=
  match o with Some a => [a] | None => [] end.

(** ** Frames

    A block frames a relation between machines when the machine it
    leaves is related to the machine it found, however it ends. *)
Definition frames (R : Machine -> Machine -> Prop) {A} (c : M A) : Prop :=
  forall m, R m (c m).1.2.

(** The relation the second half of [write] frames: the day of the last
    rotation and the primary file object stay as they are. *)
Definition same_primary (m m' : Machine) : Prop :=
  fdoy (self m') = fdoy (self m) /\ fprimary (self m') = fprimary (self m).

(** No worker is underway, by the flags and by the thread slots. *)
Definition idle (m : Machine) : Prop :=
  contains SYNCING_FILES (_state (self m)) = false
  /\ sync_thread (self m) = None
  /\ contains DELETING_FILES (_state (self m)) = false
  /\ delete_thread (self m) = None.

(** ** What the Sync Worker looks at *)

(** The day of the year a data file name gives. *)
Definition name_day (name : string) : option Z :=
  int_of_string (slice_from_end 11 8 name).

(** The file is today's file. *)
Definition is_today (doy : Z) (name : string) : bool :=
  match name_day name with
  | Some fdoy => doy =? fdoy
  | None => false
  end.

(** The secondary folder holds no entry of that name, or one of another
    size than the primary file of content [c]. *)
Definition copy_stale (w : World) (name c : string) : bool :=
  match lookup_entry w Secondary name with
  | None => true
  | Some n => negb (node_size n =? Z.of_nat (String.length c))
  end.

(** A primary entry is to be copied: it is a regular file, its name matches
    the pattern, its day is fewer than [max_sync] days before today, and
    its secondary copy is missing or differs in size. *)
Definition sync_wanted (d : DualFileData) (w : World) (doy : Z)
    (name : string) (node : Node) : bool :=
  match node with
  | File c =>
      data_file_match (file_prefix d) name
      && match name_day name with
         | Some fdoy => (doy - fdoy <? max_sync d) && copy_stale w name c
         | None => false
         end
  | Dir _ => false
  end.

(** Whether [shutil.copyfile] succeeds, and the environment after it has. *)
Definition copy_ok (w : World) (name : string) : bool :=
  match lookup_entry w Primary name, secondary w with
  | Some (File _), Some d =>
      match d !! name with
      | Some (Dir _) => false
      | _ => negb (fault w (OpCopy name))
      end
  | _, _ => false
  end.

Definition copied (name : string) (w : World) : World :=
  match lookup_entry w Primary name, secondary w with
  | Some (File c), Some d => set_store Secondary (Some (<[name := File c]> d)) w
  | _, _ => w
  end.

(** The copies among the events: the name of the file and the flag word
    in force during the copy. *)
Definition copies (evs : list Event) : list (string * StateFlag.t) :=
  flat_map (fun ev =>
    match ev with
    | EvCopy name st => [(name, st)]
    | _ => []
    end) evs.

Global Arguments copies : simpl never.

(** How the loop of [_sync] may change the secondary folder while it works
    on the files [touched]: the folder stays or stays away, the entries of
    the other names stay, and a directory stays a directory. *)
Definition sec_rel (touched : string -> Prop)
    (s s' : option (gmap string Node)) : Prop :=
  match s, s' with
  | None, None => True
  | Some d, Some d' =>
      (forall n, ~ touched n -> d' !! n = d !! n)
      /\ (forall n z, d' !! n = Some (Dir z) <-> d !! n = Some (Dir z))
  | _, _ => False
  end.

(** What the loop of [_sync] keeps of the machine [m0] it started on: of
    the object all but the flag word, in which BUFFERING is clear between
    two files; of the environment all but the secondary folder. *)
Definition sync_inv (touched : string -> Prop) (m0 m : Machine) : Prop :=
  self m = set_state (_state (self m)) (self m0)
  /\ contains BUFFERING (_state (self m)) = false
  /\ world m = set_store Secondary (secondary (world m)) (world m0)
  /\ sec_rel touched (secondary (world m0)) (secondary (world m)).

(** ** Definitions used in the further properties *)

(** Every call a block makes satisfies [P]. *)
Definition emits (P : Event -> Prop) {A} (c : M A) : Prop :=
  forall m, Forall P (c m).2.

(** A block falls through, or ends by [return] if [ret] allows it, or by
    an exception if [exc] allows it. *)
Definition falls_or (ret exc : bool) {A} (c : M A) : Prop :=
  forall m, match (c m).1.1 with
            | Val _ => True
            | Ret => ret = true
            | Exc _ => exc = true
            end.

(** The test at the head of [_offload_sync]. *)
Definition sync_blocked (m : Machine) : bool :=
  contains SYNCING_FILES (_state (self m)) || truthy (sync_thread (self m)).

(** What the first [try] statement of [write] may change: of the object
    the pending buffer, of the environment the primary folder (and the
    local [sbuffer]). *)
Definition primary_only (m m' : Machine) : Prop :=
  self m' = set_databuffer (databuffer (self m')) (self m)
  /\ world m' = set_store Primary (primary (world m')) (world m).

Definition primary_write_or_log (ev : Event) : Prop :=
  match ev with
  | EvWrite Primary _ _ | EvLog _ _ => True
  | _ => False
  end.

Definition is_primary_write (ev : Event) : Prop :=
  match ev with
  | EvWrite Primary _ _ => True
  | _ => False
  end.

(** What the second [try] statement of [write] leaves alone: the pending
    buffer and the primary folder. *)
Definition pending_kept (m m' : Machine) : Prop :=
  databuffer (self m') = databuffer (self m)
  /\ primary (world m') = primary (world m).

(** The texts of a list, one after the other. *)
Definition joined (texts : list string) : string := fold_right String.append "" texts.

(** A field of [strftime]: the number prints as exactly [width] decimal
    digits. *)
Definition field_ok (width n : nat) : bool :=
  (String.length (zfill width (decimal n)) =? width)%nat
  && all_digits (zfill width (decimal n)).

(** The environment after the loop of [_sync] has worked on one entry of
    the primary folder, and after it has worked on a list of them. *)
Definition sync_entry_world (d : DualFileData) (doy : Z) (w : World)
    (kv : string * Node) : World :=
  if sync_wanted d w doy kv.1 kv.2 && copy_ok w kv.1 then copied kv.1 w else w.

Definition sync_loop_world (d : DualFileData) (doy : Z) (kvs : list (string * Node))
    (w : World) : World :=
  fold_left (sync_entry_world d doy) kvs w.

(** The calls a Sync Worker makes. *)
Definition sync_call (ev : Event) : Prop :=
  match ev with
  | EvCopy _ _ | EvOpen Secondary _ | EvNotify _ | EvLog _ _ => True
  | _ => False
  end.

(** The primary folder is as it was. *)
Definition primary_kept (m m' : Machine) : Prop :=
  primary (world m') = primary (world m).

(** The machine after a [write] that found the medium back and started a
    Sync Worker. *)
Definition sync_started (m : Machine) : Machine :=
  mkMachine
    (set_sync_thread (Some (next_thread SyncWorker m))
       (set_state (flag_set SYNCING_FILES (flag_set USB (_state (self m)))) (self m)))
    (set_alive (next_thread SyncWorker m :: alive (world m))
       (set_threads_made (S (threads_made (world m))) (world m)))
    (sbuffer m).

(** The machine after the first [try] statement of [write] has written
    the pending records and the record [data]. *)
Definition primary_written (data : string) (m : Machine) (f : FileObj) : Machine :=
  mkMachine (set_databuffer [] (self m))
    (write_lines Primary (fbase f)
       (map line (databuffer (self m) ++ [record_at (utcnow (world m)) data])) (world m))
    (databuffer (self m)).

(** The machine after a [write] in the steady state. *)
Definition both_written (data : string) (m : Machine) (f g : FileObj) : Machine :=
  let lines := map line (databuffer (self m) ++ [record_at (utcnow (world m)) data]) in
  mkMachine
    (set_state (flag_set DUAL_WRITE (flag_set USB (_state (self m))))
       (set_databuffer [] (self m)))
    (write_lines Secondary (fbase g) lines
       (write_lines Primary (fbase f) lines (world m)))
    (databuffer (self m)).

(** ** Sample environments *)

Module Sample.

(** 9 April 2024 (day 100), 12:30 UTC. *)
Definition noon : DateTime := mkDateTime 2024 100 12 30 "1712665800.25".

Definition no_fault : Op -> bool := fun _ => false.

(** Today's file and the files of six and of five days before. *)
Definition today_file : string := "sr620-20241001230.txt".
Definition day94_file : string := "sr620-20240941200.txt".
Definition day95_file : string := "sr620-20240951200.txt".

Definition old_files : gmap string Node :=
  <[day94_file := File "94"]> (<[day95_file := File "95"]> ∅).

Definition live_files : gmap string Node :=
  <[today_file := File ""]> old_files.

(** A writer with the default prefix that keeps five days and syncs 32. *)
Definition fresh : DualFileData := __init__ "sr620-" 5 32.

Definition fp : FileObj := mkFile today_file false.
Definition fs : FileObj := mkFile today_file false.

(** The writer in the middle of day 100, its primary file open. *)
Definition running (flags : StateFlag.t) (sec : option FileObj)
    (pending : list string) : DualFileData :=
  set_databuffer pending
    (set_state flags (set_fsecondary sec (set_fdoy 100 (set_fprimary (Some fp) fresh)))).

(** Day 100 with both folders in place and no failing operation. *)
Definition calm (sec : gmap string Node) : World :=
  mkWorld noon (Some live_files) (Some sec) no_fault [] 0.

(** A Sync Worker is copying today's file; one record is pending. *)
Definition m_buffering : Machine :=
  mkMachine
    (running (union USB (union SYNCING_FILES BUFFERING)) None
       ["1712665799.25" +:+ sep +:+ "1.0"])
    (calm ∅) [].

(** The Delete Worker has just been started by the rotation of day 100. *)
Definition delete_worker : Thread := mkThread DeleteWorker 0.

Definition m_deleting : Machine :=
  mkMachine
    (set_delete_thread (Some delete_worker) (running DELETING_FILES None []))
    (mkWorld noon (Some live_files) None no_fault [delete_worker] 1) [].

(** Steady dual writing, when writes to the secondary file start to fail
    while its folder is still listed. *)
Definition yanked : Op -> bool := fun op =>
  match op with
  | OpWrite Secondary _ => true
  | _ => false
  end.

Definition m_yanked : Machine :=
  mkMachine
    (running (union USB DUAL_WRITE) (Some fs) [])
    (mkWorld noon (Some live_files) (Some (<[today_file := File ""]> ∅)) yanked [] 0) [].

(** A new writer whose primary folder does not exist. *)
Definition m_no_primary : Machine :=
  mkMachine fresh (mkWorld noon None None no_fault [] 0) [].

(** The first write of day 100 after a day of dual writing; the medium
    has been taken away since the last write. *)
Definition yesterday_file : string := "sr620-20240990000.txt".

Definition m_new_day_no_medium : Machine :=
  mkMachine
    (set_fdoy 99
       (set_fprimary (Some (mkFile yesterday_file false))
          (running (union USB DUAL_WRITE) (Some (mkFile yesterday_file false)) [])))
    (mkWorld noon (Some old_files) None no_fault [] 0) [].

(** The same with the medium in place. *)
Definition m_new_day : Machine :=
  mkMachine (self m_new_day_no_medium)
    (mkWorld noon (Some old_files) (Some (<[yesterday_file := File ""]> ∅)) no_fault [] 0)
    [].

(** Steady dual writing again after a sync, two records still pending. *)
Definition m_flush : Machine :=
  mkMachine
    (running (union USB DUAL_WRITE) (Some fs)
       ["1712665798.25" +:+ sep +:+ "0.9"; "1712665799.25" +:+ sep +:+ "1.0"])
    (calm (<[today_file := File ""]> ∅)) [].

(** A minute after [noon]. *)
Definition later : DateTime := mkDateTime 2024 100 12 31 "1712665860.5".

(** The machine [m_buffering] a minute later, after [write] has buffered
    [data] and the Sync Worker has copied the file, cleared its flags and
    opened the secondary file. *)
Definition m_after_sync (data : string) : Machine :=
  mkMachine
    (set_state (union USB DUAL_WRITE)
       (set_fsecondary (Some fs) (self (write data m_buffering).1.2)))
    (mkWorld later (Some live_files) (Some (<[today_file := File ""]> ∅)) no_fault [] 0)
    [].

(** A Sync Worker has just been started: the medium is back, empty. *)
Definition sync_worker : Thread := mkThread SyncWorker 1.

Definition m_syncing : Machine :=
  mkMachine
    (set_sync_thread (Some sync_worker) (running (union USB SYNCING_FILES) None []))
    (mkWorld noon (Some live_files) (Some ∅) no_fault [sync_worker] 2) [].

(** The same, the medium taken away again before the worker runs. *)
Definition m_syncing_no_medium : Machine :=
  mkMachine (self m_syncing)
    (mkWorld noon (Some live_files) None no_fault [sync_worker] 2) [].

(** Dual writing had been going on when the medium was taken away. *)
Definition m_medium_gone : Machine :=
  mkMachine (running (union USB DUAL_WRITE) (Some fs) [])
    (mkWorld noon (Some live_files) None no_fault [] 0) [].

(** The medium is back, empty; nothing has noticed yet. *)
Definition m_medium_back : Machine :=
  mkMachine (running NONE None []) (calm ∅) [].

(** Writes to the primary file fail; one record is pending. *)
Definition primary_fails : Op -> bool := fun op =>
  match op with
  | OpWrite Primary _ => true
  | _ => false
  end.

Definition m_primary_fails : Machine :=
  mkMachine
    (running (union USB DUAL_WRITE) (Some fs) ["1712665799.25" +:+ sep +:+ "1.0"])
    (mkWorld noon (Some live_files) (Some (<[today_file := File ""]> ∅)) primary_fails [] 0)
    [].

(** A new object with one observer, before its first [write]. *)
Definition m_start : Machine :=
  mkMachine (set_listeners [0%nat] fresh) (calm ∅) [].

End Sample.

(** ** Python values

    What a configuration dictionary holds.  A float is kept by the text
    that formatting it gives and by its truth value (whether it is not
    zero). *)
#[local] Set Warnings "-register-all".
Inductive Value : Type :=
| VNone
| VBool (b : bool)
| VInt (z : Z)
| VFloat (text : string) (nonzero : bool)
| VStr (s : string)
| VList (l : list Value)
| VDict (d : gmap string Value).
#[local] Set Warnings "+register-all".

(** [bool(v)] *)
Definition truth (v : Value) : bool :=
  match v with
  | VNone => false
  | VBool b => b
  | VInt z => negb (z =? 0)
  | VFloat _ nonzero => nonzero
  | VStr s => negb (String.eqb s "")
  | VList l => match l with [] => false | _ => true end
  | VDict d => match map_to_list d with [] => false | _ => true end
  end.

(** [str(z)] for an [int] *)
Definition int_text (z : Z) : string :=
  if z <? 0 then "-" +:+ decimal (Z.to_nat (- z)) else decimal (Z.to_nat z).

(** [f"{v}"].  The text of a list or of a dictionary is left to [repr]. *)
Definition str (repr : Value -> string) (v : Value) : string :=
  match v with
  | VNone => "None"
  | VBool b => bool_text b
  | VInt z => int_text z
  | VFloat text _ => text
  | VStr s => s
  | VList _ | VDict _ => repr v
  end.

(** The exceptions of the instrument's side.  [Of e] is an exception of
    the writer; [Exception_ e] is [Exception(e)].  The last two do not
    derive from [Exception]: only a bare [except:] catches them. *)
Inductive Error : Type :=
| Of (e : Exn)
| KeyError (key : string)
| SerialException
| UnicodeError
| YAMLError
| Exception_ (cause : Error)
| KeyboardInterrupt
| SystemExit (code : Z).

Definition is_Exception (e : Error) : bool :=
  match e with
  | KeyboardInterrupt | SystemExit _ => false
  | _ => true
  end.

(** A function that raises returns the exception in place of its value. *)
Global Instance Error_bind : MBind (sum Error) := fun A B k r =>
  match r with
  | inl e => inl e
  | inr a => k a
  end.

(** ** The configuration *)

(** One entry of [instrument_configuration]:
    [{"command": command, "desc": desc}]. *)
Definition instruction (cd : string * string) : Value :=
  VDict (<["command" := VStr cd.1]> (<["desc" := VStr cd.2]> ∅)).

(** The entries of [instrument_configuration] in [default_config]. *)
Definition default_instructions : list (string * string) :=
  [("*RST", "Counter reset and prepared for configuration.");
   ("MODE 0;SIZE 1;SRCE 0", "Time mode selected, sample size 1, source A.");
   ("TCPL 1,0;TCPL 2,0", "Channels A and B set to be DC coupled.");
   ("TERM 1,0;TERM 2,0", "Channels A and B set to be 50 Ohm terminated.");
   ("TMOD 1,0;TMOD 2,0", "Channels A and B trigger mode normal.");
   ("TSLP 1,0;TSLP 2,0", "Channels A and B trigger slope positive.");
   ("LEVL 1,1.5;LEVL 2,1.5", "Trigger levels of channels A and B set to 1.5V.");
   ("ARMM 0;AUTM 1;DREL 0",
    "Arming mode +-time, automode on, A and B trigger slope positive.")].

(** [default_config] *)
Definition default_config : gmap string Value :=
  <["serial_connection" := VDict (
      <["device" := VStr "/dev/ttyAMA0"]> (
      <["timeout" := VInt 3]> (
      <["baudrate" := VInt 9600]> ∅)))]> (
  <["primary_data_path" := VStr "./data"]> (
  <["secondary_data_path" := VStr "/media/usb/sr620"]> (
  <["prefix" := VStr "sr620-"]> (
  <["max_history" := VInt 999]> (
  <["max_sync" := VInt 32]> (
  <["instrument_configuration" := VList (map instruction default_instructions)]> (
  <["configure_upon_start" := VBool false]> (
  <["start_measurement_immediately" := VBool true]> (
  <["read_value_commands" := VStr "*WAI;XAVG?"]> ∅))))))))).

(** What [arp.parse_args()] returns: an option that was not given is
    [None], except [config], which has a default, and the switch
    [config_instrument]. *)
Record Namespace : Type := mkNamespace {
  a_config : string;
  a_serial_device : option string;
  a_timeout : option Z;
  a_config_instrument : bool;
  a_trigger_level : option (string * bool);   (* a float: its text, whether it is not zero *)
  a_data_path : option string;
  a_prefix : option string;
  a_usb_path : option string;
  a_max_history : option Z;
  a_max_sync : option Z
}.

(** Truthiness of an attribute that is [None] or a value. *)
Definition given {A} (value : A -> Value) (o : option A) : option Value :=
  match o with
  | Some x => if truth (value x) then Some (value x) else None
  | None => None
  end.

Definition VFloat' (f : string * bool) : Value := VFloat f.1 f.2.

(** [if opt: ccfg[key] = opt] *)
Definition set_if (key : string) (o : option Value) (ccfg : gmap string Value)
  : gmap string Value :=
  match o with
  | Some v => <[key := v]> ccfg
  | None => ccfg
  end.

(** The part of [parseArguments] that follows [a = arp.parse_args()]. *)
Definition parseArguments (a : Namespace) : gmap string Value :=
  let ccfg : gmap string Value := ∅ in
  let ccfg := set_if "config" (given VStr (Some (a_config a))) ccfg in
  let ccfg :=
    match given VStr (a_serial_device a) with
    | Some dev => <["serial_connection" := VDict (<["device" := dev]> ∅)]> ccfg
    | None => ccfg
    end in
  let ccfg :=
    match given VInt (a_timeout a) with
    | Some t =>
        match ccfg !! "serial_connection" with
        | Some (VDict d) => <["serial_connection" := VDict (<["timeout" := t]> d)]> ccfg
        | Some _ => ccfg     (* not reached: the entry is the dictionary made above *)
        | None => <["serial_connection" := VDict (<["timeout" := t]> ∅)]> ccfg
        end
    | None => ccfg
    end in
  let ccfg := set_if "configure_upon_start" (given VBool (Some (a_config_instrument a))) ccfg in
  let ccfg := set_if "trigger_level" (given VFloat' (a_trigger_level a)) ccfg in
  let ccfg := set_if "primary_data_path" (given VStr (a_data_path a)) ccfg in
  let ccfg := set_if "secondary_data_path" (given VStr (a_usb_path a)) ccfg in
  let ccfg := set_if "prefix" (given VStr (a_prefix a)) ccfg in
  let ccfg := set_if "max_history" (given VInt (a_max_history a)) ccfg in
  let ccfg := set_if "max_sync" (given VInt (a_max_sync a)) ccfg in
  ccfg.

(** *** [os.path.normpath] (posixpath) *)

Definition slash : ascii := "/"%char.

(** [path.split('/')] *)
Fixpoint split_slash (path : string) : list string :=
  match path with
  | EmptyString => [""]
  | String c rest =>
      if Ascii.eqb c slash then "" :: split_slash rest
      else
        match split_slash rest with
        | comp :: comps => String c comp :: comps
        | [] => [String c ""]
        end
  end.

(** ['/'.join(comps)] *)
Fixpoint join_slash (comps : list string) : string :=
  match comps with
  | [] => ""
  | [comp] => comp
  | comp :: comps' => comp +:+ "/" +:+ join_slash comps'
  end.

(** The loop over the components; [new_comps] is kept last first. *)
Fixpoint norm_comps (initial_slashes : nat) (comps new_comps : list string) : list string :=
  match comps with
  | [] => rev new_comps
  | comp :: comps' =>
      if String.eqb comp "" || String.eqb comp "." then
        norm_comps initial_slashes comps' new_comps
      else if negb (String.eqb comp "..")
              || (Nat.eqb initial_slashes 0 && match new_comps with [] => true | _ => false end)
              || match new_comps with last :: _ => String.eqb last ".." | [] => false end then
        norm_comps initial_slashes comps' (comp :: new_comps)
      else
        norm_comps initial_slashes comps' (tl new_comps)
  end.

Definition normpath (path : string) : string :=
  if String.eqb path "" then "."
  else
    let initial_slashes :=
      if String.prefix "/" path then
        if String.prefix "//" path && negb (String.prefix "///" path) then 2%nat else 1%nat
      else 0%nat in
    let path' := join_slash (norm_comps initial_slashes (split_slash path) []) in
    let path' := (match initial_slashes with 2%nat => "//" | 1%nat => "/" | _ => "" end) +:+ path' in
    if String.eqb path' "" then "." else path'.

(** *** The configuration file *)

(** What [yaml.load] makes of a file that could be opened. *)
Inductive Yaml : Type :=
| Malformed                  (* the loader raises *)
| Document (v : Value).      (* [None] for an empty document *)

(** What the file system has at the path given with [--config]: nothing,
    a folder ([listed] is the result of the test whether its base name is
    among the entries of its parent, [None] when scanning the parent
    raises), or a file ([None] when it cannot be opened for reading). *)
Inductive ConfigPath : Type :=
| NoSuchPath
| ConfigFolder (listed : option bool)
| ConfigFile (content : option Yaml).

(** [DualFileData._exists(path)] at that path *)
Definition config_exists (at_path : ConfigPath) : Error + bool :=
  match at_path with
  | ConfigFolder None => inl (Of OSError)
  | ConfigFolder (Some listed) => inr listed
  | ConfigFile _ => inr true
  | NoSuchPath => inr false
  end.

(** [with open(path, 'r') as f: ycfg = yaml.load(f, ...)] *)
Definition load_yaml (at_path : ConfigPath) : Error + Value :=
  match at_path with
  | ConfigFile (Some (Document v)) => inr v
  | ConfigFile (Some Malformed) => inl YAMLError
  | _ => inl (Of OSError)
  end.

(** [config | other] for a dictionary [config]: the entries of [other]
    win. *)
Definition dict_or (config : gmap string Value) (other : Value) : Error + gmap string Value :=
  match other with
  | VDict d => inr (d ∪ config)
  | _ => inl (Of TypeError)
  end.

(** [config[key] = os.path.normpath(config[key])] *)
Definition normalise (key : string) (config : gmap string Value)
  : Error + gmap string Value :=
  match config !! key with
  | Some (VStr path) => inr (<[key := VStr (normpath path)]> config)
  | Some _ => inl (Of TypeError)
  | None => inl (KeyError key)
  end.

(** [merge_config_params], given the parsed command line and what the
    file system has at a path. *)
Definition merge_config_params (a : Namespace) (fs : string -> ConfigPath)
  : Error + gmap string Value :=
  let config := default_config in
  let ccfg := parseArguments a in
  config ←
    match ccfg !! "config" with
    | Some (VStr path) =>
        found ← config_exists (fs path);
        if found : bool then
          ycfg ← load_yaml (fs path);
          dict_or config ycfg
        else inr config
    | _ => inr config
    end;
  let config := ccfg ∪ config in
  config ← normalise "primary_data_path" config;
  normalise "secondary_data_path" config.

(** ** [class SR620]: the instrument and the polling loop *)

(** The callback the instrument registers with the writer
    ([self._fnewstate]).  It writes one debug line and changes nothing; a
    call of it by the writer shows in the trace as the writer's
    [EvNotify]. *)
Definition _fnewstate : Listener := 0%nat.

(** The flag word of the writer ([self.datafile._state]). *)
Definition datafile_state (m : Machine) : StateFlag.t := _state (self m).

(** The members of [StateFlag] with their names, in the order of the
    class body. *)
Definition member_names : list (string * StateFlag.t) :=
  [("NONE", NONE); ("SERIAL", SERIAL); ("USB", USB); ("DUAL_WRITE", DUAL_WRITE);
   ("SYNCING_FILES", SYNCING_FILES); ("DELETING_FILES", DELETING_FILES);
   ("BUFFERING", BUFFERING)].

(** [repr] of a list of such names *)
Fixpoint comma_joined (names : list string) : string :=
  match names with
  | [] => ""
  | [name] => "'" +:+ name +:+ "'"
  | name :: names' => "'" +:+ name +:+ "', " +:+ comma_joined names'
  end.

Definition names_repr (names : list string) : string := "[" +:+ comma_joined names +:+ "]".

(** [bytes.decode("ascii")] and [str.encode("ascii")] succeed on the same
    texts and change nothing. *)
Definition is_ascii (s : string) : bool :=
  forallb (fun c => (nat_of_ascii c <? 128)%nat) (list_ascii_of_string s).

(** [str.strip()].  The white space among the ASCII characters. *)
Definition is_space (c : ascii) : bool :=
  let n := nat_of_ascii c in
  ((9 <=? n) && (n <=? 13) || (28 <=? n) && (n <=? 32))%nat.

Fixpoint lstrip (s : string) : string :=
  match s with
  | EmptyString => EmptyString
  | String c s' => if is_space c then lstrip s' else s
  end.

Definition reversed (s : string) : string :=
  string_of_list_ascii (rev (list_ascii_of_string s)).

Definition strip (s : string) : string := reversed (lstrip (reversed (lstrip s))).

Module SR620.

(** An attribute that [__init__] does not set is unset until its first
    assignment. *)
Inductive Attr (A : Type) : Type :=
| Unset
| Bound (v : A).
Arguments Unset {A}.
Arguments Bound {A} v.

(** A [serial.Serial] object, by the arguments it was made with. *)
Record Serial : Type := mkSerial {
  port : Value;
  baudrate : Value;
  timeout : Value
}.

(** The fields of an [SR620]; [self.datafile] is the writer of the
    bench below. *)
Record t : Type := mk {
  config : gmap string Value;
  _state : StateFlag.t;
  _read_error_count : Z;
  serial : Attr (option Serial)
}.

Definition set_state (v : StateFlag.t) (s : t) : t :=
  mk (config s) v (_read_error_count s) (serial s).
Definition set_read_error_count (v : Z) (s : t) : t :=
  mk (config s) (_state s) v (serial s).
Definition set_serial (v : option Serial) (s : t) : t :=
  mk (config s) (_state s) (_read_error_count s) (Bound v).

(** The calls that reach the port or block. *)
Inductive Call : Type :=
| PortOpen | PortWrite | PortFlush | PortResetInput | PortReadline | PortClose
| Sleep.

(** The instrument's side of the environment: the calls that raise
    [SerialException], the calls during which Ctrl-C arrives, the lines
    the instrument has ready for [readline] (with none, [readline] times
    out and returns no bytes), the text of the console time stamp, and
    the text of a list or dictionary. *)
Record Device : Type := mkDevice {
  fails : Call -> bool;
  interrupted : Call -> bool;
  answers : list string;
  console_stamp : DateTime -> string;
  repr : Value -> string
}.

Definition set_answers (v : list string) (d : Device) : Device :=
  mkDevice (fails d) (interrupted d) v (console_stamp d) (repr d).

(** The instrument, the writer with its environment, and the
    instrument's side of the environment. *)
Record Bench : Type := mkBench {
  this : t;
  datafile : Machine;
  device : Device
}.

Inductive Trace : Type :=
| FromFile (ev : Event)                            (* a call made by the writer *)
| SerialNew (port baudrate timeout : Value)        (* Serial(port, baudrate, 8, 'N', 1, timeout=...) *)
| SerialWrite (data : string)
| SerialFlush
| SerialResetInput
| SerialReadline
| SerialClose
| Slept (seconds : string)                         (* sleep(...) *)
| Printed (text : string)                          (* print(...) *)
| Logged (lvl : Level) (msg : string).             (* logging.debug/info/... *)

(** *** The monad of a method call *)

Inductive Result (A : Type) : Type :=
| Done (a : A)
| Raised (e : Error).
Arguments Done {A} a.
Arguments Raised {A} e.

Definition P (A : Type) : Type := Bench -> Result A * Bench * list Trace.

Global Instance P_ret : MRet P := fun A a b => (Done a, b, []).

Global Instance P_bind : MBind P := fun A B k c b =>
  let '(r, b1, t1) := c b in
  match r with
  | Done a => let '(r2, b2, t2) := k a b1 in (r2, b2, t1 ++ t2)
  | Raised e => (Raised e, b1, t1)
  end.

Definition pass : P unit := mret tt.

Definition raise {A} (e : Error) : P A := fun b => (Raised e, b, []).

(** [try: body / except Exception as e: handler e] *)
Definition try_except {A} (body : P A) (handler : Error -> P A) : P A := fun b =>
  let '(r, b1, t1) := body b in
  match r with
  | Raised e =>
      if is_Exception e then let '(r2, b2, t2) := handler e b1 in (r2, b2, t1 ++ t2)
      else (r, b1, t1)
  | Done _ => (r, b1, t1)
  end.

(** [try: body / except: handler]: the bare clause catches every
    exception. *)
Definition try_except_all {A} (body : P A) (handler : P A) : P A := fun b =>
  let '(r, b1, t1) := body b in
  match r with
  | Raised e => let '(r2, b2, t2) := handler b1 in (r2, b2, t1 ++ t2)
  | Done _ => (r, b1, t1)
  end.

(** [try: body / finally: fin] *)
Definition try_finally {A} (body : P A) (fin : P unit) : P A := fun b =>
  let '(r, b1, t1) := body b in
  let '(r2, b2, t2) := fin b1 in
  (match r2 with Done _ => r | Raised e => Raised e end, b2, t1 ++ t2).

Definition when (c : bool) (body : P unit) : P unit := if c then body else pass.

Fixpoint for_each {A} (xs : list A) (body : A -> P unit) : P unit :=
  match xs with
  | [] => pass
  | x :: xs' => body x ;; for_each xs' body
  end.

Definition get : P Bench := fun b => (Done b, b, []).
Definition gets {A} (f : t -> A) : P A := fun b => (Done (f (this b)), b, []).
Definition modify (f : t -> t) : P unit := fun b =>
  (Done tt, mkBench (f (this b)) (datafile b) (device b), []).
Definition emit (ev : Trace) : P unit := fun b => (Done tt, b, [ev]).

(** A method of the writer, called on [self.datafile]. *)
Definition lift (c : M unit) : P unit := fun b =>
  let '(o, m, evs) := c (datafile b) in
  (match o with Exc e => Raised (Of e) | _ => Done tt end,
   mkBench (this b) m (device b), map FromFile evs).

(** *** The library calls *)

Definition logging_debug (msg : string) : P unit := emit (Logged DEBUG msg).
Definition logging_info (msg : string) : P unit := emit (Logged INFO msg).
Definition logging_warning (msg : string) : P unit := emit (Logged WARNING msg).
Definition logging_error (msg : string) : P unit := emit (Logged ERROR msg).
Definition logging_exception (msg : string) : P unit := emit (Logged ERROR msg).
Definition print (text : string) : P unit := emit (Printed text).

(** A call that reaches the port or blocks: it is made, and then it is
    interrupted, fails, or comes back. *)
Definition call (c : Call) (ev : Trace) : P unit := fun b =>
  if interrupted (device b) c then (Raised KeyboardInterrupt, b, [ev])
  else if fails (device b) c then (Raised SerialException, b, [ev])
  else (Done tt, b, [ev]).

(** [sleep(seconds)] *)
Definition sleep (seconds : string) : P unit := fun b =>
  if interrupted (device b) Sleep then (Raised KeyboardInterrupt, b, [Slept seconds])
  else (Done tt, b, [Slept seconds]).

(** [f"{v}"] *)
Definition format (v : Value) : P string := fun b => (Done (str (repr (device b)) v), b, []).

(** [v[key]] for a string [key] *)
Definition getitem (v : Value) (key : string) : P Value :=
  match v with
  | VDict d =>
      match d !! key with
      | Some x => mret x
      | None => raise (KeyError key)
      end
  | _ => raise (Of TypeError)
  end.

(** [self.config[key]] *)
Definition config_getitem (key : string) : P Value :=
  cfg ← gets config;
  getitem (VDict cfg) key.

(** [key in self.config] *)
Definition config_contains (key : string) : P bool :=
  cfg ← gets config;
  mret (bool_decide (is_Some (cfg !! key))).

(** The elements [for x in v] visits.  The keys of a dictionary are
    strings, in some order. *)
Definition iterate (v : Value) : P (list Value) :=
  match v with
  | VList l => mret l
  | VStr s => mret (map (fun c => VStr (String c "")) (list_ascii_of_string s))
  | VDict d => mret (map (fun kv : string * Value => VStr kv.1) (map_to_list d))
  | _ => raise (Of TypeError)
  end.

(** [text.encode("ascii")] and [raw.decode("ascii")] *)
Definition encode_ascii (text : string) : P string :=
  if is_ascii text then mret text else raise UnicodeError.
Definition decode_ascii (raw : string) : P string :=
  if is_ascii raw then mret raw else raise UnicodeError.

(** [self.serial.<method>]: looking the method up needs the attribute
    and a port in it. *)
Definition serial_method : P Serial :=
  s ← gets serial;
  match s with
  | Bound (Some port) => mret port
  | _ => raise (Of AttributeError)
  end.

(** The next line of the instrument, or no bytes after the time-out. *)
Definition take_answer : P string := fun b =>
  match answers (device b) with
  | [] => (Done "", b, [])
  | raw :: rest => (Done raw, mkBench (this b) (datafile b) (set_answers rest (device b)), [])
  end.

(** [self.serial.readline()] *)
Definition serial_readline : P string :=
  _ ← serial_method;
  call PortReadline SerialReadline;;
  take_answer.

(** *** The methods *)

(** [SR620.__init__(self, dualdatafile, config)], on the writer [ddf] of
    the module. *)
Definition __init__ (config : gmap string Value) (ddf : Machine) (dev : Device) : Bench :=
  mkBench (mk config NONE 0 Unset)
          (register_newstatelistener _fnewstate ddf).1.2
          dev.

(** The property [state] *)
Definition state (b : Bench) : list string :=
  flat_map (fun ne : string * StateFlag.t =>
    if ne.2 =? NONE then []
    else if contains ne.2 (union (_state (this b)) (datafile_state (datafile b))) then [ne.1]
    else []) member_names.

Definition _clearflag (flag : StateFlag.t) : P unit :=
  for_each members (fun f =>
    if f =? NONE then pass
    else
      s ← gets _state;
      when (contains f flag && contains f s) (modify (set_state (inter s (invert f)))));;
  b ← get;
  logging_debug ("New state " +:+ int_text (_state (this b)) +:+ ": " +:+ names_repr (state b)).

(** The early [return] is the first branch. *)
Definition _setflag (flag : StateFlag.t) : P unit :=
  s ← gets _state;
  if contains flag s then mret tt
  else
    modify (set_state (union s flag));;
    b ← get;
    logging_debug ("New state " +:+ names_repr (state b)).

Definition _write (command : Value) : P unit :=
  _ ← serial_method;
  text ← format command;
  data ← encode_ascii (text +:+ newline);
  call PortWrite (SerialWrite data);;
  _ ← serial_method;
  call PortFlush SerialFlush;;
  _ ← serial_method;
  call PortResetInput SerialResetInput.

Definition _read : P string :=
  raw ← serial_readline;
  text ← decode_ascii raw;
  mret (strip text).

Definition _query (command : Value) : P string :=
  _write command;;
  _read.

(** The two statements that set the trigger levels. *)
Definition write_trigger_levels : P unit :=
  level ← config_getitem "trigger_level";
  l1 ← format level;
  level ← config_getitem "trigger_level";
  l2 ← format level;
  _write (VStr ("LEVL 1," +:+ l1 +:+ ";LEVL 2," +:+ l2));;
  level ← config_getitem "trigger_level";
  l ← format level;
  logging_info ("Trigger levels of channels A and B set to " +:+ l +:+ " V.").

(** The body of the loop of [config_instrument]. *)
Definition send_instruction (cmd : Value) : P unit :=
  command ← getitem cmd "command";
  _write command;;
  desc ← getitem cmd "desc";
  msg ← format desc;
  logging_info msg;;
  sleep "0.1".

Definition config_instrument : P unit :=
  logging_info "Configuring measurement instrument...";;
  res ← _query (VStr "*IDN?");
  logging_debug ("*IDN? > " +:+ res);;
  res ← _query (VStr "ERRS?");
  logging_debug ("ERRS? > " +:+ res);;
  try_except (
    cmds ← config_getitem "instrument_configuration";
    cmds ← iterate cmds;
    for_each cmds send_instruction;;
    has_level ← config_contains "trigger_level";
    when has_level write_trigger_levels;;
    logging_info "Measurement instrument configured.";;
    start ← config_getitem "start_measurement_immediately";
    when (truth start) (
      _write (VStr "STRT");;
      logging_info "Measurement started."))
    (fun e => logging_error "Unable to configure SR620 instrument for measurement.").

Definition set_trigger_levels : P unit :=
  try_except (
    has_level ← config_contains "trigger_level";
    when has_level write_trigger_levels)
    (fun e => logging_error "Cannot set trigger level in SR620.set_trigger_levels().").

Definition _open : P unit :=
  try_except (
    conn ← config_getitem "serial_connection";
    port ← getitem conn "device";
    conn ← config_getitem "serial_connection";
    baudrate ← getitem conn "baudrate";
    conn ← config_getitem "serial_connection";
    timeout ← getitem conn "timeout";
    call PortOpen (SerialNew port baudrate timeout);;
    modify (set_serial (Some (mkSerial port baudrate timeout)));;
    _setflag SERIAL;;
    conn ← config_getitem "serial_connection";
    port ← getitem conn "device";
    name ← format port;
    logging_info ("Serial port " +:+ name +:+ " opened.");;
    configure ← config_getitem "configure_upon_start";
    when (truth configure) config_instrument;;
    has_level ← config_contains "trigger_level";
    when has_level set_trigger_levels)
    (fun e =>
      (raise (Exception_ e) : P unit);;
      _clearflag SERIAL;;
      modify (set_serial None)).

Definition _close : P unit :=
  try_finally (
    try_except_all (
      s ← gets serial;
      match s with
      | Unset => raise (Of AttributeError)
      | Bound None => pass
      | Bound (Some _) =>
          logging_debug "Returning instrument to local mode";;
          _write (VStr "LOCL0");;
          logging_info "Closing serial device...";;
          _ ← serial_method;
          call PortClose SerialClose;;
          logging_info "Serial device closed."
      end)
      (logging_warning "Unable to properly close and release serial device."))
    (modify (set_serial None);;
     _clearflag SERIAL).

(** The [try] block of [readvalue]: it ends with [return data]. *)
Definition read_attempt : P (option string) :=
  command ← config_getitem "read_value_commands";
  _write command;;
  data ← _read;
  modify (set_read_error_count 0);;
  mret (Some data).

(** The [except] block of [readvalue]; the call then returns [None]. *)
Definition read_failed : P (option string) :=
  n ← gets _read_error_count;
  modify (set_read_error_count (n + 1));;
  n ← gets _read_error_count;
  when (5 <=? n) _close;;
  logging_exception "Unhandled exception in SR620.readvalue().";;
  mret None.

Definition readvalue : P (option string) :=
  try_except read_attempt (fun e => read_failed).

(** [f"{data}"] for what [readvalue] returned *)
Definition data_text (data : option string) : string :=
  match data with
  | Some text => text
  | None => "None"
  end.

(** [SR620.writevalue(self, value)]: the writer formats [value] into the
    record. *)
Definition writevalue (value : option string) : P unit :=
  lift (writevalue (data_text value)).

(** [exit(1)] *)
Definition exit (code : Z) : P unit := raise (SystemExit code).

(** The [try] block in the loop of [execute]. *)
Definition round_body : P unit :=
  s ← gets _state;
  if contains SERIAL s then
    data ← readvalue;
    b ← get;
    print (console_stamp (device b) (utcnow (world (datafile b))) +:+ " " +:+ data_text data);;
    writevalue data
  else
    b ← get;
    print (names_repr (state b));;
    sleep "3";;
    _open.

(** The clause [except KeyboardInterrupt]. *)
Definition on_interrupt : P unit :=
  logging_info "Exiting after keyboard interrupt...";;
  _close;;
  lift close;;
  exit 1.

(** The clause [except Exception as e]. *)
Definition on_exception (e : Error) : P unit :=
  (raise (Exception_ e) : P unit);;
  logging_exception "Unhandled exception in SR620.execute().".

(** One round of the loop of [execute]: the [try] statement with its two
    clauses, the first that matches being taken. *)
Definition execute_round : P unit := fun b =>
  let '(r, b1, t1) := round_body b in
  match r with
  | Raised KeyboardInterrupt =>
      let '(r2, b2, t2) := on_interrupt b1 in (r2, b2, t1 ++ t2)
  | Raised e =>
      if is_Exception e then
        let '(r2, b2, t2) := on_exception e b1 in (r2, b2, t1 ++ t2)
      else (r, b1, t1)
  | Done _ => (r, b1, t1)
  end.

(** [execute]: [while True], cut after [rounds] rounds. *)
Fixpoint execute (rounds : nat) : P unit :=
  match rounds with
  | O => pass
  | S n => execute_round;; execute n
  end.

End SR620.

Global Arguments SR620._clearflag : simpl never.
Global Arguments SR620._setflag : simpl never.
Global Arguments SR620._write : simpl never.
Global Arguments SR620._read : simpl never.
Global Arguments SR620._query : simpl never.
Global Arguments SR620._open : simpl never.
Global Arguments SR620._close : simpl never.
Global Arguments SR620.config_instrument : simpl never.
Global Arguments SR620.set_trigger_levels : simpl never.
Global Arguments SR620.send_instruction : simpl never.
Global Arguments SR620.write_trigger_levels : simpl never.
Global Arguments SR620.readvalue : simpl never.
Global Arguments SR620.writevalue : simpl never.
Global Arguments SR620.execute_round : simpl never.
Global Arguments SR620.round_body : simpl never.
Global Arguments SR620.on_interrupt : simpl never.
Global Arguments SR620.on_exception : simpl never.
Global Arguments SR620.read_attempt : simpl never.
Global Arguments SR620.read_failed : simpl never.
Global Arguments SR620.state : simpl never.
Global Arguments SR620.call : simpl never.
Global Arguments SR620.sleep : simpl never.
Global Arguments SR620.lift : simpl never.
Global Arguments SR620.serial_method : simpl never.
Global Arguments SR620.serial_readline : simpl never.
Global Arguments SR620.take_answer : simpl never.
Global Arguments SR620.encode_ascii : simpl never.
Global Arguments SR620.decode_ascii : simpl never.
Global Arguments SR620.iterate : simpl never.
Global Arguments is_ascii : simpl never.
Global Arguments strip : simpl never.
Global Arguments names_repr : simpl never.
Global Arguments int_text : simpl never.
Global Arguments normpath : simpl never.
Global Arguments default_config : simpl never.


(** ** Definitions used in the properties of the instrument *)

(** A relation between the bench before a block and the bench after it. *)
Definition keeps (R : SR620.Bench -> SR620.Bench -> Prop) {A} (c : SR620.P A) : Prop :=
  forall b, R b (c b).1.2.

(** The flag word without [SERIAL], as [_clearflag(StateFlag.SERIAL)]
    leaves it. *)
Definition serial_cleared (s : StateFlag.t) : StateFlag.t :=
  if contains SERIAL s then inter s (invert SERIAL) else s.

(** The bench after [_close]. *)
Definition port_closed (b : SR620.Bench) : SR620.Bench :=
  SR620.mkBench
    (SR620.set_state (serial_cleared (SR620._state (SR620.this b)))
       (SR620.set_serial None (SR620.this b)))
    (SR620.datafile b) (SR620.device b).

(** Only the lines the instrument has ready may differ. *)
Definition same_but_answers (b b' : SR620.Bench) : Prop :=
  SR620.this b' = SR620.this b /\ SR620.datafile b' = SR620.datafile b /\
  SR620.fails (SR620.device b') = SR620.fails (SR620.device b) /\
  SR620.interrupted (SR620.device b') = SR620.interrupted (SR620.device b) /\
  SR620.console_stamp (SR620.device b') = SR620.console_stamp (SR620.device b) /\
  SR620.repr (SR620.device b') = SR620.repr (SR620.device b).

(** What [_open] and the configuration of the instrument leave alone. *)
Definition same_session (b b' : SR620.Bench) : Prop :=
  SR620.config (SR620.this b') = SR620.config (SR620.this b) /\
  SR620._read_error_count (SR620.this b') = SR620._read_error_count (SR620.this b) /\
  SR620.datafile b' = SR620.datafile b.

(** The byte strings written to the port. *)
Definition sent (tr : list SR620.Trace) : list string :=
  flat_map (fun ev => match ev with SR620.SerialWrite data => [data] | _ => [] end) tr.

(** The exceptions a block can end with. *)
Definition throws (E : Error -> Prop) {A} (c : SR620.P A) : Prop :=
  forall b e, (c b).1.1 = SR620.Raised e -> E e.

(** Every exception but [SystemExit]. *)
Definition not_exit (e : Error) : Prop :=
  match e with
  | SystemExit _ => False
  | _ => True
  end.

(** The port and the flag word of the instrument are as before. *)
Definition same_port (b b' : SR620.Bench) : Prop :=
  SR620.serial (SR620.this b') = SR620.serial (SR620.this b) /\
  SR620._state (SR620.this b') = SR620._state (SR620.this b).

(** What leaves [_open] and one round of the loop: Ctrl-C, or an
    [Exception] made from an exception. *)
Definition interrupt_or_wrapped (e : Error) : Prop :=
  e = KeyboardInterrupt \/ exists cause, e = Exception_ cause /\ is_Exception cause = true.

(** No call of the port fails and Ctrl-C does not arrive. *)
Definition port_works (d : SR620.Device) : Prop :=
  forall c, SR620.fails d c = false /\ SR620.interrupted d c = false.

(** The line [readline] gets: the first the instrument has ready, or no
    bytes after the time-out. *)
Definition next_answer (b : SR620.Bench) : string := hd "" (SR620.answers (SR620.device b)).

(** The bench once that line was taken. *)
Definition answer_taken (b : SR620.Bench) : SR620.Bench :=
  match SR620.answers (SR620.device b) with
  | [] => b
  | _ :: rest => SR620.mkBench (SR620.this b) (SR620.datafile b) (SR620.set_answers rest (SR620.device b))
  end.

(** The bytes [_write(command)] sends. *)
Definition command_bytes (b : SR620.Bench) (command : Value) : string :=
  str (SR620.repr (SR620.device b)) command +:+ newline.

(** The bench with another instrument object, and with another writer. *)
Definition with_this (s : SR620.t) (b : SR620.Bench) : SR620.Bench :=
  SR620.mkBench s (SR620.datafile b) (SR620.device b).

Definition with_datafile (m : Machine) (b : SR620.Bench) : SR620.Bench :=
  SR620.mkBench (SR620.this b) m (SR620.device b).

(** The port is open and every write to it fails; Ctrl-C does not
    arrive; the read command of the configuration can be sent. *)
Definition port_dead (port : SR620.Serial) (command : Value) (b : SR620.Bench) : Prop :=
  contains SERIAL (SR620._state (SR620.this b)) = true /\
  SR620.serial (SR620.this b) = SR620.Bound (Some port) /\
  SR620.fails (SR620.device b) SR620.PortWrite = true /\
  (forall c, SR620.interrupted (SR620.device b) c = false) /\
  SR620.config (SR620.this b) !! "read_value_commands" = Some command /\
  is_ascii (command_bytes b command) = true.

(** The writer after a record whose value is the text [None]. *)
Definition missed (m : Machine) : Machine := (writevalue "None" m).1.2.

(** What the loop of [config_instrument] does for one entry. *)
Definition instruction_calls (cd : string * string) : list SR620.Trace :=
  [SR620.SerialWrite (cd.1 +:+ newline); SR620.SerialFlush; SR620.SerialResetInput;
   SR620.Logged INFO cd.2; SR620.Slept "0.1"].

(** The command that sets both trigger levels. *)
Definition level_command (b : SR620.Bench) (level : Value) : string :=
  "LEVL 1," +:+ str (SR620.repr (SR620.device b)) level
  +:+ ";LEVL 2," +:+ str (SR620.repr (SR620.device b)) level.

(** ** Definitions used in the properties of the configuration *)

(** The entries of the configuration file, when [merge_config_params]
    reads one. *)
Definition yaml_entries (a : Namespace) (fs : string -> ConfigPath) : gmap string Value :=
  match parseArguments a !! "config" with
  | Some (VStr path) =>
      match config_exists (fs path), load_yaml (fs path) with
      | inr true, inr (VDict d) => d
      | _, _ => ∅
      end
  | _ => ∅
  end.

(** The entry for a key: that of the command line, else that of the
    configuration file, else the default. *)
Definition chosen (a : Namespace) (fs : string -> ConfigPath) (key : string) : option Value :=
  match parseArguments a !! key with
  | Some v => Some v
  | None =>
      match yaml_entries a fs !! key with
      | Some v => Some v
      | None => default_config !! key
      end
  end.

(** The command line without the options whose value is 0 or the empty
    text. *)
Definition nonzero (o : option Z) : option Z :=
  match o with
  | Some z => if z =? 0 then None else Some z
  | None => None
  end.

Definition nonempty (o : option string) : option string :=
  match o with
  | Some s => if String.eqb s "" then None else Some s
  | None => None
  end.

Definition without_zeros (a : Namespace) : Namespace :=
  mkNamespace (a_config a) (nonempty (a_serial_device a)) (nonzero (a_timeout a))
    (a_config_instrument a)
    (match a_trigger_level a with
     | Some (text, true) => Some (text, true)
     | _ => None
     end)
    (nonempty (a_data_path a)) (nonempty (a_prefix a)) (nonempty (a_usb_path a))
    (nonzero (a_max_history a)) (nonzero (a_max_sync a)).

(** ** Sample benches *)

Module Lab.

Definition port : SR620.Serial :=
  SR620.mkSerial (VStr "/dev/ttyAMA0") (VInt 9600) (VInt 3).

Definition stamp (dt : DateTime) : string := "2024-30-04/09/24 (100) 12:04:00".

Definition no_repr (v : Value) : string := "".

Definition crlf : string := String "013"%char (String "010"%char EmptyString).

(** An instrument that answers. *)
Definition healthy (answers : list string) : SR620.Device :=
  SR620.mkDevice (fun _ => false) (fun _ => false) answers stamp no_repr.

(** The cable is out: writing to the port fails. *)
Definition unplugged : SR620.Device :=
  SR620.mkDevice (fun c => match c with SR620.PortWrite => true | _ => false end)
                 (fun _ => false) [] stamp no_repr.

(** Ctrl-C arrives while the program waits for a line. *)
Definition ctrl_c : SR620.Device :=
  SR620.mkDevice (fun _ => false)
                 (fun c => match c with SR620.PortReadline => true | _ => false end)
                 [] stamp no_repr.

(** The device file cannot be opened. *)
Definition no_device : SR620.Device :=
  SR620.mkDevice (fun c => match c with SR620.PortOpen => true | _ => false end)
                 (fun _ => false) [] stamp no_repr.

(** The instrument object while it polls. *)
Definition polling : SR620.t :=
  SR620.mk default_config SERIAL 0 (SR620.Bound (Some port)).

Definition b_polling : SR620.Bench :=
  SR620.mkBench polling Sample.m_flush (healthy [" 1.234E-9" +:+ crlf]).

Definition b_unplugged : SR620.Bench := SR620.mkBench polling Sample.m_flush unplugged.

Definition b_ctrl_c : SR620.Bench := SR620.mkBench polling Sample.m_flush ctrl_c.

Definition b_no_device : SR620.Bench :=
  SR620.__init__ default_config Sample.m_flush no_device.

(** Command lines: no option, and [-s /dev/ttyUSB0 -m 30]. *)
Definition plain : Namespace :=
  mkNamespace "sr620-default.yml" None None false None None None None None None.

Definition usb_port : Namespace :=
  mkNamespace "sr620-default.yml" (Some "/dev/ttyUSB0") None false None None None None
    (Some 30) None.

Definition no_files (path : string) : ConfigPath := NoSuchPath.

Definition merged (a : Namespace) : gmap string Value :=
  match merge_config_params a no_files with
  | inr cfg => cfg
  | inl _ => ∅
  end.

End Lab.

(** * Properties *)

(** ** Running the basic blocks *)

Lemma with_state_same m : with_state (_state (self m)) m = m.
Proof. destruct m as [[] ? ?]; reflexivity. Qed.

Lemma bind_unfold {A B} (c : M A) (k : A -> M B) m :
  (c ≫= k) m =
  let '(o, m1, e1) := c m in
  match o with
  | Val a => let '(o2, m2, e2) := k a m1 in (o2, m2, e1 ++ e2)
  | Ret => (Ret, m1, e1)
  | Exc x => (Exc x, m1, e1)
  end.
Proof. reflexivity. Qed.

Lemma bind_val {A B} (c : M A) (k : A -> M B) m a m1 e1 :
  c m = (Val a, m1, e1) ->
  (c ≫= k) m = let '(o2, m2, e2) := k a m1 in (o2, m2, e1 ++ e2).
Proof. intros H. rewrite bind_unfold, H. reflexivity. Qed.

(** Symbolic execution: the binds are unfolded and the basic blocks run;
    the methods stay folded until a lemma about them is used. *)
Create HintDb mrun.

#[global] Hint Unfold mbind M_bind mret M_ret pass raise return_ def try_except
  try_finally when gets modify get_world modify_world get_sbuffer put_sbuffer
  emit logging_debug logging_info logging_warning logging_exception
  logging_WARNING datetime_utcnow int DirEntry_getitem Thread_new Thread_start
  os_scandir os_path_getsize os_remove : mrun.

Ltac run := repeat (progress (autounfold with mrun; cbn)).

Lemma for_each_emit {A} (f : A -> Event) (xs : list A) m :
  for_each xs (fun x => emit (f x)) m = (Val tt, m, f <$> xs).
Proof.
  induction xs as [|x xs IH]; simpl; [reflexivity|].
  rewrite bind_unfold. cbn [emit]. rewrite IH. reflexivity.
Qed.

Lemma notify_run m :
  _notify_newstate m = (Val tt, m, EvNotify <$> _newstate_listeners (self m)).
Proof.
  unfold _notify_newstate. rewrite bind_unfold. cbn [gets].
  rewrite for_each_emit. reflexivity.
Qed.

Section FlagBits.

Lemma members_bits : Forall (fun f => f = NONE \/ single_bit f) members.
Proof.
  apply List.Forall_forall. intros f Hin. simpl in Hin.
  destruct Hin as [<-|[<-|[<-|[<-|[<-|[<-|[<-|[]]]]]]]].
  - left; reflexivity.
  - right; exists 0; split; [lia|reflexivity].
  - right; exists 1; split; [lia|reflexivity].
  - right; exists 2; split; [lia|reflexivity].
  - right; exists 3; split; [lia|reflexivity].
  - right; exists 4; split; [lia|reflexivity].
  - right; exists 5; split; [lia|reflexivity].
Qed.

Lemma contains_bit i x : 0 <= i -> contains (2 ^ i) x = Z.testbit x i.
Proof.
  intros Hi. unfold contains.
  assert (Hl : Z.land (2 ^ i) x = if Z.testbit x i then 2 ^ i else 0).
  { apply Z.bits_inj'. intros n Hn. rewrite Z.land_spec, Z.pow2_bits_eqb by lia.
    destruct (Z.eqb_spec i n) as [->|Hne].
    - destruct (Z.testbit x n); simpl; [|apply eq_sym, Z.bits_0].
      rewrite Z.pow2_bits_eqb by lia. rewrite Z.eqb_refl. reflexivity.
    - simpl. destruct (Z.testbit x i); [|apply eq_sym, Z.bits_0].
      rewrite Z.pow2_bits_eqb by lia. apply eq_sym, Z.eqb_neq. exact Hne. }
  rewrite Hl. assert (0 < 2 ^ i) by (apply Z.pow_pos_nonneg; lia).
  destruct (Z.testbit x i); [apply Z.eqb_refl | apply Z.eqb_neq; lia].
Qed.

Lemma contains_testbit f s i :
  contains f s = true -> Z.testbit f i = true -> Z.testbit s i = true.
Proof.
  unfold contains. intros H%Z.eqb_eq Hf.
  rewrite <- H, Z.land_spec in Hf. apply andb_true_iff in Hf. tauto.
Qed.

Lemma clear_bit_spec s i j :
  0 <= i -> 0 <= j ->
  Z.testbit (inter s (invert (2 ^ i))) j
  = Z.testbit s j && (Z.testbit all_bits j && negb (i =? j)).
Proof.
  intros Hi Hj. unfold inter, invert.
  rewrite Z.land_spec, Z.ldiff_spec, Z.pow2_bits_eqb by lia. reflexivity.
Qed.

(** [self._state | flag] differs from [self._state] unless [flag] is
    in it already. *)
Lemma union_same_contains s flag : union s flag = s -> contains flag s = true.
Proof.
  unfold union, contains. intros H. apply Z.eqb_eq.
  rewrite <- H. apply Z.bits_inj'. intros n _.
  rewrite Z.land_spec, Z.lor_spec.
  destruct (Z.testbit flag n), (Z.testbit s n); reflexivity.
Qed.

End FlagBits.

Lemma with_state_twice v v' m : with_state v' (with_state v m) = with_state v' m.
Proof. reflexivity. Qed.

Lemma clear_fold_run flag (fs : list StateFlag.t) must m :
  for_fold fs must (clear_body flag) m
  = (Val (fold_left (clear_step flag) fs (_state (self m), must)).2,
     with_state (fold_left (clear_step flag) fs (_state (self m), must)).1 m,
     []).
Proof.
  revert must m. induction fs as [|f fs IH]; intros must m; simpl.
  - rewrite with_state_same. reflexivity.
  - rewrite bind_unfold. unfold clear_body at 1, clear_step at 2 4.
    destruct (f =? NONE).
    + cbn. rewrite IH. reflexivity.
    + rewrite bind_unfold. cbn [gets fst].
      destruct (contains f flag && contains f (_state (self m))).
      * run. rewrite IH. reflexivity.
      * run. rewrite IH. reflexivity.
Qed.

Lemma clearflag_run flag m :
  _clearflag flag m
  = (Val tt,
     with_state (clear_loop flag (_state (self m))).1 m,
     if (clear_loop flag (_state (self m))).2
     then EvNotify <$> _newstate_listeners (self m) else []).
Proof.
  unfold _clearflag, def. rewrite bind_unfold.
  change (for_fold members false _) with (for_fold members false (clear_body flag)).
  rewrite clear_fold_run. fold (clear_loop flag (_state (self m))).
  destruct (clear_loop flag (_state (self m))) as [s' must].
  destruct must; cbn [fst snd when].
  - rewrite notify_run. reflexivity.
  - reflexivity.
Qed.

Lemma setflag_run flag m :
  _setflag flag m
  = if contains flag (_state (self m)) then (Val tt, m, [])
    else (Val tt, with_state (union (_state (self m)) flag) m,
          EvNotify <$> _newstate_listeners (self m)).
Proof.
  unfold _setflag, def. run.
  destruct (contains flag (_state (self m))); run; [reflexivity|].
  rewrite notify_run. reflexivity.
Qed.

Section ClearLoop.

Variables flag s0 : StateFlag.t.

Lemma clear_step_inv acc f :
  f = NONE \/ single_bit f -> clear_inv flag s0 acc -> clear_inv flag s0 (clear_step flag acc f).
Proof.
  intros Hf (Hsub & Hsame & Hdiff). unfold clear_step.
  destruct Hf as [->|(i & Hi & ->)]; [exact (conj Hsub (conj Hsame Hdiff))|].
  destruct (2 ^ i =? NONE); [exact (conj Hsub (conj Hsame Hdiff))|].
  rewrite !contains_bit by lia.
  destruct (Z.testbit flag i) eqn:Hfi; simpl; [|exact (conj Hsub (conj Hsame Hdiff))].
  destruct (Z.testbit acc.1 i) eqn:Hci; simpl; [|exact (conj Hsub (conj Hsame Hdiff))].
  split; [|split]; cbn [fst snd].
  - intros j Hj. rewrite clear_bit_spec by lia. intros H.
    apply andb_true_iff in H. apply Hsub; tauto.
  - discriminate.
  - intros _. exists i. repeat split; auto.
    rewrite clear_bit_spec, Z.eqb_refl by lia. simpl.
    rewrite !andb_false_r. reflexivity.
Qed.

Lemma clear_fold_inv fs acc :
  Forall (fun f => f = NONE \/ single_bit f) fs ->
  clear_inv flag s0 acc -> clear_inv flag s0 (fold_left (clear_step flag) fs acc).
Proof.
  intros Hfs. revert acc. induction Hfs as [|f fs Hf _ IH]; intros acc Hacc; simpl.
  - exact Hacc.
  - apply IH, clear_step_inv; assumption.
Qed.

(** With no common bit nothing is cleared. *)
Lemma clear_fold_disjoint fs acc :
  Forall (fun f => f = NONE \/ single_bit f) fs ->
  inter flag s0 = 0 -> acc = (s0, false) ->
  fold_left (clear_step flag) fs acc = (s0, false).
Proof.
  intros Hfs Hdis ->. induction Hfs as [|f fs Hf _ IH]; simpl; [reflexivity|].
  assert (Hstep : clear_step flag (s0, false) f = (s0, false)).
  { unfold clear_step. destruct (f =? NONE) eqn:E; [reflexivity|].
    destruct Hf as [->|(i & Hi & ->)]; [discriminate|].
    rewrite !contains_bit by lia. simpl.
    assert (Hb : Z.testbit (inter flag s0) i = false) by (rewrite Hdis; apply Z.bits_0).
    unfold inter in Hb. rewrite Z.land_spec in Hb. rewrite Hb. reflexivity. }
  rewrite Hstep. exact IH.
Qed.

End ClearLoop.

Lemma clear_loop_inv flag s : clear_inv flag s (clear_loop flag s).
Proof.
  apply clear_fold_inv; [apply members_bits|].
  split; [|split]; simpl; auto. discriminate.
Qed.

Lemma clear_loop_quiet flag s : (clear_loop flag s).2 = false -> (clear_loop flag s).1 = s.
Proof. intros H. apply (clear_loop_inv flag s). exact H. Qed.

Lemma clear_loop_flips flag s : (clear_loop flag s).2 = true -> (clear_loop flag s).1 <> s.
Proof.
  intros H Heq. destruct (clear_loop_inv flag s) as (_ & _ & Hd).
  destruct (Hd H) as (i & _ & _ & H1 & H2). rewrite Heq in H2. congruence.
Qed.

Lemma clear_loop_disjoint flag s : inter flag s = 0 -> clear_loop flag s = (s, false).
Proof.
  intros H. apply (clear_fold_disjoint flag s); [apply members_bits|exact H|reflexivity].
Qed.

(** ** State flags and their observers *)

(** C8. Setting flags that are all set already, or clearing flags none of
    which is set, changes nothing and calls no observer; a [_setflag] or
    [_clearflag] call that changes the flag word calls every registered
    observer exactly once, in registration order, however many flags it
    flips; a call that leaves the flag word as it was calls none. *)
Theorem flag_mutation_notifies_once (flag : StateFlag.t) (m : Machine) :
  (exists m' evs,
      _setflag flag m = (Val tt, m', evs)
      /\ (contains flag (_state (self m)) = true -> m' = m /\ evs = [])
      /\ (_state (self m') = _state (self m) -> m' = m /\ evs = [])
      /\ (_state (self m') <> _state (self m) ->
          evs = EvNotify <$> _newstate_listeners (self m)))
  /\
  (exists m' evs,
      _clearflag flag m = (Val tt, m', evs)
      /\ (inter flag (_state (self m)) = 0 -> m' = m /\ evs = [])
      /\ (_state (self m') = _state (self m) -> m' = m /\ evs = [])
      /\ (_state (self m') <> _state (self m) ->
          evs = EvNotify <$> _newstate_listeners (self m))).
Proof.
  split.
  - rewrite setflag_run.
    destruct (contains flag (_state (self m))) eqn:Hc.
    + exists m, []. repeat split; auto. intros H; congruence.
    + eexists _, _. split; [reflexivity|]. cbn [with_state self _state set_state].
      split; [discriminate|]. split; [|reflexivity].
      intros H%union_same_contains. congruence.
  - rewrite clearflag_run.
    eexists _, _. split; [reflexivity|]. cbn [with_state self _state set_state].
    split; [|split].
    + intros H. rewrite (clear_loop_disjoint _ _ H). cbn [fst snd].
      split; [apply with_state_same|reflexivity].
    + intros H. destruct (clear_loop flag (_state (self m))).2 eqn:Hm.
      * apply clear_loop_flips in Hm. contradiction.
      * rewrite H. split; [apply with_state_same|reflexivity].
    + intros H. destruct (clear_loop flag (_state (self m))).2 eqn:Hm; [reflexivity|].
      apply clear_loop_quiet in Hm. contradiction.
Qed.

(** ** The clock properties *)

Lemma uint_of_zeros k s :
  NilEmpty.uint_of_string (zeros k +:+ s)
  = Nat.iter k (option_map Decimal.D0) (NilEmpty.uint_of_string s).
Proof. induction k as [|k IH]; simpl; [reflexivity|]. rewrite IH. reflexivity. Qed.

Lemma value_of_zeros k (o : option Decimal.uint) :
  (fun d => Z.of_nat (Nat.of_uint d)) <$> Nat.iter k (option_map Decimal.D0) o
  = (fun d => Z.of_nat (Nat.of_uint d)) <$> o.
Proof.
  induction k as [|k IH]; simpl; [reflexivity|].
  rewrite <- IH. destruct (Nat.iter k (option_map Decimal.D0) o); reflexivity.
Qed.

Lemma decimal_nonempty n : decimal n <> "".
Proof.
  unfold decimal. intros H.
  pose proof (NilEmpty.usu (Nat.to_uint n)) as Hu. rewrite H in Hu. simpl in Hu.
  pose proof (DecimalNat.Unsigned.of_to n) as Hn.
  injection Hu as Hu. rewrite <- Hu in Hn. simpl in Hn. subst n. discriminate.
Qed.

Lemma int_of_strftime_j n : int_of_string (zfill 3 (decimal n)) = Some (Z.of_nat n).
Proof.
  unfold zfill, int_of_string.
  destruct (zeros (3 - String.length (decimal n)) +:+ decimal n) eqn:E.
  - exfalso. destruct (zeros _) in E; simpl in E; [|discriminate].
    exact (decimal_nonempty n E).
  - rewrite <- E, uint_of_zeros, value_of_zeros. unfold decimal.
    rewrite NilEmpty.usu. simpl. rewrite DecimalNat.Unsigned.of_to. reflexivity.
Qed.

Lemma doy_run m : doy m = (Val (Z.of_nat (yday (utcnow (world m)))), m, []).
Proof.
  unfold doy, datetime_utcnow, int. run. rewrite int_of_strftime_j. reflexivity.
Qed.

Lemma filename_run m :
  filename m
  = (Val (file_prefix (self m) +:+ strftime_YjHM (utcnow (world m)) +:+ ".txt"), m, []).
Proof. reflexivity. Qed.

(** ** Buffering *)

(** C5. A [write] made while BUFFERING is set, with no rotation due and a
    primary file object in place, appends the record, stamped with the time
    of the call, to the pending buffer and returns: it makes no call on
    either destination (no call at all leaves the object), and it leaves
    the environment, both file objects and the flag word as they were. *)
Theorem write_while_buffering (data : string) (m : Machine) (f : FileObj) :
  contains BUFFERING (_state (self m)) = true ->
  fdoy (self m) = Z.of_nat (yday (utcnow (world m))) ->
  fprimary (self m) = Some f ->
  write data m
  = (Val tt,
     mkMachine
       (set_databuffer
          (databuffer (self m) ++ [epoch (utcnow (world m)) +:+ sep +:+ data])
          (self m))
       (world m) [],
     []).
Proof.
  intros Hb Hd Hf. unfold write. run. rewrite doy_run. run.
  rewrite Hd, Z.eqb_refl. run. unfold write_record, write_primary. run.
  rewrite Hf. run. rewrite Hb. run. reflexivity.
Qed.

Lemma write_while_buffering_witness :
  contains BUFFERING (_state (self Sample.m_buffering)) = true
  /\ fdoy (self Sample.m_buffering)
     = Z.of_nat (yday (utcnow (world Sample.m_buffering)))
  /\ fprimary (self Sample.m_buffering) = Some Sample.fp
  /\ write "2.0" Sample.m_buffering
     = (Val tt,
        mkMachine
          (set_databuffer
             (databuffer (self Sample.m_buffering)
                ++ [epoch (utcnow (world Sample.m_buffering)) +:+ sep +:+ "2.0"])
             (self Sample.m_buffering))
          (world Sample.m_buffering) [],
        []).
Proof.
  assert (Hb : contains BUFFERING (_state (self Sample.m_buffering)) = true)
    by reflexivity.
  assert (Hd : fdoy (self Sample.m_buffering)
               = Z.of_nat (yday (utcnow (world Sample.m_buffering))))
    by reflexivity.
  assert (Hf : fprimary (self Sample.m_buffering) = Some Sample.fp) by reflexivity.
  split; [exact Hb|]. split; [exact Hd|]. split; [exact Hf|].
  exact (write_while_buffering "2.0" Sample.m_buffering Sample.fp Hb Hd Hf).
Defined.

(** ** The Delete Worker *)

Lemma delete_try_run d f m :
  delete_try d f m
  = if eis_file f && data_file_match (file_prefix (self m)) (ename f)
    then (Exc TypeError, m, [])
    else (Val tt, m, []).
Proof.
  unfold delete_try. run.
  destruct (eis_file f && data_file_match (file_prefix (self m)) (ename f)); reflexivity.
Qed.

(** What the loop of [_delete] logs. *)
Lemma delete_loop_run d (entries : list DirEntry) m :
  for_each entries (delete_entry d) m
  = (Val tt, m,
     flat_map (fun f =>
       if eis_file f && data_file_match (file_prefix (self m)) (ename f)
       then [EvLog ERROR ("Unable to delete file " +:+ DirEntry_repr f)]
       else []) entries).
Proof.
  induction entries as [|f entries IH]; [reflexivity|].
  cbn [for_each flat_map]. rewrite bind_unfold.
  unfold delete_entry at 1, try_except. rewrite delete_try_run.
  destruct (eis_file f && data_file_match (file_prefix (self m)) (ename f));
    cbn; rewrite IH; reflexivity.
Qed.

(** Whatever the folder holds and whatever the horizon, a run of the
    Delete Worker calls [os.remove] on no file and leaves the environment
    as it found it. *)
Lemma delete_removes_nothing m :
  world (_delete m).1.2 = world m
  /\ forall name, ~ In (EvRemove name) (_delete m).2.
Proof.
  unfold _delete. run. rewrite doy_run. run. unfold os_scandir. run.
  destruct (primary (world m)) as [dir|]; run.
  - rewrite delete_loop_run. run. rewrite clearflag_run. run. split; [reflexivity|].
    intros name Hin. rewrite !in_app_iff in Hin.
    destruct Hin as [Hin|[Hin|Hin]].
    + apply in_flat_map in Hin. destruct Hin as (f & _ & Hin).
      destruct (_ && _) in Hin; simpl in Hin; [destruct Hin as [H|[]]; discriminate|contradiction].
    + destruct (clear_loop _ _).2; [|contradiction].
      apply in_map_iff in Hin. destruct Hin as (? & ? & _). discriminate.
    + simpl in Hin. destruct Hin as [H|[]]. discriminate.
  - split; [reflexivity|]. intros name [].
Qed.

(** C1. With a horizon of five days and today day 100, the file of day 94
    is six days old, is a regular file and matches the pattern; the Delete
    Worker does not delete it: the subscript on the directory entry raises
    for every matching file, the exception is logged, and the run ends with
    the folder as it was. *)
Theorem delete_keeps_expired_file :
  data_file_match (file_prefix Sample.fresh) Sample.day94_file = true
  /\ int_of_string (slice_from_end 11 8 Sample.day94_file)
     = Some (Z.of_nat (yday Sample.noon) - (max_history Sample.fresh + 1))
  /\ lookup_entry (world Sample.m_deleting) Primary Sample.day94_file = Some (File "94")
  /\ _delete Sample.m_deleting
     = (Val tt,
        mkMachine (Sample.running NONE None []) (world Sample.m_deleting) [],
        [EvLog ERROR "Unable to delete file <DirEntry 'sr620-20241001230.txt'>";
         EvLog ERROR "Unable to delete file <DirEntry 'sr620-20240951200.txt'>";
         EvLog ERROR "Unable to delete file <DirEntry 'sr620-20240941200.txt'>";
         EvLog INFO "Deletion of files done."]).
Proof. repeat split; vm_compute; reflexivity. Qed.

(** ** A failing secondary write *)

(** The handler of a failed secondary write stops at its first statement:
    the flag is not cleared and the file object is not dropped. *)
Lemma secondary_failure_handler_raises msg m :
  (logging_WARNING msg;; _clearflag DUAL_WRITE;; modify (set_fsecondary None)) m
  = (Exc TypeError, m, []).
Proof. reflexivity. Qed.

(** C2. Steady dual writing, and the write to the secondary file fails
    while its folder is still listed: after the call the DUAL_WRITE flag is
    still set and the secondary file object is still in its slot, and the
    next call writes to the secondary file again. *)
Theorem failed_secondary_write_keeps_handle :
  contains DUAL_WRITE (_state (self Sample.m_yanked)) = true
  /\ fsecondary (self Sample.m_yanked) = Some Sample.fs
  /\ self (write "2.0" Sample.m_yanked).1.2 = self Sample.m_yanked
  /\ (write "2.0" Sample.m_yanked).2
     = [EvWrite Primary Sample.fp ("1712665800.25" +:+ sep +:+ "2.0" +:+ newline);
        EvWrite Secondary Sample.fs ("1712665800.25" +:+ sep +:+ "2.0" +:+ newline);
        EvLog ERROR "Unhandled exception in DualDataFile.write() secondary file"]
  /\ (write "3.0" (write "2.0" Sample.m_yanked).1.2).2
     = [EvWrite Primary Sample.fp ("1712665800.25" +:+ sep +:+ "3.0" +:+ newline);
        EvWrite Secondary Sample.fs ("1712665800.25" +:+ sep +:+ "3.0" +:+ newline);
        EvLog ERROR "Unhandled exception in DualDataFile.write() secondary file"].
Proof. repeat split; vm_compute; reflexivity. Qed.

(** ** Starting the workers *)

(** With no Sync Worker underway, [_offload_delete] starts a thread
    whatever the DELETING_FILES flag and the [delete_thread] slot say. *)
Lemma offload_delete_ignores_delete_state m :
  contains SYNCING_FILES (_state (self m)) = false ->
  sync_thread (self m) = None ->
  fault (world m) (OpStart DeleteWorker) = false ->
  alive (world (_offload_delete m).1.2)
  = mkThread DeleteWorker (threads_made (world m)) :: alive (world m).
Proof.
  intros Hs Ht Hf. unfold _offload_delete. run. rewrite Hs, Ht. run.
  rewrite setflag_run. destruct (contains DELETING_FILES _); run; rewrite Hf; reflexivity.
Qed.

(** C3. A Delete Worker is alive, its flag set and its thread in the slot
    (no Sync Worker is): a second trigger starts a second Delete Worker. *)
Theorem second_delete_trigger_starts_thread :
  contains DELETING_FILES (_state (self Sample.m_deleting)) = true
  /\ delete_thread (self Sample.m_deleting) = Some Sample.delete_worker
  /\ alive (world Sample.m_deleting) = [Sample.delete_worker]
  /\ (_offload_delete Sample.m_deleting).2
     = [EvLog INFO "Starting new thread for deleting files...";
        EvStart (mkThread DeleteWorker 1)]
  /\ alive (world (_offload_delete Sample.m_deleting).1.2)
     = [mkThread DeleteWorker 1; Sample.delete_worker].
Proof. repeat split; vm_compute; reflexivity. Qed.

(** ** Failing to open the primary destination *)

(** No exception leaves [writevalue]. *)
Lemma writevalue_never_raises value m :
  exists m' evs, writevalue value m = (Val tt, m', evs).
Proof.
  unfold writevalue, def, try_except, logging_exception, emit.
  destruct (write value m) as [[o m'] evs]. destruct o as [[]| |e]; eauto.
Qed.

(** C4. The primary folder does not exist: [open] lets the exception out
    and so does [write], but [writevalue] catches it, logs it and returns,
    and the polling loop goes on. *)
Theorem primary_open_failure_is_logged :
  primary (world Sample.m_no_primary) = None
  /\ (open false Sample.m_no_primary).1.1 = Exc OSError
  /\ (write "1.0" Sample.m_no_primary).1.1 = Exc OSError
  /\ writevalue "1.0" Sample.m_no_primary
     = (Val tt, Sample.m_no_primary,
        [EvOpen Primary "sr620-20241001230.txt";
         EvLog ERROR "Unhandled exception in SR620.writevalue()."]).
Proof. repeat split; vm_compute; reflexivity. Qed.

(** ** Running the file operations *)

Lemma builtin_open_run s name m :
  builtin_open s name m
  = match store (world m) s with
    | None => (Exc OSError, m, [EvOpen s name])
    | Some d =>
        if fault (world m) (OpOpen s name) then (Exc OSError, m, [EvOpen s name])
        else match d !! name with
             | Some (Dir _) => (Exc OSError, m, [EvOpen s name])
             | _ => (Val (mkFile name false),
                     with_world (create_file s name (world m)) m,
                     [EvOpen s name])
             end
    end.
Proof.
  unfold builtin_open, create_file, with_world. run.
  destruct (store (world m) s) as [d|]; run; [|reflexivity].
  destruct (fault (world m) (OpOpen s name)); run; [reflexivity|].
  destruct (d !! name) as [[c|z]|]; run; try reflexivity.
  destruct m; reflexivity.
Qed.

Lemma file_close_run k m :
  file_close k m
  = match slot_get k (self m) with
    | None => (Exc AttributeError, m, [])
    | Some f =>
        (if negb (fclosed f) && fault (world m) (OpClose (slot_store k) (fbase f))
         then Exc OSError else Val tt,
         with_self (slot_set k (Some (mark_closed f)) (self m)) m,
         [EvClose (slot_store k) f])
    end.
Proof.
  unfold file_close, with_self. run.
  destruct (slot_get k (self m)) as [f|]; run; [|reflexivity].
  destruct (negb (fclosed f) && fault (world m) (OpClose (slot_store k) (fbase f)));
    reflexivity.
Qed.

(** A write through an open file object whose folder is there and whose
    writes do not fail. *)
Lemma file_write_run k text m f :
  slot_get k (self m) = Some f ->
  fclosed f = false ->
  is_Some (store (world m) (slot_store k)) ->
  fault (world m) (OpWrite (slot_store k) (fbase f)) = false ->
  file_write k text m
  = (Val tt, with_world (write_text (slot_store k) (fbase f) text (world m)) m,
     [EvWrite (slot_store k) f text]).
Proof.
  intros Hs Hc [d Hd] Hf. unfold file_write, write_text, with_world. run.
  rewrite Hs. run. rewrite Hc. run. rewrite Hd. run. rewrite Hf. reflexivity.
Qed.

(** A write that fails: through a closed object, into a missing folder or
    with an I/O error. *)
Lemma file_write_fails k text m f :
  slot_get k (self m) = Some f ->
  fclosed f = true \/ store (world m) (slot_store k) = None
  \/ fault (world m) (OpWrite (slot_store k) (fbase f)) = true ->
  exists e, file_write k text m = (Exc e, m, [EvWrite (slot_store k) f text]).
Proof.
  intros Hs H. unfold file_write. run. rewrite Hs. run.
  destruct (fclosed f); run; [eauto|].
  destruct (store (world m) (slot_store k)) as [d|]; run; [|eauto].
  destruct (fault (world m) (OpWrite (slot_store k) (fbase f))); run; [eauto|].
  destruct H as [H|[H|H]]; discriminate.
Qed.

(** ** One flag after [_setflag] and [_clearflag] *)

Lemma all_bits_spec i : 0 <= i < 6 -> Z.testbit all_bits i = true.
Proof.
  intros H. assert (i = 0 \/ i = 1 \/ i = 2 \/ i = 3 \/ i = 4 \/ i = 5) as Hi by lia.
  destruct Hi as [->|[->|[->|[->|[->| ->]]]]]; reflexivity.
Qed.

Lemma clear_fold_bit flag (js : list Z) acc i :
  0 <= i < 6 ->
  Forall (fun j => 0 <= j < 6) js ->
  Z.testbit (fold_left (clear_step flag) (map (Z.pow 2) js) acc).1 i
  = Z.testbit acc.1 i && negb (Z.testbit flag i && existsb (Z.eqb i) js).
Proof.
  intros Hi Hjs. revert acc. induction Hjs as [|j js Hj _ IH]; intros acc.
  - simpl. rewrite andb_false_r, andb_true_r. reflexivity.
  - cbn [map fold_left existsb]. rewrite IH. unfold clear_step.
    assert (0 < 2 ^ j) by (apply Z.pow_pos_nonneg; lia).
    destruct (Z.eqb_spec (2 ^ j) NONE) as [E|_]; [unfold NONE in E; lia|].
    rewrite !contains_bit by lia.
    destruct (Z.eqb_spec i j) as [->|Hne].
    + destruct (Z.testbit flag j), (Z.testbit acc.1 j) eqn:Ha; cbn [andb fst orb negb];
        rewrite ?clear_bit_spec, ?Z.eqb_refl, ?Ha by lia;
        cbn [andb negb]; rewrite ?andb_false_r; reflexivity.
    + assert (Hji : (j =? i) = false) by (apply Z.eqb_neq; lia).
      destruct (Z.testbit flag j && Z.testbit acc.1 j); cbn [fst orb]; [|reflexivity].
      rewrite clear_bit_spec, Hji, all_bits_spec by lia.
      cbn [negb]. rewrite !andb_true_r. reflexivity.
Qed.

Lemma clear_loop_bit flag s i :
  0 <= i < 6 ->
  Z.testbit (clear_loop flag s).1 i = Z.testbit s i && negb (Z.testbit flag i).
Proof.
  intros Hi. unfold clear_loop.
  change members with (NONE :: map (Z.pow 2) [0; 1; 2; 3; 4; 5]).
  cbn [fold_left]. change (clear_step flag (s, false) NONE) with (s, false).
  rewrite clear_fold_bit; [|exact Hi|repeat constructor; lia].
  cbn [fst]. f_equal. f_equal.
  assert (i = 0 \/ i = 1 \/ i = 2 \/ i = 3 \/ i = 4 \/ i = 5) as Hc by lia.
  destruct Hc as [->|[->|[->|[->|[->| ->]]]]]; cbn; apply andb_true_r.
Qed.

Lemma contains_after_clear i flag s :
  0 <= i < 6 ->
  contains (2 ^ i) (clear_loop flag s).1 = contains (2 ^ i) s && negb (Z.testbit flag i).
Proof. intros Hi. rewrite !contains_bit by lia. apply clear_loop_bit, Hi. Qed.

Lemma contains_after_union i flag s :
  0 <= i ->
  contains (2 ^ i) (union s flag) = contains (2 ^ i) s || Z.testbit flag i.
Proof. intros Hi. rewrite !contains_bit by lia. apply Z.lor_spec. Qed.

(** ** Flushing the pending buffer *)

Lemma store_write_text s name text w s' :
  store (write_text s name text w) s'
  = if decide (s = s') then alter (append_text text) name <$> store w s'
    else store w s'.
Proof.
  unfold write_text. destruct w as [? p q ? ? ?]. destruct s, s', p, q; reflexivity.
Qed.

Lemma fault_write_text s name text w : fault (write_text s name text w) = fault w.
Proof. unfold write_text. destruct (store w s), s; reflexivity. Qed.

Lemma utcnow_write_text s name text w : utcnow (write_text s name text w) = utcnow w.
Proof. unfold write_text. destruct (store w s), s; reflexivity. Qed.

Lemma store_write_text_some s name text w s' :
  is_Some (store (write_text s name text w) s') <-> is_Some (store w s').
Proof.
  rewrite store_write_text. destruct (decide (s = s')); [|reflexivity].
  rewrite fmap_is_Some. reflexivity.
Qed.

Lemma store_write_lines_some s name texts w s' :
  is_Some (store (write_lines s name texts w) s') <-> is_Some (store w s').
Proof.
  unfold write_lines. revert w. induction texts as [|t texts IH]; intros w; simpl.
  - reflexivity.
  - rewrite IH. apply store_write_text_some.
Qed.

Lemma fault_write_lines s name texts w : fault (write_lines s name texts w) = fault w.
Proof.
  unfold write_lines. revert w. induction texts as [|t texts IH]; intros w; simpl.
  - reflexivity.
  - rewrite IH. apply fault_write_text.
Qed.

Lemma utcnow_write_lines s name texts w : utcnow (write_lines s name texts w) = utcnow w.
Proof.
  unfold write_lines. revert w. induction texts as [|t texts IH]; intros w; simpl.
  - reflexivity.
  - rewrite IH. apply utcnow_write_text.
Qed.

Lemma store_write_lines_other s name texts w s' :
  s <> s' -> store (write_lines s name texts w) s' = store w s'.
Proof.
  intros Hne. unfold write_lines. revert w.
  induction texts as [|t texts IH]; intros w; simpl; [reflexivity|].
  rewrite IH, store_write_text. destruct (decide (s = s')); [contradiction|reflexivity].
Qed.

(** The loop [for bdata in ...: f.write(f"{bdata}\n")] on a destination
    that works: every line is written, in the order of the list. *)
Lemma flush_run k (pending : list string) m f :
  slot_get k (self m) = Some f ->
  fclosed f = false ->
  is_Some (store (world m) (slot_store k)) ->
  fault (world m) (OpWrite (slot_store k) (fbase f)) = false ->
  for_each pending (fun bdata => file_write k (bdata +:+ newline)) m
  = (Val tt,
     with_world (write_lines (slot_store k) (fbase f) (map line pending) (world m)) m,
     EvWrite (slot_store k) f <$> map line pending).
Proof.
  revert m. induction pending as [|b pending IH]; intros m Hs Hc Hd Hf.
  - destruct m; reflexivity.
  - cbn [for_each]. rewrite bind_unfold.
    rewrite (file_write_run k _ m f Hs Hc Hd Hf).
    set (m1 := with_world _ m).
    assert (Hd1 : is_Some (store (world m1) (slot_store k)))
      by (apply store_write_text_some, Hd).
    assert (Hf1 : fault (world m1) (OpWrite (slot_store k) (fbase f)) = false)
      by (unfold m1; cbn [with_world world]; rewrite fault_write_text; exact Hf).
    rewrite (IH m1 Hs Hc Hd1 Hf1). reflexivity.
Qed.

Lemma written_nil s : written s [] = [].
Proof. reflexivity. Qed.

Lemma written_cons s ev evs :
  written s (ev :: evs)
  = match ev with
    | EvWrite s' f text => if decide (s' = s) then [text] else []
    | _ => []
    end ++ written s evs.
Proof. reflexivity. Qed.

Lemma written_app s evs1 evs2 : written s (evs1 ++ evs2) = written s evs1 ++ written s evs2.
Proof. unfold written. apply flat_map_app. Qed.

Lemma written_notify s (ls : list Listener) : written s (EvNotify <$> ls) = [].
Proof.
  induction ls as [|l ls IH]; [reflexivity|].
  cbn [fmap list_fmap]. rewrite written_cons. exact IH.
Qed.

Lemma written_writes s f (texts : list string) :
  written s (EvWrite s f <$> texts) = texts.
Proof.
  induction texts as [|t texts IH]; [reflexivity|].
  cbn [fmap list_fmap]. rewrite written_cons.
  destruct (decide (s = s)); [|contradiction]. cbn [app]. f_equal. exact IH.
Qed.

Lemma written_writes_other s s' f (texts : list string) :
  s' <> s -> written s (EvWrite s' f <$> texts) = [].
Proof.
  intros Hne. induction texts as [|t texts IH]; [reflexivity|].
  cbn [fmap list_fmap]. rewrite written_cons.
  destruct (decide (s' = s)); [contradiction|]. exact IH.
Qed.

Lemma written_if_not s (b : bool) evs :
  written s (if b then [] else evs) = if b then [] else written s evs.
Proof. destruct b; reflexivity. Qed.

Lemma written_if s (b : bool) evs :
  written s (if b then evs else []) = if b then written s evs else [].
Proof. destruct b; reflexivity. Qed.

Lemma write_lines_app s name texts1 texts2 w :
  write_lines s name (texts1 ++ texts2) w
  = write_lines s name texts2 (write_lines s name texts1 w).
Proof. unfold write_lines. apply fold_left_app. Qed.

Lemma exists_folder_run s m :
  _exists (Folder s) m = (Val (truthy (store (world m) s)), m, []).
Proof.
  unfold _exists. run. destruct (store (world m) s); reflexivity.
Qed.

Lemma string_app_assoc (a b c : string) : (a +:+ b) +:+ c = a +:+ b +:+ c.
Proof.
  induction a as [|x a IH]; [reflexivity|].
  change (String x ((a +:+ b) +:+ c) = String x (a +:+ b +:+ c)).
  f_equal. exact IH.
Qed.

(** The text [f"{ts}{self.sep}{data}\n"] is the line of the record
    [f"{ts}{self.sep}{data}"]. *)
Lemma record_line ts data : ts +:+ sep +:+ data +:+ newline = line (ts +:+ sep +:+ data).
Proof. unfold line. rewrite !string_app_assoc. reflexivity. Qed.

(** The first [try] block of [write] on a primary destination that works,
    BUFFERING clear: the pending records are written in order, then the
    new one; the pending records pass to [sbuffer] and the buffer is
    emptied. *)
Lemma write_primary_run ts data m f :
  fprimary (self m) = Some f ->
  fclosed f = false ->
  is_Some (primary (world m)) ->
  fault (world m) (OpWrite Primary (fbase f)) = false ->
  contains BUFFERING (_state (self m)) = false ->
  write_primary ts data m
  = (Val tt,
     mkMachine (set_databuffer [] (self m))
       (write_lines Primary (fbase f)
          (map line (databuffer (self m) ++ [ts +:+ sep +:+ data])) (world m))
       (databuffer (self m)),
     EvWrite Primary f <$> map line (databuffer (self m) ++ [ts +:+ sep +:+ data])).
Proof.
  intros Hf Hc Hd Hw Hb. unfold write_primary. run. rewrite Hf. run. rewrite Hb. run.
  rewrite (flush_run Fprimary (databuffer (self m)) m f Hf Hc Hd Hw). run.
  erewrite file_write_run; cbn [self world slot_get slot_store]; eauto.
  - rewrite record_line, !map_app, write_lines_app. reflexivity.
  - apply store_write_lines_some, Hd.
  - rewrite fault_write_lines. exact Hw.
Qed.

Ltac written_norm :=
  repeat first
    [ rewrite written_app
    | rewrite written_notify
    | rewrite written_writes
    | rewrite written_writes_other by discriminate
    | rewrite written_if
    | rewrite written_if_not
    | rewrite written_nil
    | rewrite written_cons; cbn [decide decide_rel Store_eq_dec app] ].

(** [_offload_sync] writes to no destination and leaves the buffer alone. *)
Lemma offload_sync_spec m :
  exists m' evs,
    _offload_sync m = (Val tt, m', evs)
    /\ databuffer (self m') = databuffer (self m)
    /\ forall s, written s evs = [].
Proof.
  unfold _offload_sync. run.
  destruct (contains SYNCING_FILES (_state (self m)) || truthy (sync_thread (self m)));
    run; [eauto|].
  rewrite setflag_run.
  destruct (contains SYNCING_FILES (_state (self m))); run;
    destruct (fault (world m) (OpStart SyncWorker)); run;
    (eexists _, _; split; [reflexivity|]; split; [reflexivity|]);
    intros s; written_norm; reflexivity.
Qed.

(** The second [try] block of [write], folder in place: when the
    secondary file object, if there is one, is open and its writes do not
    fail, the secondary destination is either not written at all or is
    written the records passed in [sbuffer], in order, then the new one. *)
Lemma secondary_present_spec ts data m :
  is_Some (secondary (world m)) ->
  (forall g, fsecondary (self m) = Some g ->
     fclosed g = false /\ fault (world m) (OpWrite Secondary (fbase g)) = false) ->
  exists o m' evs,
    secondary_present ts data m = (o, m', evs)
    /\ (o = Val tt \/ o = Ret)
    /\ databuffer (self m') = databuffer (self m)
    /\ written Primary evs = []
    /\ (written Secondary evs = []
        \/ written Secondary evs = map line (sbuffer m ++ [ts +:+ sep +:+ data])).
Proof.
  intros Hdir Hsec. unfold secondary_present. run.
  destruct (contains SYNCING_FILES (_state (self m))).
  { eexists _, _, _. split; [reflexivity|]. auto 10. }
  destruct (fsecondary (self m)) as [g|] eqn:Hg; run.
  - destruct (Hsec g eq_refl) as [Hc Hf].
    rewrite (flush_run Fsecondary (sbuffer m) m g Hg Hc Hdir Hf). run.
    erewrite file_write_run; cbn [self world slot_get slot_store with_world]; eauto.
    + run. rewrite setflag_run. cbn [self world with_world].
      destruct (contains DUAL_WRITE (_state (self m))); run;
        (eexists _, _, _; split; [reflexivity|]);
        (split; [auto|]); (split; [reflexivity|]);
        rewrite record_line; written_norm; rewrite ?map_app, ?app_nil_r; auto.
    + apply store_write_lines_some, Hdir.
    + rewrite fault_write_lines. exact Hf.
  - destruct (offload_sync_spec m) as (m' & evs & -> & Hd & Hw).
    eexists _, _, _. split; [reflexivity|]. rewrite app_nil_r, !Hw. auto 10.
Qed.

Lemma secondary_write_lines name texts w :
  secondary (write_lines Primary name texts w) = secondary w.
Proof. apply (store_write_lines_other Primary name texts w Secondary). discriminate. Qed.

Lemma secondary_absent_spec m :
  exists m' evs,
    secondary_absent m = (Val tt, m', evs)
    /\ databuffer (self m') = databuffer (self m)
    /\ forall s, written s evs = [].
Proof.
  unfold secondary_absent. run. rewrite clearflag_run. run.
  destruct (fsecondary (self m)); run;
    (eexists _, _; split; [reflexivity|]; split; [reflexivity|]);
    intros s; written_norm; destruct (clear_loop _ _).2; reflexivity.
Qed.

(** The statements of [write] after the rotation block, on destinations
    that work and with BUFFERING clear. *)
Lemma write_record_spec data m :
  ready m ->
  contains BUFFERING (_state (self m)) = false ->
  exists o m' evs,
    write_record data m = (o, m', evs)
    /\ (o = Val tt \/ o = Ret)
    /\ databuffer (self m') = []
    /\ written Primary evs
       = map line (databuffer (self m) ++ [record_at (utcnow (world m)) data])
    /\ (written Secondary evs = []
        \/ written Secondary evs
           = map line (databuffer (self m) ++ [record_at (utcnow (world m)) data])).
Proof.
  intros ((f & Hf & Hc & Hw) & Hd & Hsec) Hb. unfold write_record, record_at. run.
  rewrite (write_primary_run _ data (mkMachine (self m) (world m) []) f Hf Hc Hd Hw Hb).
  cbn [self world]. unfold write_secondary.
  set (m1 := mkMachine (set_databuffer [] (self m)) _ (databuffer (self m))).
  set (lines := map line _).
  rewrite bind_unfold, exists_folder_run.
  assert (Hsec1 : forall g, fsecondary (self m1) = Some g ->
            is_Some (secondary (world m1)) ->
            fclosed g = false /\ fault (world m1) (OpWrite Secondary (fbase g)) = false).
  { intros g Hg Hs. unfold m1 in *. cbn [self world] in *.
    rewrite fault_write_lines.
    rewrite secondary_write_lines in Hs.
    apply Hsec; assumption. }
  cbn [store]. destruct (secondary (world m1)) as [dir|] eqn:Hdir; cbn [truthy].
  - assert (Hdir1 : is_Some (secondary (world m1))) by (rewrite Hdir; eauto).
    assert (Hsec2 : forall g, fsecondary (self m1) = Some g ->
              fclosed g = false /\ fault (world m1) (OpWrite Secondary (fbase g)) = false)
      by (intros g Hg; apply Hsec1; [exact Hg|eauto]).
    rewrite bind_unfold, setflag_run.
    destruct (contains USB (_state (self m1))) eqn:Hu.
    + destruct (secondary_present_spec (epoch (utcnow (world m))) data m1 Hdir1 Hsec2)
        as (o & m' & evs & E & Ho & Hdb & Hp & Hs).
      rewrite E. exists o, m'.
      destruct Ho as [-> | ->];
        (eexists; split; [reflexivity|]; split; [auto|]; split; [exact Hdb|]);
        written_norm; rewrite Hp, app_nil_r; (split; [reflexivity|]);
        destruct Hs as [-> | ->]; auto.
    + destruct (secondary_present_spec (epoch (utcnow (world m))) data
                  (with_state (union (_state (self m1)) USB) m1) Hdir1 Hsec2)
        as (o & m' & evs & E & Ho & Hdb & Hp & Hs).
      rewrite E. exists o, m'.
      destruct Ho as [-> | ->];
        (eexists; split; [reflexivity|]; split; [auto|]; split; [exact Hdb|]);
        written_norm; rewrite Hp, app_nil_r; (split; [reflexivity|]);
        destruct Hs as [-> | ->]; auto.
  - destruct (secondary_absent_spec m1) as (m' & evs & E & Hdb & Hwr).
    rewrite E. eexists _, _, _. split; [reflexivity|]. split; [auto|].
    split; [exact Hdb|]. written_norm. rewrite !Hwr, app_nil_r. auto.
Qed.

(** ** Closing, opening and starting the Delete Worker *)

Lemma setflag_spec flag m :
  _setflag flag m
  = (Val tt, with_state (flag_set flag (_state (self m))) m,
     if contains flag (_state (self m)) then []
     else EvNotify <$> _newstate_listeners (self m)).
Proof.
  rewrite setflag_run. unfold flag_set.
  destruct (contains flag (_state (self m))); [|reflexivity].
  rewrite with_state_same. reflexivity.
Qed.

Lemma io_calls_nil : io_calls [] = [].
Proof. reflexivity. Qed.

Lemma io_calls_cons ev evs :
  io_calls (ev :: evs) = (if is_io ev then [ev] else []) ++ io_calls evs.
Proof. unfold io_calls. cbn [List.filter]. destruct (is_io ev); reflexivity. Qed.

Lemma io_calls_app evs1 evs2 : io_calls (evs1 ++ evs2) = io_calls evs1 ++ io_calls evs2.
Proof. unfold io_calls. apply List.filter_app. Qed.

Lemma io_calls_notify (ls : list Listener) : io_calls (EvNotify <$> ls) = [].
Proof. induction ls as [|l ls IH]; [reflexivity|exact IH]. Qed.

Lemma io_calls_if (b : bool) evs :
  io_calls (if b then evs else []) = if b then io_calls evs else [].
Proof. destruct b; reflexivity. Qed.

Lemma io_calls_if_not (b : bool) evs :
  io_calls (if b then [] else evs) = if b then [] else io_calls evs.
Proof. destruct b; reflexivity. Qed.

Global Arguments io_calls : simpl never.

Ltac io_norm :=
  repeat first
    [ rewrite io_calls_app
    | rewrite io_calls_notify
    | rewrite io_calls_if
    | rewrite io_calls_if_not
    | rewrite io_calls_nil
    | rewrite io_calls_cons; cbn [is_io app] ].

Lemma with_self_same m : with_self (self m) m = m.
Proof. destruct m; reflexivity. Qed.

Lemma slot_set_same k d : slot_set k (slot_get k d) d = d.
Proof. destruct k, d; reflexivity. Qed.

(** One of the two [try] statements of [close]. *)
Lemma close_slot_run k (before after : string) msg m :
  try_except (
    p ← gets (slot_get k);
    when (truthy p) (
      logging_debug before;;
      file_close k;;
      logging_debug after))
  (fun e => logging_exception msg) m
  = (Val tt,
     with_self (slot_set k (mark_closed <$> slot_get k (self m)) (self m)) m,
     match slot_get k (self m) with
     | None => []
     | Some f =>
         [EvLog DEBUG before; EvClose (slot_store k) f;
          if negb (fclosed f) && fault (world m) (OpClose (slot_store k) (fbase f))
          then EvLog ERROR msg else EvLog DEBUG after]
     end).
Proof.
  run. destruct (slot_get k (self m)) as [f|] eqn:Hf; run.
  - rewrite file_close_run, Hf.
    destruct (negb (fclosed f) && fault (world m) (OpClose (slot_store k) (fbase f)));
      reflexivity.
  - rewrite <- Hf, slot_set_same, with_self_same. reflexivity.
Qed.

(** [close]: both file objects are closed, the primary first, and
    DUAL_WRITE is cleared, whatever the individual closes do. *)
Lemma close_spec m :
  exists evs,
    close m = (Val tt, closed m, evs)
    /\ io_calls evs
       = option_list (EvClose Primary <$> fprimary (self m))
         ++ option_list (EvClose Secondary <$> fsecondary (self m))
    /\ forall s, written s evs = [].
Proof.
  unfold close, close_primary, close_secondary, def, try_finally.
  rewrite bind_unfold, (close_slot_run Fprimary).
  rewrite (close_slot_run Fsecondary), clearflag_run.
  eexists. split; [reflexivity|].
  cbn [slot_get slot_store slot_set set_fprimary set_fsecondary fsecondary fprimary
       _state self world with_self].
  split.
  - io_norm. destruct (fprimary (self m)) as [f|], (fsecondary (self m)) as [g|];
      repeat match goal with |- context [if ?b then EvLog _ _ else _] => destruct b end;
      io_norm; destruct (clear_loop _ _).2; reflexivity.
  - intros s. written_norm.
    destruct (fprimary (self m)) as [f|], (fsecondary (self m)) as [g|];
      repeat match goal with |- context [if ?b then EvLog _ _ else _] => destruct b end;
      written_norm; destruct (clear_loop _ _).2; reflexivity.
Qed.

(** [open(secondary=False)]: the exception of a failed [open] leaves the
    method. *)
Lemma open_primary_spec m :
  open false m
  = if can_open (world m) Primary (name_now m)
    then (Val tt, opened_primary m, [EvOpen Primary (name_now m)])
    else (Exc OSError, m, [EvOpen Primary (name_now m)]).
Proof.
  unfold open, can_open, opened_primary. run. rewrite filename_run. run.
  rewrite builtin_open_run. fold (name_now m). cbn [store].
  destruct (primary (world m)) as [d|]; [|reflexivity].
  destruct (fault (world m) (OpOpen Primary (name_now m))); [reflexivity|].
  destruct (d !! name_now m) as [[c|z]|]; reflexivity.
Qed.

(** [open(secondary=True)]: nothing leaves the method; the secondary file
    is opened, under the base name of the primary file, when the folder is
    there. *)
Lemma open_secondary_spec m :
  exists evs,
    open true m = (Val tt, opened_secondary m, evs)
    /\ io_calls evs
       = match secondary (world m), fprimary (self m) with
         | Some _, Some f => [EvOpen Secondary (fbase f)]
         | _, _ => []
         end
    /\ forall s, written s evs = [].
Proof.
  unfold open, opened_secondary, can_open. run. rewrite exists_folder_run. cbn [store].
  destruct (secondary (world m)) as [d|] eqn:Hd; run.
  - rewrite setflag_spec. run.
    destruct (fprimary (self m)) as [f|]; run.
    + rewrite builtin_open_run. cbn [store with_state world]. rewrite Hd.
      destruct (fault (world m) (OpOpen Secondary (fbase f))); run.
      * eexists. split; [reflexivity|].
        split; [|intros s]; destruct (contains USB _); io_norm; written_norm; reflexivity.
      * destruct (d !! fbase f) as [[c|z]|]; run;
          (eexists; split; [reflexivity|]);
          (split; [|intros s]); destruct (contains USB _);
          io_norm; written_norm; reflexivity.
    + eexists. split; [reflexivity|].
      split; [|intros s]; destruct (contains USB _); io_norm; written_norm; reflexivity.
  - rewrite clearflag_run. run.
    eexists. split; [reflexivity|].
    split; [|intros s]; destruct (clear_loop _ _).2; io_norm; written_norm; reflexivity.
Qed.

(** [_offload_delete]: nothing leaves the method; a thread is started
    unless a Sync Worker is underway. *)
Lemma offload_delete_spec m :
  exists evs,
    _offload_delete m = (Val tt, delete_offloaded m, evs)
    /\ io_calls evs
       = (if delete_blocked m then [] else [EvStart (next_thread DeleteWorker m)])
    /\ forall s, written s evs = [].
Proof.
  unfold _offload_delete, delete_offloaded, delete_blocked, next_thread. run.
  destruct (contains SYNCING_FILES (_state (self m)) || truthy (sync_thread (self m)));
    run.
  - eexists. split; [destruct m; reflexivity|]. split; [reflexivity|]. intros s; reflexivity.
  - rewrite setflag_spec. run.
    destruct (fault (world m) (OpStart DeleteWorker)); run;
      (eexists; split; [reflexivity|]);
      (split; [|intros s]); destruct (contains DELETING_FILES _);
      io_norm; written_norm; reflexivity.
Qed.

(** ** Rotation *)

Lemma utcnow_create_file s name w : utcnow (create_file s name w) = utcnow w.
Proof. unfold create_file. destruct (store w s) as [d|], s; try destruct (d !! name); reflexivity. Qed.

Lemma fault_create_file s name w : fault (create_file s name w) = fault w.
Proof. unfold create_file. destruct (store w s) as [d|], s; try destruct (d !! name); reflexivity. Qed.

Lemma threads_create_file s name w :
  threads_made (create_file s name w) = threads_made w
  /\ alive (create_file s name w) = alive w.
Proof.
  unfold create_file. destruct (store w s) as [d|], s; try destruct (d !! name); auto.
Qed.

Lemma store_create_file_other s s' name w :
  s <> s' -> store (create_file s name w) s' = store w s'.
Proof.
  intros Hne. unfold create_file. destruct w as [? p q ? ? ?].
  destruct s, s', p as [dp|], q as [dq|]; try contradiction; simpl;
    try destruct (dp !! name); try destruct (dq !! name); reflexivity.
Qed.

Lemma store_create_file_some s name w s' :
  is_Some (store (create_file s name w) s') <-> is_Some (store w s').
Proof.
  unfold create_file. destruct w as [? p q ? ? ?].
  destruct s, s', p as [dp|], q as [dq|]; simpl;
    try destruct (dp !! name); try destruct (dq !! name); simpl; split; eauto.
Qed.

Lemma threads_opened_secondary m :
  threads_made (world (opened_secondary m)) = threads_made (world m).
Proof.
  unfold opened_secondary. destruct (secondary (world m)); [|reflexivity].
  destruct (fprimary (self m)) as [f|]; [|reflexivity].
  destruct (can_open _ _ _); [|reflexivity].
  cbn [world with_self with_world with_state]. apply threads_create_file.
Qed.

(** The rotation block, when the primary file of the new day can be
    opened: the calls it makes on files and threads, in order. *)
Lemma rotate_spec m :
  can_open (world m) Primary (name_now m) = true ->
  exists evs,
    rotate m = (Val tt, rotated m, evs)
    /\ io_calls evs
       = option_list (EvClose Primary <$> fprimary (self m))
         ++ option_list (EvClose Secondary <$> fsecondary (self m))
         ++ [EvOpen Primary (name_now m)]
         ++ (if truthy (fsecondary (self m)) && truthy (secondary (world m))
             then [EvOpen Secondary (name_now m)] else [])
         ++ (if delete_blocked (reopened m) then []
             else [EvStart (next_thread DeleteWorker m)])
    /\ forall s, written s evs = [].
Proof.
  intros Hopen. unfold rotate, rotated, reopened. run.
  destruct (close_spec m) as (evs1 & -> & Hio1 & Hw1). run.
  rewrite open_primary_spec.
  change (can_open (world (closed m)) Primary (name_now (closed m)))
    with (can_open (world m) Primary (name_now m)).
  rewrite Hopen. run. rewrite doy_run. run.
  change (name_now (closed m)) with (name_now m).
  cbn [opened_primary with_self with_world world closed with_state].
  rewrite utcnow_create_file.
  set (m2 := mkMachine _ _ _).
  assert (Hth : threads_made (world m2) = threads_made (world m))
    by apply threads_create_file.
  assert (Hs2 : secondary (world m2) = secondary (world m))
    by (apply (store_create_file_other Primary Secondary); discriminate).
  destruct (fsecondary (self m)) as [g|] eqn:Hg; run.
  - destruct (open_secondary_spec m2) as (evs2 & -> & Hio2 & Hw2). run.
    destruct (offload_delete_spec (opened_secondary m2)) as (evs3 & -> & Hio3 & Hw3).
    eexists. split; [reflexivity|]. split.
    + io_norm. rewrite Hio1, Hio2, Hio3, Hs2.
      cbn [fmap option_fmap option_map option_list].
      rewrite <- !app_assoc. cbn [app]. do 3 f_equal.
      unfold next_thread. rewrite threads_opened_secondary, Hth.
      destruct (secondary (world m)); reflexivity.
    + intros s. written_norm. rewrite Hw1, Hw2, Hw3. reflexivity.
  - destruct (offload_delete_spec m2) as (evs3 & -> & Hio3 & Hw3).
    eexists. split; [reflexivity|]. split.
    + io_norm. rewrite Hio1, Hio3.
      cbn [fmap option_fmap option_map option_list].
      rewrite <- !app_assoc. cbn [app andb]. do 2 f_equal.
      unfold next_thread. rewrite Hth. reflexivity.
    + intros s. written_norm. rewrite Hw1, Hw3. reflexivity.
Qed.

(** ** The frame rules *)

Section Frame.

Context (R : Machine -> Machine -> Prop) `{!Reflexive R} `{!Transitive R}.

Lemma frames_ret {A} (a : A) : frames R (mret a).
Proof. intros m. reflexivity. Qed.

Lemma frames_raise {A} e : frames R (@raise A e).
Proof. intros m. reflexivity. Qed.

Lemma frames_return {A} : frames R (@return_ A).
Proof. intros m. reflexivity. Qed.

Lemma frames_gets {A} (f : DualFileData -> A) : frames R (gets f).
Proof. intros m. reflexivity. Qed.

Lemma frames_get_world : frames R get_world.
Proof. intros m. reflexivity. Qed.

Lemma frames_get_sbuffer : frames R get_sbuffer.
Proof. intros m. reflexivity. Qed.

Lemma frames_emit ev : frames R (emit ev).
Proof. intros m. reflexivity. Qed.

Lemma frames_bind {A B} (c : M A) (k : A -> M B) :
  frames R c -> (forall a, frames R (k a)) -> frames R (c ≫= k).
Proof.
  intros Hc Hk m. rewrite bind_unfold. specialize (Hc m).
  destruct (c m) as [[o m1] e1]. destruct o as [a| |x]; cbn in *; try exact Hc.
  specialize (Hk a m1). destruct (k a m1) as [[o2 m2] e2]. cbn in *.
  etransitivity; eassumption.
Qed.

Lemma frames_def (c : M unit) : frames R c -> frames R (def c).
Proof.
  intros Hc m. unfold def. specialize (Hc m).
  destruct (c m) as [[o m1] e1]. exact Hc.
Qed.

Lemma frames_try_except (c : M unit) (h : Exn -> M unit) :
  frames R c -> (forall e, frames R (h e)) -> frames R (try_except c h).
Proof.
  intros Hc Hh m. unfold try_except. specialize (Hc m).
  destruct (c m) as [[o m1] e1]. destruct o as [a| |x]; cbn in *; try exact Hc.
  specialize (Hh x m1). destruct (h x m1) as [[o2 m2] e2]. cbn in *.
  etransitivity; eassumption.
Qed.

Lemma frames_try_finally (c fin : M unit) :
  frames R c -> frames R fin -> frames R (try_finally c fin).
Proof.
  intros Hc Hf m. unfold try_finally. specialize (Hc m).
  destruct (c m) as [[o m1] e1]. specialize (Hf m1).
  destruct (fin m1) as [[o2 m2] e2]. cbn in *. etransitivity; eassumption.
Qed.

Lemma frames_when (b : bool) (c : M unit) : frames R c -> frames R (when b c).
Proof. intros Hc. destruct b; [exact Hc|apply frames_ret]. Qed.

Lemma frames_for_each {A} (xs : list A) (body : A -> M unit) :
  (forall x, frames R (body x)) -> frames R (for_each xs body).
Proof.
  intros Hb. induction xs as [|x xs IH]; cbn [for_each].
  - apply frames_ret.
  - apply frames_bind; [apply Hb|intros _; exact IH].
Qed.

Lemma frames_for_fold {A B} (xs : list A) (acc : B) (body : B -> A -> M B) :
  (forall b x, frames R (body b x)) -> frames R (for_fold xs acc body).
Proof.
  intros Hb. revert acc. induction xs as [|x xs IH]; intros acc; cbn [for_fold].
  - apply frames_ret.
  - apply frames_bind; [apply Hb|intros acc'; apply IH].
Qed.

Lemma frames_modify (f : DualFileData -> DualFileData) :
  (forall m, R m (with_self (f (self m)) m)) -> frames R (modify f).
Proof. intros H m. apply H. Qed.

Lemma frames_modify_world (f : World -> World) :
  (forall m, R m (with_world (f (world m)) m)) -> frames R (modify_world f).
Proof. intros H m. apply H. Qed.

Lemma frames_put_sbuffer v :
  (forall m, R m (mkMachine (self m) (world m) v)) -> frames R (put_sbuffer v).
Proof. intros H m. apply H. Qed.

End Frame.

(** One step of a frame proof: the rule for the statement at hand. *)
Ltac frame_step :=
  lazymatch goal with
  | |- frames _ (mbind _ _) => apply frames_bind; try exact _; [|intros ?]
  | |- frames _ (mret _) => apply frames_ret; exact _
  | |- frames _ pass => apply frames_ret; exact _
  | |- frames _ (raise _) => apply frames_raise; exact _
  | |- frames _ return_ => apply frames_return; exact _
  | |- frames _ (gets _) => apply frames_gets; exact _
  | |- frames _ get_world => apply frames_get_world; exact _
  | |- frames _ get_sbuffer => apply frames_get_sbuffer; exact _
  | |- frames _ (emit _) => apply frames_emit; exact _
  | |- frames _ (logging_debug _) => apply frames_emit; exact _
  | |- frames _ (logging_info _) => apply frames_emit; exact _
  | |- frames _ (logging_warning _) => apply frames_emit; exact _
  | |- frames _ (logging_exception _) => apply frames_emit; exact _
  | |- frames _ (logging_WARNING _) => apply frames_raise; exact _
  | |- frames _ (def _) => apply frames_def
  | |- frames _ (try_except _ _) => apply frames_try_except; try exact _; [|intros ?]
  | |- frames _ (try_finally _ _) => apply frames_try_finally; try exact _
  | |- frames _ (when _ _) => apply frames_when; try exact _
  | |- frames _ (for_each _ _) => apply frames_for_each; try exact _; intros ?
  | |- frames _ (for_fold _ _ _) => apply frames_for_fold; try exact _; intros ? ?
  | |- frames _ (modify _) => apply frames_modify; intros ?
  | |- frames _ (modify_world _) => apply frames_modify_world; intros ?
  | |- frames _ (put_sbuffer _) => apply frames_put_sbuffer; intros ?
  | |- frames _ (if ?b then _ else _) => destruct b
  | |- frames _ (match ?x with _ => _ end) => destruct x
  end.

Create HintDb frames.

Ltac frame_side :=
  lazymatch goal with
  | |- same_primary _ _ => split; reflexivity
  end.

Ltac frame_solve :=
  repeat first [ frame_side | solve [auto with frames] | frame_step ].

(** ** What the second half of [write] leaves alone *)

Global Instance same_primary_refl : Reflexive same_primary.
Proof. intros m. split; reflexivity. Qed.

Global Instance same_primary_trans : Transitive same_primary.
Proof. intros m1 m2 m3 [? ?] [? ?]. split; congruence. Qed.

Lemma notify_same_primary : frames same_primary _notify_newstate.
Proof. unfold _notify_newstate. frame_solve. Qed.
#[global] Hint Resolve notify_same_primary : frames.

Lemma setflag_same_primary flag : frames same_primary (_setflag flag).
Proof. unfold _setflag. frame_solve. Qed.
#[global] Hint Resolve setflag_same_primary : frames.

Lemma clearflag_same_primary flag : frames same_primary (_clearflag flag).
Proof. unfold _clearflag. frame_solve. Qed.
#[global] Hint Resolve clearflag_same_primary : frames.

Lemma exists_same_primary p : frames same_primary (_exists p).
Proof. unfold _exists. frame_solve. Qed.
#[global] Hint Resolve exists_same_primary : frames.

Lemma file_write_same_primary k text : frames same_primary (file_write k text).
Proof. unfold file_write. frame_solve. Qed.
#[global] Hint Resolve file_write_same_primary : frames.

Lemma thread_new_same_primary k : frames same_primary (Thread_new k).
Proof. unfold Thread_new. frame_solve. Qed.
#[global] Hint Resolve thread_new_same_primary : frames.

Lemma thread_start_same_primary t : frames same_primary (Thread_start t).
Proof. unfold Thread_start. frame_solve. Qed.
#[global] Hint Resolve thread_start_same_primary : frames.

Lemma offload_sync_same_primary : frames same_primary _offload_sync.
Proof. unfold _offload_sync. frame_solve. Qed.
#[global] Hint Resolve offload_sync_same_primary : frames.

Lemma write_record_same_primary data : frames same_primary (write_record data).
Proof.
  unfold write_record, write_primary, write_secondary, secondary_present,
    secondary_absent, datetime_utcnow.
  frame_solve.
Qed.

(** ** The machine after the rotation block *)

Lemma rotated_fields m :
  fdoy (self (rotated m)) = Z.of_nat (yday (utcnow (world m)))
  /\ fprimary (self (rotated m)) = Some (mkFile (name_now m) false)
  /\ databuffer (self (rotated m)) = databuffer (self m).
Proof.
  unfold rotated, delete_offloaded, reopened, opened_secondary.
  repeat match goal with
         | |- context [if ?b then _ else _] => destruct b
         | |- context [match ?x with _ => _ end] => destruct x
         end; repeat split; reflexivity.
Qed.

(** A rotation with no Sync Worker underway finds nothing in the way of
    the Delete Worker. *)
Lemma reopened_not_blocked m :
  contains SYNCING_FILES (_state (self m)) = false ->
  sync_thread (self m) = None ->
  delete_blocked (reopened m) = false.
Proof.
  intros Hs Ht. unfold delete_blocked.
  assert (Hthread : sync_thread (self (reopened m)) = None).
  { unfold reopened, opened_secondary.
    repeat match goal with
           | |- context [if ?b then _ else _] => destruct b
           | |- context [match ?x with _ => _ end] => destruct x
           end; exact Ht. }
  rewrite Hthread, orb_false_r.
  change SYNCING_FILES with (2 ^ 3) in *.
  unfold reopened, opened_secondary, flag_set.
  repeat match goal with
         | |- context [if ?b then _ else _] => destruct b
         | |- context [match ?x with _ => _ end] => destruct x
         end;
    cbn [self _state with_state with_self set_state set_fdoy set_fprimary set_fsecondary
         opened_primary closed with_world];
    unfold flag_cleared;
    rewrite ?contains_after_union, ?contains_after_clear, ?Hs by lia;
    rewrite ?contains_after_clear, ?Hs by lia; reflexivity.
Qed.




Ltac case_all :=
  repeat match goal with
         | |- context [if ?b then _ else _] => destruct b eqn:?
         | |- context [match ?x with _ => _ end] => destruct x eqn:?
         end.

Lemma rotated_world m :
  fault (world (rotated m)) = fault (world m)
  /\ utcnow (world (rotated m)) = utcnow (world m)
  /\ (is_Some (primary (world (rotated m))) <-> is_Some (primary (world m)))
  /\ (is_Some (secondary (world (rotated m))) <-> is_Some (secondary (world m))).
Proof.
  unfold rotated, delete_offloaded, reopened, opened_secondary, opened_primary, closed.
  case_all;
    cbn [world self with_world with_self with_state set_alive set_threads_made
         fault utcnow primary secondary];
    rewrite ?fault_create_file, ?utcnow_create_file;
    (split; [reflexivity|]); (split; [reflexivity|]);
    change (primary ?w) with (store w Primary);
    change (secondary ?w) with (store w Secondary);
    rewrite ?store_create_file_some; split; reflexivity.
Qed.

Lemma rotated_buffering m :
  contains BUFFERING (_state (self (rotated m))) = contains BUFFERING (_state (self m)).
Proof.
  change BUFFERING with (2 ^ 5).
  unfold rotated, delete_offloaded, reopened, opened_secondary, opened_primary, closed,
    flag_set, flag_cleared.
  case_all;
    cbn [self _state with_state with_self with_world set_state set_fdoy set_fprimary
         set_fsecondary set_delete_thread];
    rewrite ?contains_after_union, ?contains_after_clear by lia;
    rewrite ?contains_after_union, ?contains_after_clear by lia;
    rewrite ?contains_after_union, ?contains_after_clear by lia;
    cbn; rewrite ?orb_false_r, ?andb_true_r; reflexivity.
Qed.

(** The secondary slot after the rotation block. *)
Lemma rotated_fsecondary m :
  fsecondary (self (rotated m))
  = if truthy (fsecondary (self m)) && truthy (secondary (world m))
       && can_open (world m) Secondary (name_now m)
    then Some (mkFile (name_now m) false)
    else mark_closed <$> fsecondary (self m).
Proof.
  assert (Hopen : can_open (create_file Primary (name_now m) (world m)) Secondary (name_now m)
                  = can_open (world m) Secondary (name_now m)).
  { unfold can_open. rewrite fault_create_file.
    rewrite (store_create_file_other Primary Secondary) by discriminate. reflexivity. }
  assert (Hsec : secondary (create_file Primary (name_now m) (world m)) = secondary (world m))
    by (apply (store_create_file_other Primary Secondary); discriminate).
  unfold rotated, delete_offloaded, reopened, opened_secondary, opened_primary.
  change (name_now (closed m)) with (name_now m). unfold closed.
  cbn [self world with_self with_world with_state fprimary set_fdoy set_fprimary
       set_state set_fsecondary fbase].
  rewrite Hopen, Hsec.
  destruct (fsecondary (self m)) as [g|], (secondary (world m)) as [d|],
    (can_open (world m) Secondary (name_now m)); cbn [truthy andb];
    case_all; reflexivity.
Qed.

Lemma rotated_ready m :
  (forall s name, fault (world m) (OpWrite s name) = false) ->
  can_open (world m) Primary (name_now m) = true ->
  (is_Some (secondary (world m)) -> can_open (world m) Secondary (name_now m) = true) ->
  ready (rotated m).
Proof.
  intros Hw Hp Hs.
  destruct (rotated_fields m) as (_ & Hfp & _).
  destruct (rotated_world m) as (Hfault & _ & Hprim & Hsec).
  split; [|split].
  - eexists. split; [exact Hfp|]. split; [reflexivity|]. rewrite Hfault. apply Hw.
  - apply Hprim. unfold can_open in Hp. cbn [store] in Hp.
    destruct (primary (world m)); [eauto|discriminate].
  - intros g Hg Hdir. rewrite Hfault. split; [|apply Hw].
    apply Hsec in Hdir. specialize (Hs Hdir).
    rewrite rotated_fsecondary, Hs in Hg. destruct Hdir as [d Hd]. rewrite Hd in Hg.
    destruct (fsecondary (self m)) as [g0|]; cbn in Hg; [|discriminate].
    injection Hg as <-. reflexivity.
Qed.

(** ** Flushing in order *)

(** [write] when no rotation is due: the statements after the rotation
    block run on the machine as it is. *)
Lemma write_same_day data m :
  fdoy (self m) = Z.of_nat (yday (utcnow (world m))) ->
  write data m = def (write_record data) m.
Proof.
  intros E. unfold write. run. rewrite doy_run. run. rewrite E, Z.eqb_refl. run.
  destruct (write_record data m) as [[o m'] evs]. reflexivity.
Qed.

(** [write] when a rotation is due and the primary file can be opened:
    the statements after the rotation block run on the rotated machine,
    and the rotation block writes to no file. *)
Lemma write_new_day data m :
  fdoy (self m) <> Z.of_nat (yday (utcnow (world m))) ->
  can_open (world m) Primary (name_now m) = true ->
  exists evs0,
    (forall s, written s evs0 = [])
    /\ write data m
       = let '(o, m', evs) := def (write_record data) (rotated m) in
         (o, m', evs0 ++ evs).
Proof.
  intros E Hp. unfold write. run. rewrite doy_run. run.
  apply Z.eqb_neq in E. rewrite E. run.
  destruct (rotate_spec m Hp) as (evs0 & -> & _ & Hwr). run.
  exists evs0. split; [exact Hwr|].
  destruct (write_record data (rotated m)) as [[o m'] evs]. reflexivity.
Qed.

(** The statements after the rotation block, as the body of a method. *)
Lemma write_record_flushes data m :
  ready m ->
  contains BUFFERING (_state (self m)) = false ->
  exists m' evs,
    def (write_record data) m = (Val tt, m', evs)
    /\ databuffer (self m') = []
    /\ written Primary evs
       = map line (databuffer (self m) ++ [record_at (utcnow (world m)) data])
    /\ (written Secondary evs = []
        \/ written Secondary evs
           = map line (databuffer (self m) ++ [record_at (utcnow (world m)) data])).
Proof.
  intros Hr Hb. unfold def.
  destruct (write_record_spec data m Hr Hb) as (o & m' & evs & -> & Ho & H).
  exists m', evs. split; [destruct Ho as [-> | ->]; reflexivity|exact H].
Qed.



(** The flush of [m_flush], call by call: both destinations are written the
    two pending records and then the new one. *)
Example flush_sample :
  (write "1.1" Sample.m_flush).2
  = [EvWrite Primary Sample.fp ("1712665798.25" +:+ sep +:+ "0.9" +:+ newline);
     EvWrite Primary Sample.fp ("1712665799.25" +:+ sep +:+ "1.0" +:+ newline);
     EvWrite Primary Sample.fp ("1712665800.25" +:+ sep +:+ "1.1" +:+ newline);
     EvWrite Secondary Sample.fs ("1712665798.25" +:+ sep +:+ "0.9" +:+ newline);
     EvWrite Secondary Sample.fs ("1712665799.25" +:+ sep +:+ "1.0" +:+ newline);
     EvWrite Secondary Sample.fs ("1712665800.25" +:+ sep +:+ "1.1" +:+ newline)].
Proof. vm_compute. reflexivity. Qed.

(** ** The time stamp of a buffered record *)

(** C10. A record that [write] buffers, at the time [utcnow (world m)],
    while BUFFERING is set, is kept with the epoch text of that time; a
    later [write], on a machine [m2] whose buffer is still the one the first
    call left and at whatever time it is then, writes the buffered records
    as they are, the first call's record with the first call's time, and
    stamps only its own record with the time of the flush. *)
Theorem buffered_record_keeps_timestamp
    (data1 data2 : string) (m m2 : Machine) (f : FileObj) :
  contains BUFFERING (_state (self m)) = true ->
  fdoy (self m) = Z.of_nat (yday (utcnow (world m))) ->
  fprimary (self m) = Some f ->
  databuffer (self m2) = databuffer (self (write data1 m).1.2) ->
  contains BUFFERING (_state (self m2)) = false ->
  (forall s name, fault (world m2) (OpWrite s name) = false) ->
  (fdoy (self m2) = Z.of_nat (yday (utcnow (world m2))) -> ready m2) ->
  (fdoy (self m2) <> Z.of_nat (yday (utcnow (world m2))) ->
   can_open (world m2) Primary (name_now m2) = true
   /\ (is_Some (secondary (world m2)) ->
       can_open (world m2) Secondary (name_now m2) = true)) ->
  databuffer (self (write data1 m).1.2)
  = databuffer (self m) ++ [epoch (utcnow (world m)) +:+ sep +:+ data1]
  /\ exists m' evs,
       write data2 m2 = (Val tt, m', evs)
       /\ written Primary evs
          = map line (databuffer (self m))
            ++ [epoch (utcnow (world m)) +:+ sep +:+ data1 +:+ newline;
                epoch (utcnow (world m2)) +:+ sep +:+ data2 +:+ newline].
Proof.
  intros Hb Hd Hf Hbuf Hb2 Hw2 Hsame Hnew.
  assert (Hfirst : databuffer (self (write data1 m).1.2)
                   = databuffer (self m) ++ [epoch (utcnow (world m)) +:+ sep +:+ data1]).
  { rewrite (write_same_day data1 m Hd). unfold write_record, write_primary. run.
    rewrite Hf. run. rewrite Hb. reflexivity. }
  split; [exact Hfirst|]. rewrite Hfirst in Hbuf.
  assert (Hlines : forall now,
            map line (databuffer (self m2) ++ [record_at now data2])
            = map line (databuffer (self m))
              ++ [epoch (utcnow (world m)) +:+ sep +:+ data1 +:+ newline;
                  epoch now +:+ sep +:+ data2 +:+ newline]).
  { intros now. rewrite Hbuf. unfold record_at. rewrite !map_app. cbn [map].
    rewrite <- !record_line, <- app_assoc. reflexivity. }
  destruct (Z.eq_dec (fdoy (self m2)) (Z.of_nat (yday (utcnow (world m2))))) as [E|E].
  - rewrite (write_same_day data2 m2 E).
    destruct (write_record_flushes data2 m2 (Hsame E) Hb2) as (m' & evs & -> & _ & Hp & _).
    exists m', evs. rewrite Hp. auto.
  - destruct (Hnew E) as [Hp Hs].
    destruct (write_new_day data2 m2 E Hp) as (evs0 & Hwr & ->).
    pose proof (rotated_buffering m2) as Hbuf2. rewrite Hb2 in Hbuf2.
    destruct (write_record_flushes data2 (rotated m2) (rotated_ready m2 Hw2 Hp Hs) Hbuf2)
      as (m' & evs & -> & _ & Hpw & _).
    destruct (rotated_fields m2) as (_ & _ & Hdata).
    destruct (rotated_world m2) as (_ & Hnow & _).
    rewrite Hdata, Hnow in Hpw.
    exists m', (evs0 ++ evs). rewrite written_app, Hwr, Hpw. cbn [app]. auto.
Qed.

Lemma buffered_record_keeps_timestamp_witness :
  contains BUFFERING (_state (self Sample.m_buffering)) = true
  /\ contains BUFFERING (_state (self (Sample.m_after_sync "2.0"))) = false
  /\ ready (Sample.m_after_sync "2.0")
  /\ exists m' evs,
       write "3.0" (Sample.m_after_sync "2.0") = (Val tt, m', evs)
       /\ written Primary evs
          = map line (databuffer (self Sample.m_buffering))
            ++ [epoch Sample.noon +:+ sep +:+ "2.0" +:+ newline;
                epoch Sample.later +:+ sep +:+ "3.0" +:+ newline].
Proof.
  assert (Hb : contains BUFFERING (_state (self Sample.m_buffering)) = true)
    by reflexivity.
  assert (Hd : fdoy (self Sample.m_buffering)
               = Z.of_nat (yday (utcnow (world Sample.m_buffering)))) by reflexivity.
  assert (Hf : fprimary (self Sample.m_buffering) = Some Sample.fp) by reflexivity.
  assert (Hbuf : databuffer (self (Sample.m_after_sync "2.0"))
                 = databuffer (self (write "2.0" Sample.m_buffering).1.2))
    by reflexivity.
  assert (Hb2 : contains BUFFERING (_state (self (Sample.m_after_sync "2.0"))) = false)
    by (vm_compute; reflexivity).
  assert (Hw2 : forall s name,
            fault (world (Sample.m_after_sync "2.0")) (OpWrite s name) = false)
    by (intros s name; reflexivity).
  assert (Hr : ready (Sample.m_after_sync "2.0")).
  { split; [|split].
    - exists Sample.fp. repeat split; reflexivity.
    - eexists. reflexivity.
    - intros g Hg _. injection Hg as <-. split; reflexivity. }
  split; [exact Hb|]. split; [exact Hb2|]. split; [exact Hr|].
  refine (proj2 (buffered_record_keeps_timestamp "2.0" "3.0" Sample.m_buffering
                   (Sample.m_after_sync "2.0") Sample.fp Hb Hd Hf Hbuf Hb2 Hw2
                   (fun _ => Hr) _)).
  intros Hne. exfalso. apply Hne. reflexivity.
Defined.

(** ** The Sync Worker *)

Lemma copies_nil : copies [] = [].
Proof. reflexivity. Qed.

Lemma copies_cons ev evs :
  copies (ev :: evs)
  = match ev with EvCopy name st => [(name, st)] | _ => [] end ++ copies evs.
Proof. reflexivity. Qed.

Lemma copies_app evs1 evs2 : copies (evs1 ++ evs2) = copies evs1 ++ copies evs2.
Proof. unfold copies. apply flat_map_app. Qed.

Lemma copies_notify (ls : list Listener) : copies (EvNotify <$> ls) = [].
Proof.
  induction ls as [|l ls IH]; [reflexivity|].
  cbn [fmap list_fmap]. rewrite copies_cons. exact IH.
Qed.

Lemma copies_if (b : bool) evs : copies (if b then evs else []) = if b then copies evs else [].
Proof. destruct b; reflexivity. Qed.

Lemma copies_if_not (b : bool) evs :
  copies (if b then [] else evs) = if b then [] else copies evs.
Proof. destruct b; reflexivity. Qed.

Ltac copies_norm :=
  repeat first
    [ rewrite copies_app
    | rewrite copies_notify
    | rewrite copies_if
    | rewrite copies_if_not
    | rewrite copies_nil
    | rewrite copies_cons; cbn [app] ].

Lemma exists_entry_run s name m :
  _exists (Entry s name) m = (Val (truthy (lookup_entry (world m) s name)), m, []).
Proof.
  unfold _exists. run. destruct (lookup_entry (world m) s name) as [[c|z]|]; reflexivity.
Qed.

Lemma shutil_copyfile_run name m :
  shutil_copyfile name m
  = (if copy_ok (world m) name then Val tt else Exc OSError,
     if copy_ok (world m) name then with_world (copied name (world m)) m else m,
     [EvCopy name (_state (self m))]).
Proof.
  unfold shutil_copyfile, copy_ok, copied, with_world. run.
  destruct (lookup_entry (world m) Primary name) as [[c|z]|]; run; try reflexivity.
  destruct (secondary (world m)) as [d|]; run; try reflexivity.
  destruct (d !! name) as [[c'|z']|]; run; try reflexivity;
    destruct (fault (world m) (OpCopy name)); reflexivity.
Qed.

Lemma set_store_same s w : set_store s (store w s) w = w.
Proof. destruct w, s; reflexivity. Qed.

Lemma sec_rel_refl touched s : sec_rel touched s s.
Proof. destruct s; cbn; [split; [reflexivity|tauto]|exact I]. Qed.

(** The secondary folder after a copy. *)
Lemma sec_rel_copied name w :
  copy_ok w name = true ->
  sec_rel (eq name) (secondary w) (secondary (copied name w)).
Proof.
  unfold copy_ok, copied.
  destruct (lookup_entry w Primary name) as [[c|z]|]; try discriminate.
  destruct (secondary w) as [d|] eqn:Hd; try discriminate.
  intros Hok. cbn [set_store secondary sec_rel]. split.
  - intros n Hn. apply lookup_insert_ne. exact Hn.
  - intros n z. destruct (decide (name = n)) as [<-|Hne].
    + rewrite lookup_insert_eq. destruct (d !! name) as [[c'|z']|]; try discriminate;
        split; discriminate.
    + rewrite lookup_insert_ne by exact Hne. reflexivity.
Qed.

Lemma set_state_same d : set_state (_state d) d = d.
Proof. destruct d; reflexivity. Qed.

Lemma buffering_after_clear s : contains BUFFERING (flag_cleared BUFFERING s) = false.
Proof.
  unfold flag_cleared. change BUFFERING with (2 ^ 5).
  rewrite contains_after_clear by lia. apply andb_false_r.
Qed.

Lemma buffering_after_set s : contains BUFFERING (flag_set BUFFERING s) = true.
Proof.
  unfold flag_set. destruct (contains BUFFERING s) eqn:E; [exact E|].
  change BUFFERING with (2 ^ 5). rewrite contains_after_union by lia. apply orb_true_r.
Qed.

Lemma sync_stale_run doy fdoy name c m :
  lookup_entry (world m) Primary name = Some (File c) ->
  sync_stale doy fdoy (entry_of (name, File c)) m
  = (Val ((doy - fdoy <? max_sync (self m)) && copy_stale (world m) name c), m, []).
Proof.
  intros Hp. unfold sync_stale, copy_stale, entry_of. cbn [ename fst snd]. run.
  destruct (doy - fdoy <? max_sync (self m)); [|reflexivity].
  rewrite exists_entry_run. run.
  destruct (lookup_entry (world m) Secondary name) as [n|] eqn:Hs; run; [|reflexivity].
  rewrite Hs. run. rewrite Hp. reflexivity.
Qed.

Lemma if_same {A} (b : bool) (x : A) : (if b then x else x) = x.
Proof. destruct b; reflexivity. Qed.

Lemma copied_shape name w :
  copied name w = set_store Secondary (secondary (copied name w)) w.
Proof.
  unfold copied. destruct (lookup_entry w Primary name) as [[c|z]|];
    try (symmetry; apply (set_store_same Secondary)).
  destruct w as [? p q ? ? ?]. cbn [secondary]. destruct q; reflexivity.
Qed.

Ltac copies_done := copies_norm; rewrite ?if_same; cbn [app]; reflexivity.

(** The copy of one file: the flag word in force during the copy has
    BUFFERING exactly when the file is today's; if the copy succeeds
    BUFFERING is clear afterwards. *)
Lemma sync_copy_spec doy fdoy name node m :
  contains BUFFERING (_state (self m)) = false ->
  exists o m' evs st,
    sync_copy doy fdoy (entry_of (name, node)) m = (o, m', evs)
    /\ (o = Val tt /\ contains BUFFERING (_state (self m')) = false
        \/ exists e, o = Exc e)
    /\ self m' = set_state (_state (self m')) (self m)
    /\ world m' = set_store Secondary (secondary (world m')) (world m)
    /\ sec_rel (eq name) (secondary (world m)) (secondary (world m'))
    /\ copies evs = [(name, st)]
    /\ contains BUFFERING st = (doy =? fdoy).
Proof.
  intros Hbuf. unfold sync_copy, entry_of. cbn [ename fst snd]. run.
  destruct (doy =? fdoy); run.
  - rewrite setflag_spec. run. rewrite shutil_copyfile_run.
    cbn [with_state self world _state set_state].
    destruct (copy_ok (world m) name) eqn:Hok; run.
    + rewrite clearflag_run. run. eexists _, _, _, _. split; [reflexivity|].
      cbn [self world with_state with_world set_state _state].
      split; [left; split; [reflexivity|apply buffering_after_clear]|].
      split; [reflexivity|]. split; [apply copied_shape|].
      split; [apply sec_rel_copied, Hok|].
      split; [copies_done|apply buffering_after_set].
    + eexists _, _, _, _. split; [reflexivity|].
      cbn [self world with_state with_world set_state _state].
      split; [right; eauto|]. split; [reflexivity|].
      split; [symmetry; apply (set_store_same Secondary)|].
      split; [apply sec_rel_refl|].
      split; [copies_done|apply buffering_after_set].
  - rewrite shutil_copyfile_run.
    destruct (copy_ok (world m) name) eqn:Hok; run.
    + eexists _, _, _, _. split; [reflexivity|].
      cbn [self world with_state with_world set_state _state].
      split; [left; split; [reflexivity|exact Hbuf]|].
      split; [symmetry; apply set_state_same|]. split; [apply copied_shape|].
      split; [apply sec_rel_copied, Hok|].
      split; [copies_done|exact Hbuf].
    + eexists _, _, _, _. split; [reflexivity|].
      split; [right; eauto|]. split; [symmetry; apply set_state_same|].
      split; [symmetry; apply (set_store_same Secondary)|].
      split; [apply sec_rel_refl|].
      split; [copies_done|exact Hbuf].
Qed.

Lemma sync_inv_same touched m :
  contains BUFFERING (_state (self m)) = false -> sync_inv touched m m.
Proof.
  intros Hb. split; [symmetry; apply set_state_same|]. split; [exact Hb|].
  split; [symmetry; apply (set_store_same Secondary)|apply sec_rel_refl].
Qed.

(** One file of the loop of [_sync]. *)
Lemma sync_entry_spec doy name node m :
  lookup_entry (world m) Primary name = Some node ->
  contains BUFFERING (_state (self m)) = false ->
  exists m' evs,
    sync_entry doy (entry_of (name, node)) m = (Val tt, m', evs)
    /\ sync_inv (eq name) m m'
    /\ if sync_wanted (self m) (world m) doy name node
       then exists st, copies evs = [(name, st)]
                       /\ contains BUFFERING st = is_today doy name
       else copies evs = [].
Proof.
  intros Hnode Hbuf.
  unfold sync_entry, sync_try, sync_wanted, is_today, name_day, try_except.
  destruct node as [c|z].
  2:{ run. eexists _, _. split; [reflexivity|].
      split; [apply sync_inv_same, Hbuf|reflexivity]. }
  rewrite bind_unfold. cbn [gets entry_of eis_file ename fst snd andb].
  destruct (data_file_match (file_prefix (self m)) name); cbn [andb].
  2:{ run. eexists _, _. split; [reflexivity|].
      split; [apply sync_inv_same, Hbuf|reflexivity]. }
  rewrite bind_unfold. unfold int.
  destruct (int_of_string (slice_from_end 11 8 name)) as [fdoy|].
  2:{ run. rewrite clearflag_run. eexists _, _. split; [reflexivity|].
      split; [|copies_done].
      split; [reflexivity|]. split; [apply buffering_after_clear|].
      split; [symmetry; apply (set_store_same Secondary)|apply sec_rel_refl]. }
  cbn [mret M_ret]. rewrite bind_unfold.
  change (mkEntry name true) with (entry_of (name, File c)).
  rewrite (sync_stale_run doy fdoy name c m Hnode).
  destruct ((doy - fdoy <? max_sync (self m)) && copy_stale (world m) name c).
  2:{ run. eexists _, _. split; [reflexivity|].
      split; [apply sync_inv_same, Hbuf|reflexivity]. }
  cbn [when].
  destruct (sync_copy_spec doy fdoy name (File c) m Hbuf)
    as (o & m' & evs & st & -> & Ho & Hself & Hworld & Hsec & Hcopies & Hst).
  destruct Ho as [[-> Hb']|[e ->]].
  - eexists _, _. split; [reflexivity|]. rewrite app_nil_l.
    split; [repeat split; assumption|]. exists st. split; assumption.
  - run. rewrite clearflag_run. eexists _, _. split; [reflexivity|].
    cbn [app]. split.
    + split; [cbn [with_state self _state set_state]; rewrite Hself; reflexivity|].
      split; [apply buffering_after_clear|]. split; assumption.
    + exists st. split; [|exact Hst]. copies_norm. rewrite Hcopies, if_same. reflexivity.
Qed.

Lemma sec_rel_trans (P Q R : string -> Prop) s1 s2 s3 :
  (forall n, P n \/ Q n -> R n) ->
  sec_rel P s1 s2 -> sec_rel Q s2 s3 -> sec_rel R s1 s3.
Proof.
  intros HR. destruct s1 as [d1|], s2 as [d2|], s3 as [d3|]; cbn; try tauto.
  intros [H1 D1] [H2 D2]. split.
  - intros n Hn. rewrite H2, H1; [reflexivity| |]; intros H; apply Hn, HR; auto.
  - intros n z. rewrite D2, D1. reflexivity.
Qed.

Lemma sync_inv_trans (P Q R : string -> Prop) m0 m m1 :
  (forall n, P n \/ Q n -> R n) ->
  sync_inv P m0 m -> sync_inv Q m m1 -> sync_inv R m0 m1.
Proof.
  intros HR (Hs & _ & Hw & Hsec) (Hs1 & Hb1 & Hw1 & Hsec1).
  split; [rewrite Hs1, Hs; reflexivity|]. split; [exact Hb1|].
  split; [rewrite Hw1, Hw; destruct (world m0); reflexivity|].
  exact (sec_rel_trans P Q R _ _ _ HR Hsec Hsec1).
Qed.

Lemma sync_inv_weaken (P Q : string -> Prop) m0 m :
  (forall n, P n -> Q n) -> sync_inv P m0 m -> sync_inv Q m0 m.
Proof.
  intros HPQ H. apply (sync_inv_trans P (fun _ => False) Q m0 m m).
  - intros n [Hn|[]]. apply HPQ, Hn.
  - exact H.
  - destruct H as (_ & Hb & _). apply sync_inv_same, Hb.
Qed.

Lemma sync_inv_primary P m0 m name :
  sync_inv P m0 m ->
  lookup_entry (world m) Primary name = lookup_entry (world m0) Primary name.
Proof.
  intros (_ & _ & Hw & _). rewrite Hw. destruct (world m0); reflexivity.
Qed.

Lemma sync_inv_secondary P m0 m name :
  sync_inv P m0 m -> ~ P name ->
  lookup_entry (world m) Secondary name = lookup_entry (world m0) Secondary name.
Proof.
  intros (_ & _ & _ & Hsec) Hn. unfold lookup_entry. cbn [store].
  destruct (secondary (world m0)) as [d0|], (secondary (world m)) as [d|];
    cbn in Hsec; try tauto.
  apply Hsec, Hn.
Qed.

Lemma sync_inv_wanted P m0 m doy name node :
  sync_inv P m0 m -> ~ P name ->
  sync_wanted (self m) (world m) doy name node
  = sync_wanted (self m0) (world m0) doy name node.
Proof.
  intros H Hn. unfold sync_wanted, copy_stale.
  rewrite (sync_inv_secondary P m0 m name H Hn).
  destruct H as (Hs & _). rewrite Hs. reflexivity.
Qed.

(** The loop of [_sync] over the entries of the primary folder: the files
    copied are the entries to be copied, in the order of the scan, as the
    machine [m0] at the start of the loop decides them. *)
Lemma sync_loop_spec doy m0 (kvs : list (string * Node)) :
  forall (done : list string) m,
    NoDup (map fst kvs) ->
    (forall n, In n done -> ~ In n (map fst kvs)) ->
    (forall kv, In kv kvs -> lookup_entry (world m0) Primary kv.1 = Some kv.2) ->
    sync_inv (fun n => In n done) m0 m ->
    exists m' evs,
      for_each (entry_of <$> kvs) (sync_entry doy) m = (Val tt, m', evs)
      /\ sync_inv (fun n => In n (done ++ map fst kvs)) m0 m'
      /\ map fst (copies evs)
         = map fst (List.filter
                      (fun kv => sync_wanted (self m0) (world m0) doy kv.1 kv.2) kvs)
      /\ Forall (fun p => contains BUFFERING p.2 = is_today doy p.1) (copies evs).
Proof.
  induction kvs as [|[name node] kvs IH]; intros done m Hnd Hdis Hprim Hinv.
  - eexists _, _. split; [reflexivity|]. rewrite app_nil_r.
    split; [exact Hinv|]. split; [reflexivity|constructor].
  - cbn [map fst] in Hnd, Hdis. apply NoDup_cons in Hnd as [Hfresh Hnd].
    assert (Hnew : ~ In name done).
    { intros Hin. apply (Hdis name Hin). left. reflexivity. }
    assert (Hnode : lookup_entry (world m) Primary name = Some node).
    { rewrite (sync_inv_primary _ m0 m name Hinv). apply (Hprim (name, node)). left. reflexivity. }
    destruct Hinv as (Hs0 & Hb0 & Hw0 & Hsec0) eqn:Heq. clear Heq.
    destruct (sync_entry_spec doy name node m Hnode Hb0) as (m1 & evs1 & E1 & Hinv1 & Hc1).
    assert (Hinv01 : sync_inv (fun n => In n (done ++ [name])) m0 m1).
    { apply (sync_inv_trans (fun n => In n done) (eq name) _ m0 m m1);
        [|repeat split; assumption|exact Hinv1].
      intros n [Hn| <-]; apply in_or_app; [left; exact Hn|right; left; reflexivity]. }
    rewrite (sync_inv_wanted _ m0 m doy name node (conj Hs0 (conj Hb0 (conj Hw0 Hsec0))) Hnew)
      in Hc1.
    destruct (IH (done ++ [name]) m1 Hnd) as (m' & evs & E & Hinv' & Hnames & Hflags).
    + intros n Hin Hin'. apply in_app_or in Hin as [Hin|[<-|[]]].
      * apply (Hdis n Hin). right. exact Hin'.
      * apply Hfresh. apply list_elem_of_In. exact Hin'.
    + intros kv Hkv. apply Hprim. right. exact Hkv.
    + exact Hinv01.
    + cbn [fmap list_fmap for_each]. rewrite bind_unfold, E1, E.
      eexists _, _. split; [reflexivity|].
      split; [rewrite <- app_assoc in Hinv'; exact Hinv'|].
      rewrite copies_app, map_app. cbn [List.filter fst snd].
      destruct (sync_wanted (self m0) (world m0) doy name node).
      * destruct Hc1 as (st & -> & Hst). cbn [map fst app]. split; [f_equal; exact Hnames|].
        constructor; [exact Hst|exact Hflags].
      * rewrite Hc1. cbn [map app]. split; [exact Hnames|exact Hflags].
Qed.

Lemma copies_io evs : copies evs = copies (io_calls evs).
Proof.
  induction evs as [|ev evs IH]; [reflexivity|].
  rewrite io_calls_cons, copies_cons, copies_app, <- IH.
  destruct ev; reflexivity.
Qed.

Lemma sync_inv_can_open P m0 m name :
  sync_inv P m0 m ->
  can_open (world m) Secondary name = can_open (world m0) Secondary name.
Proof.
  intros (_ & _ & Hw & Hsec). unfold can_open. cbn [store].
  assert (Hf : fault (world m) = fault (world m0))
    by (rewrite Hw; destruct (world m0); reflexivity).
  rewrite Hf.
  destruct (secondary (world m0)) as [d0|], (secondary (world m)) as [d|];
    cbn in Hsec; try tauto.
  destruct Hsec as [_ Hdir]. f_equal.
  destruct (d !! name) as [[c|z]|] eqn:E, (d0 !! name) as [[c0|z0]|] eqn:E0;
    try reflexivity.
  all: try (apply Hdir in E; congruence).
  all: try (apply Hdir in E0; congruence).
Qed.

(** The machine the loop of [_sync] leaves, after [self.sync_thread = None]
    and the clearing of SYNCING_FILES. *)
Lemma sync_run_spec m dir :
  primary (world m) = Some dir ->
  contains BUFFERING (_state (self m)) = false ->
  exists m1 evs1 evs2,
    _sync m
    = (Val tt,
       opened_secondary
         (with_state (flag_cleared SYNCING_FILES (_state (self m1)))
            (with_self (set_sync_thread None (self m1)) m1)),
       evs1 ++ evs2)
    /\ sync_inv (fun n => In n (map fst (map_to_list dir))) m m1
    /\ map fst (copies evs1)
       = map fst (List.filter
                    (fun kv => sync_wanted (self m) (world m)
                                 (Z.of_nat (yday (utcnow (world m)))) kv.1 kv.2)
                    (map_to_list dir))
    /\ Forall (fun p => contains BUFFERING p.2
                        = is_today (Z.of_nat (yday (utcnow (world m)))) p.1)
         (copies evs1)
    /\ copies evs2 = [].
Proof.
  intros Hdir Hbuf. unfold _sync. run. rewrite doy_run. run. rewrite Hdir. run.
  destruct (sync_loop_spec (Z.of_nat (yday (utcnow (world m)))) m (map_to_list dir) [] m)
    as (m1 & evs1 & E & Hinv & Hnames & Hflags).
  - apply (NoDup_fst_map_to_list dir).
  - intros n [].
  - intros [name node] Hin. apply list_elem_of_In, elem_of_map_to_list in Hin.
    unfold lookup_entry. cbn [store fst snd]. rewrite Hdir. exact Hin.
  - apply sync_inv_same, Hbuf.
  - rewrite E. run. rewrite clearflag_run. run.
    match goal with |- context [open true ?m3] =>
      destruct (open_secondary_spec m3) as (evs3 & -> & Hio & _) end.
    eexists m1, evs1, _. split; [reflexivity|].
    split; [exact Hinv|]. split; [exact Hnames|]. split; [exact Hflags|].
    copies_norm. rewrite if_same, (copies_io evs3), Hio. cbn [app].
    case_all; reflexivity.
Qed.

(** [open(secondary=True)] at the end of the run. *)
Lemma opened_secondary_fields m :
  sync_thread (self (opened_secondary m)) = sync_thread (self m)
  /\ contains BUFFERING (_state (self (opened_secondary m)))
     = contains BUFFERING (_state (self m))
  /\ (contains SYNCING_FILES (_state (self m)) = false ->
      contains SYNCING_FILES (_state (self (opened_secondary m))) = false)
  /\ (forall f, is_Some (secondary (world m)) -> fprimary (self m) = Some f ->
      can_open (world m) Secondary (fbase f) = true ->
      fsecondary (self (opened_secondary m)) = Some (mkFile (fbase f) false))
  /\ (secondary (world m) = None ->
      fsecondary (self (opened_secondary m)) = fsecondary (self m)).
Proof.
  unfold opened_secondary, flag_set, flag_cleared.
  split; [case_all; reflexivity|]. split; [|split; [|split]].
  - change BUFFERING with (2 ^ 5).
    case_all; cbn [self _state with_state with_self with_world set_state set_fsecondary];
      rewrite ?contains_after_union, ?contains_after_clear by lia;
      cbn; rewrite ?orb_false_r, ?andb_true_r; reflexivity.
  - intros Hs. change SYNCING_FILES with (2 ^ 3) in *.
    case_all; cbn [self _state with_state with_self with_world set_state set_fsecondary];
      rewrite ?contains_after_union, ?contains_after_clear, ?Hs by lia;
      try reflexivity; try assumption.
  - intros f [d Hd] Hf Hopen. rewrite Hd, Hf, Hopen. reflexivity.
  - intros ->. reflexivity.
Qed.



(** The run on the sample: today's file is copied with BUFFERING set (flag
    word 42), the two older files without it (flag word 10), and the
    secondary file is opened at the end. *)
Example sync_sample :
  io_calls (_sync Sample.m_syncing).2
  = [EvCopy Sample.today_file 42; EvCopy Sample.day95_file 10;
     EvCopy Sample.day94_file 10; EvOpen Secondary Sample.today_file]
  /\ fsecondary (self (_sync Sample.m_syncing).1.2) = Some Sample.fs
  /\ secondary (world (_sync Sample.m_syncing).1.2) = Some Sample.live_files.
Proof. repeat split; vm_compute; reflexivity. Qed.


(** * Further properties

    Properties of the writer and of its workers beyond the claims above:
    what the methods do on the paths the claims leave out, how they fail,
    and how they compose. *)

(** ** The flag word as a set *)

Lemma range_bits x : 0 <= x -> x < 64 <-> forall i, 6 <= i -> Z.testbit x i = false.
Proof.
  intros H0. split.
  - intros Hx i Hi. destruct (Z.eq_dec x 0) as [->|Hne]; [apply Z.testbit_0_l|].
    apply Z.bits_above_log2; [lia|].
    assert (Z.log2 x < 6) by (apply Z.log2_lt_pow2; lia). lia.
  - intros Hbits. destruct (Z.lt_ge_cases x 64) as [H|H]; [exact H|exfalso].
    assert (Hl : 6 <= Z.log2 x) by (apply (Z.log2_le_pow2 x 6); lia).
    specialize (Hbits _ Hl). rewrite Z.bit_log2 in Hbits by lia. discriminate.
Qed.

Lemma clear_loop_ldiff flag s : 0 <= s < 64 -> (clear_loop flag s).1 = Z.ldiff s flag.
Proof.
  intros Hs. apply Z.bits_inj'. intros i Hi. rewrite Z.ldiff_spec.
  destruct (Z.lt_ge_cases i 6) as [Hlt|Hge].
  - apply clear_loop_bit. lia.
  - assert (Hsi : Z.testbit s i = false) by (apply range_bits; lia).
    rewrite Hsi. cbn [andb].
    destruct (clear_loop_inv flag s) as (Hsub & _).
    destruct (Z.testbit (clear_loop flag s).1 i) eqn:E; [|reflexivity].
    apply Hsub in E; [congruence|exact Hi].
Qed.

Lemma lor_range a b : 0 <= a < 64 -> 0 <= b < 64 -> 0 <= Z.lor a b < 64.
Proof.
  intros Ha Hb. assert (H0 : 0 <= Z.lor a b) by (apply Z.lor_nonneg; lia).
  split; [exact H0|]. apply range_bits; [exact H0|].
  intros i Hi. rewrite Z.lor_spec.
  rewrite (proj1 (range_bits a (proj1 Ha)) (proj2 Ha) i Hi).
  rewrite (proj1 (range_bits b (proj1 Hb)) (proj2 Hb) i Hi). reflexivity.
Qed.

Lemma ldiff_range a b : 0 <= a < 64 -> 0 <= Z.ldiff a b < 64.
Proof.
  intros Ha. assert (H0 : 0 <= Z.ldiff a b) by (apply Z.ldiff_nonneg; left; lia).
  split; [exact H0|]. apply range_bits; [exact H0|].
  intros i Hi. rewrite Z.ldiff_spec.
  rewrite (proj1 (range_bits a (proj1 Ha)) (proj2 Ha) i Hi). reflexivity.
Qed.

(** X1. On a flag word of the enumeration, [_setflag flag] leaves the union
    of the word and [flag], and [_clearflag flag] leaves the word without
    the members of [flag]; nothing else of the object or of the
    environment changes, and the word stays a value of the enumeration. *)
Theorem flags_set_is_union_clear_is_difference (flag : StateFlag.t) (m : Machine) :
  0 <= _state (self m) < 64 ->
  0 <= flag < 64 ->
  ((_setflag flag m).1.2 = with_state (Z.lor (_state (self m)) flag) m
   /\ 0 <= Z.lor (_state (self m)) flag < 64)
  /\ ((_clearflag flag m).1.2 = with_state (Z.ldiff (_state (self m)) flag) m
      /\ 0 <= Z.ldiff (_state (self m)) flag < 64).
Proof.
  intros Hs Hf. split; split.
  - rewrite setflag_run. destruct (contains flag (_state (self m))) eqn:E; [|reflexivity].
    cbn [fst snd]. unfold contains in E. apply Z.eqb_eq in E.
    assert (Z.lor (_state (self m)) flag = _state (self m)) as ->.
    { apply Z.bits_inj'. intros i _. rewrite Z.lor_spec, <- E, Z.land_spec.
      destruct (Z.testbit flag i), (Z.testbit (_state (self m)) i); reflexivity. }
    symmetry. apply with_state_same.
  - apply lor_range; assumption.
  - rewrite clearflag_run. cbn [fst snd]. rewrite clear_loop_ldiff by exact Hs. reflexivity.
  - apply ldiff_range, Hs.
Qed.

Lemma flags_set_is_union_clear_is_difference_witness :
  0 <= _state (self Sample.m_flush) < 64
  /\ 0 <= union DUAL_WRITE BUFFERING < 64
  /\ (_setflag (union DUAL_WRITE BUFFERING) Sample.m_flush).1.2
     = with_state 38 Sample.m_flush
  /\ (_clearflag (union DUAL_WRITE BUFFERING) Sample.m_flush).1.2
     = with_state 2 Sample.m_flush.
Proof.
  assert (H1 : 0 <= _state (self Sample.m_flush) < 64)
    by (vm_compute; split; [discriminate|reflexivity]).
  assert (H2 : 0 <= union DUAL_WRITE BUFFERING < 64)
    by (vm_compute; split; [discriminate|reflexivity]).
  destruct (flags_set_is_union_clear_is_difference
              (union DUAL_WRITE BUFFERING) Sample.m_flush H1 H2) as [[Hs _] [Hc _]].
  split; [exact H1|]. split; [exact H2|]. split; [exact Hs|exact Hc].
Defined.

(** ** What a block emits and how it ends

    Two more calculi in the manner of the frame rules: [emits P c] bounds
    the calls of a block, [falls_or ret exc c] the ways it can end. *)

Section Emits.
Context (P : Event -> Prop).

Lemma emits_ret {A} (a : A) : emits P (mret a).
Proof. intros m. constructor. Qed.

Lemma emits_raise {A} e : emits P (@raise A e).
Proof. intros m. constructor. Qed.

Lemma emits_return {A} : emits P (@return_ A).
Proof. intros m. constructor. Qed.

Lemma emits_gets {A} (f : DualFileData -> A) : emits P (gets f).
Proof. intros m. constructor. Qed.

Lemma emits_get_world : emits P get_world.
Proof. intros m. constructor. Qed.

Lemma emits_get_sbuffer : emits P get_sbuffer.
Proof. intros m. constructor. Qed.

Lemma emits_modify f : emits P (modify f).
Proof. intros m. constructor. Qed.

Lemma emits_modify_world f : emits P (modify_world f).
Proof. intros m. constructor. Qed.

Lemma emits_put_sbuffer v : emits P (put_sbuffer v).
Proof. intros m. constructor. Qed.

Lemma emits_emit ev : P ev -> emits P (emit ev).
Proof. intros H m. repeat constructor. exact H. Qed.

Lemma emits_bind {A B} (c : M A) (k : A -> M B) :
  emits P c -> (forall a, emits P (k a)) -> emits P (c ≫= k).
Proof.
  intros Hc Hk m. rewrite bind_unfold. specialize (Hc m).
  destruct (c m) as [[o m1] e1]. destruct o as [a| |x]; cbn in *; try exact Hc.
  specialize (Hk a m1). destruct (k a m1) as [[o2 m2] e2]. cbn in *.
  apply Forall_app; split; assumption.
Qed.

Lemma emits_def (c : M unit) : emits P c -> emits P (def c).
Proof.
  intros Hc m. unfold def. specialize (Hc m).
  destruct (c m) as [[o m1] e1]. exact Hc.
Qed.

Lemma emits_try_except (c : M unit) (h : Exn -> M unit) :
  emits P c -> (forall e, emits P (h e)) -> emits P (try_except c h).
Proof.
  intros Hc Hh m. unfold try_except. specialize (Hc m).
  destruct (c m) as [[o m1] e1]. destruct o as [a| |x]; cbn in *; try exact Hc.
  specialize (Hh x m1). destruct (h x m1) as [[o2 m2] e2]. cbn in *.
  apply Forall_app; split; assumption.
Qed.

Lemma emits_try_finally (c fin : M unit) :
  emits P c -> emits P fin -> emits P (try_finally c fin).
Proof.
  intros Hc Hf m. unfold try_finally. specialize (Hc m).
  destruct (c m) as [[o m1] e1]. specialize (Hf m1).
  destruct (fin m1) as [[o2 m2] e2]. cbn in *. apply Forall_app; split; assumption.
Qed.

Lemma emits_when (b : bool) (c : M unit) : emits P c -> emits P (when b c).
Proof. intros Hc. destruct b; [exact Hc|apply emits_ret]. Qed.

Lemma emits_for_each {A} (xs : list A) (body : A -> M unit) :
  (forall x, emits P (body x)) -> emits P (for_each xs body).
Proof.
  intros Hb. induction xs as [|x xs IH]; cbn [for_each].
  - apply emits_ret.
  - apply emits_bind; [apply Hb|intros _; exact IH].
Qed.

Lemma emits_for_fold {A B} (xs : list A) (acc : B) (body : B -> A -> M B) :
  (forall b x, emits P (body b x)) -> emits P (for_fold xs acc body).
Proof.
  intros Hb. revert acc. induction xs as [|x xs IH]; intros acc; cbn [for_fold].
  - apply emits_ret.
  - apply emits_bind; [apply Hb|intros acc'; apply IH].
Qed.

End Emits.

Ltac emit_step :=
  lazymatch goal with
  | |- emits _ (mbind _ _) => apply emits_bind; [|intros ?]
  | |- emits _ (mret _) => apply emits_ret
  | |- emits _ pass => apply emits_ret
  | |- emits _ (raise _) => apply emits_raise
  | |- emits _ return_ => apply emits_return
  | |- emits _ (gets _) => apply emits_gets
  | |- emits _ get_world => apply emits_get_world
  | |- emits _ get_sbuffer => apply emits_get_sbuffer
  | |- emits _ (modify _) => apply emits_modify
  | |- emits _ (modify_world _) => apply emits_modify_world
  | |- emits _ (put_sbuffer _) => apply emits_put_sbuffer
  | |- emits _ (emit _) => apply emits_emit
  | |- emits _ (logging_debug _) => apply emits_emit
  | |- emits _ (logging_info _) => apply emits_emit
  | |- emits _ (logging_warning _) => apply emits_emit
  | |- emits _ (logging_exception _) => apply emits_emit
  | |- emits _ (logging_WARNING _) => apply emits_raise
  | |- emits _ (def _) => apply emits_def
  | |- emits _ (try_except _ _) => apply emits_try_except; [|intros ?]
  | |- emits _ (try_finally _ _) => apply emits_try_finally
  | |- emits _ (when _ _) => apply emits_when
  | |- emits _ (for_each _ _) => apply emits_for_each; intros ?
  | |- emits _ (for_fold _ _ _) => apply emits_for_fold; intros ? ?
  | |- emits _ (if ?b then _ else _) => destruct b
  | |- emits _ (match ?x with _ => _ end) => destruct x
  end.

Create HintDb emits.

Ltac emit_solve := repeat first [ solve [auto with emits] | exact I | emit_step ].

Section Falls.

Lemma falls_weaken {A} (r x r' x' : bool) (c : M A) :
  falls_or r x c -> (r = true -> r' = true) -> (x = true -> x' = true) -> falls_or r' x' c.
Proof.
  intros H Hr Hx m. specialize (H m). destruct (c m).1.1; auto.
Qed.

Context (r x : bool).

Lemma falls_ret {A} (a : A) : falls_or r x (mret a).
Proof. intros m. exact I. Qed.

Lemma falls_gets {A} (f : DualFileData -> A) : falls_or r x (gets f).
Proof. intros m. exact I. Qed.

Lemma falls_get_world : falls_or r x get_world.
Proof. intros m. exact I. Qed.

Lemma falls_get_sbuffer : falls_or r x get_sbuffer.
Proof. intros m. exact I. Qed.

Lemma falls_modify f : falls_or r x (modify f).
Proof. intros m. exact I. Qed.

Lemma falls_modify_world f : falls_or r x (modify_world f).
Proof. intros m. exact I. Qed.

Lemma falls_put_sbuffer v : falls_or r x (put_sbuffer v).
Proof. intros m. exact I. Qed.

Lemma falls_emit ev : falls_or r x (emit ev).
Proof. intros m. exact I. Qed.

Lemma falls_raise {A} e : x = true -> falls_or r x (@raise A e).
Proof. intros H m. exact H. Qed.

Lemma falls_return {A} : r = true -> falls_or r x (@return_ A).
Proof. intros H m. exact H. Qed.

Lemma falls_bind {A B} (c : M A) (k : A -> M B) :
  falls_or r x c -> (forall a, falls_or r x (k a)) -> falls_or r x (c ≫= k).
Proof.
  intros Hc Hk m. rewrite bind_unfold. specialize (Hc m).
  destruct (c m) as [[o m1] e1]. destruct o as [a| |e]; cbn in *; try exact Hc.
  specialize (Hk a m1). destruct (k a m1) as [[o2 m2] e2]. exact Hk.
Qed.

Lemma falls_def (c : M unit) : falls_or true x c -> falls_or r x (def c).
Proof.
  intros Hc m. unfold def. specialize (Hc m).
  destruct (c m) as [[o m1] e1]. destruct o; cbn in *; auto.
Qed.

Lemma falls_try_except (c : M unit) (h : Exn -> M unit) :
  falls_or r true c -> (forall e, falls_or r x (h e)) -> falls_or r x (try_except c h).
Proof.
  intros Hc Hh m. unfold try_except. specialize (Hc m).
  destruct (c m) as [[o m1] e1]. destruct o as [a| |e]; cbn in *; try exact Hc.
  specialize (Hh e m1). destruct (h e m1) as [[o2 m2] e2]. exact Hh.
Qed.

Lemma falls_try_finally (c fin : M unit) :
  falls_or r x c -> falls_or r x fin -> falls_or r x (try_finally c fin).
Proof.
  intros Hc Hf m. unfold try_finally. specialize (Hc m).
  destruct (c m) as [[o m1] e1]. specialize (Hf m1).
  destruct (fin m1) as [[o2 m2] e2]. cbn in *. destruct o2; assumption.
Qed.

Lemma falls_when (b : bool) (c : M unit) : falls_or r x c -> falls_or r x (when b c).
Proof. intros Hc. destruct b; [exact Hc|apply falls_ret]. Qed.

Lemma falls_for_each {A} (xs : list A) (body : A -> M unit) :
  (forall a, falls_or r x (body a)) -> falls_or r x (for_each xs body).
Proof.
  intros Hb. induction xs as [|a xs IH]; cbn [for_each].
  - apply falls_ret.
  - apply falls_bind; [apply Hb|intros _; exact IH].
Qed.

Lemma falls_for_fold {A B} (xs : list A) (acc : B) (body : B -> A -> M B) :
  (forall b a, falls_or r x (body b a)) -> falls_or r x (for_fold xs acc body).
Proof.
  intros Hb. revert acc. induction xs as [|a xs IH]; intros acc; cbn [for_fold].
  - apply falls_ret.
  - apply falls_bind; [apply Hb|intros acc'; apply IH].
Qed.

End Falls.

Ltac fall_step :=
  lazymatch goal with
  | |- falls_or _ _ (mbind _ _) => apply falls_bind; [|intros ?]
  | |- falls_or _ _ (mret _) => apply falls_ret
  | |- falls_or _ _ pass => apply falls_ret
  | |- falls_or _ _ (raise _) => apply falls_raise; reflexivity
  | |- falls_or _ _ return_ => apply falls_return; reflexivity
  | |- falls_or _ _ (gets _) => apply falls_gets
  | |- falls_or _ _ get_world => apply falls_get_world
  | |- falls_or _ _ get_sbuffer => apply falls_get_sbuffer
  | |- falls_or _ _ (modify _) => apply falls_modify
  | |- falls_or _ _ (modify_world _) => apply falls_modify_world
  | |- falls_or _ _ (put_sbuffer _) => apply falls_put_sbuffer
  | |- falls_or _ _ (emit _) => apply falls_emit
  | |- falls_or _ _ (logging_debug _) => apply falls_emit
  | |- falls_or _ _ (logging_info _) => apply falls_emit
  | |- falls_or _ _ (logging_warning _) => apply falls_emit
  | |- falls_or _ _ (logging_exception _) => apply falls_emit
  | |- falls_or _ _ (logging_WARNING _) => apply falls_raise; reflexivity
  | |- falls_or _ _ (def _) => apply falls_def
  | |- falls_or _ _ (try_except _ _) => apply falls_try_except; [|intros ?]
  | |- falls_or _ _ (try_finally _ _) => apply falls_try_finally
  | |- falls_or _ _ (when _ _) => apply falls_when
  | |- falls_or _ _ (for_each _ _) => apply falls_for_each; intros ?
  | |- falls_or _ _ (for_fold _ _ _) => apply falls_for_fold; intros ? ?
  | |- falls_or _ _ (if ?b then _ else _) => destruct b
  | |- falls_or _ _ (match ?x with _ => _ end) => destruct x
  end.

Create HintDb falls.

Ltac fall_solve := repeat first [ solve [auto with falls] | fall_step ].

Lemma notify_falls r x : falls_or r x _notify_newstate.
Proof. unfold _notify_newstate. fall_solve. Qed.

#[global] Hint Resolve notify_falls : falls.

Lemma setflag_falls r x flag : falls_or r x (_setflag flag).
Proof. intros m. rewrite setflag_run. destruct (contains _ _); exact I. Qed.

#[global] Hint Resolve setflag_falls : falls.

Lemma clearflag_falls r x flag : falls_or r x (_clearflag flag).
Proof. intros m. rewrite clearflag_run. exact I. Qed.

#[global] Hint Resolve clearflag_falls : falls.

Lemma exists_falls r x p : falls_or r x (_exists p).
Proof. unfold _exists. fall_solve. Qed.

#[global] Hint Resolve exists_falls : falls.

Lemma file_write_falls r k text : falls_or r true (file_write k text).
Proof. unfold file_write. fall_solve. Qed.

#[global] Hint Resolve file_write_falls : falls.

Lemma offload_sync_falls r x : falls_or r x _offload_sync.
Proof. intros m. destruct (offload_sync_spec m) as (m' & evs & -> & _). exact I. Qed.

#[global] Hint Resolve offload_sync_falls : falls.

(** The statements of [write] after the rotation block let no exception
    out. *)
Lemma write_record_falls data : falls_or true false (write_record data).
Proof.
  unfold write_record, write_primary, write_secondary, secondary_present,
    secondary_absent, datetime_utcnow.
  fall_solve.
Qed.

(** ** The only exception that leaves [write] *)

Lemma def_write_record_returns data m :
  exists m' evs, def (write_record data) m = (Val tt, m', evs).
Proof.
  pose proof (write_record_falls data m) as H. unfold def.
  destruct (write_record data m) as [[o m'] evs]. cbn in H.
  destruct o as [[]| |e]; [eauto|eauto|discriminate].
Qed.

(** X2. [write] raises in one case only: a rotation is due and the primary
    file of the new day cannot be opened.  Then the exception is the
    [OSError] of [open]; the old file objects have been closed, the record
    has been written nowhere and is not in the pending buffer, and the day
    recorded is still the old one, so the next [write] tries the rotation
    again.  In every other case [write] returns normally. *)
Theorem write_raises_only_when_primary_cannot_open (data : string) (m : Machine) :
  if negb (fdoy (self m) =? Z.of_nat (yday (utcnow (world m))))
     && negb (can_open (world m) Primary (name_now m))
  then exists evs,
         write data m = (Exc OSError, closed m, evs)
         /\ io_calls evs
            = option_list (EvClose Primary <$> fprimary (self m))
              ++ option_list (EvClose Secondary <$> fsecondary (self m))
              ++ [EvOpen Primary (name_now m)]
         /\ (forall s, written s evs = [])
         /\ fdoy (self (closed m)) = fdoy (self m)
         /\ databuffer (self (closed m)) = databuffer (self m)
  else exists m' evs, write data m = (Val tt, m', evs).
Proof.
  destruct (Z.eqb_spec (fdoy (self m)) (Z.of_nat (yday (utcnow (world m))))) as [E|E];
    cbn [negb andb].
  - rewrite (write_same_day data m E). apply def_write_record_returns.
  - destruct (can_open (world m) Primary (name_now m)) eqn:Hopen; cbn [negb].
    + destruct (write_new_day data m E Hopen) as (evs0 & _ & ->).
      destruct (def_write_record_returns data (rotated m)) as (m' & evs & ->). eauto.
    + unfold write, rotate. run. rewrite doy_run. run.
      apply Z.eqb_neq in E. rewrite E. run.
      destruct (close_spec m) as (evs1 & -> & Hio & Hw). run.
      rewrite open_primary_spec.
      change (can_open (world (closed m)) Primary (name_now (closed m)))
        with (can_open (world m) Primary (name_now m)).
      rewrite Hopen. change (name_now (closed m)) with (name_now m).
      eexists. split; [reflexivity|].
      split; [io_norm; rewrite Hio, <- app_assoc; reflexivity|].
      split; [intros s; written_norm; rewrite Hw; reflexivity|].
      split; reflexivity.
Qed.

(** ** Starting the Sync Worker *)

(** X3. [_offload_sync] starts a thread only when SYNCING_FILES is clear
    and the [sync_thread] slot is empty; it then sets the flag and fills
    the slot, whether or not the start succeeds, so that a second call
    right after it starts nothing and changes nothing. *)
Theorem sync_trigger_starts_at_most_one_thread (m : Machine) :
  exists m1 evs1 evs2,
    _offload_sync m = (Val tt, m1, evs1)
    /\ _offload_sync m1 = (Val tt, m1, evs2)
    /\ io_calls evs2 = []
    /\ sync_blocked m1 = true
    /\ if sync_blocked m
       then m1 = m /\ io_calls evs1 = []
       else io_calls evs1 = [EvStart (next_thread SyncWorker m)]
            /\ sync_thread (self m1) = Some (next_thread SyncWorker m)
            /\ contains SYNCING_FILES (_state (self m1)) = true
            /\ alive (world m1)
               = (if fault (world m) (OpStart SyncWorker) then alive (world m)
                  else next_thread SyncWorker m :: alive (world m)).
Proof.
  assert (Hblocked : forall m', sync_blocked m' = true ->
            _offload_sync m'
            = (Val tt, m',
               [EvLog WARNING "Want to start syncing files, but a proces is already underway."])).
  { intros m' Hb. unfold sync_blocked in Hb. unfold _offload_sync. run.
    rewrite Hb. reflexivity. }
  destruct (sync_blocked m) eqn:Hb.
  - exists m. eexists _, _. rewrite (Hblocked m Hb). repeat split; try reflexivity. exact Hb.
  - unfold sync_blocked in Hb. apply orb_false_iff in Hb as [Hs Ht].
    unfold _offload_sync at 1. run. rewrite Hs, Ht. run.
    rewrite setflag_run, Hs. run.
    set (m1 := mkMachine _ _ _).
    assert (Hb1 : sync_blocked m1 = true).
    { unfold sync_blocked, m1. cbn [self sync_thread set_sync_thread]. apply orb_true_r. }
    assert (Hflag : contains SYNCING_FILES (union (_state (self m)) SYNCING_FILES) = true).
    { change SYNCING_FILES with (2 ^ 3). rewrite contains_after_union by lia.
      apply orb_true_r. }
    destruct (fault (world m) (OpStart SyncWorker)) eqn:Hf; run.
    + eexists _, _, _. split; [reflexivity|]. fold m1.
      rewrite (Hblocked m1 Hb1). repeat split; try reflexivity; try assumption.
      io_norm. reflexivity.
    + match goal with |- context [(Val tt, ?m2, _)] => set (m2' := m2) end.
      assert (Hb2 : sync_blocked m2' = true).
      { unfold sync_blocked, m2'. cbn [self sync_thread set_sync_thread]. apply orb_true_r. }
      eexists _, _, _. split; [reflexivity|].
      rewrite (Hblocked m2' Hb2). repeat split; try reflexivity; try assumption.
      io_norm. reflexivity.
Qed.

(** ** The primary half of [write] *)

Global Instance primary_only_refl : Reflexive primary_only.
Proof. intros [[] [] ?]. split; reflexivity. Qed.

Global Instance primary_only_trans : Transitive primary_only.
Proof.
  intros m1 m2 m3 [Hs Hw] [Hs' Hw']. split.
  - rewrite Hs', Hs. reflexivity.
  - rewrite Hw', Hw. reflexivity.
Qed.

Ltac frames_by side := repeat first [ side | solve [auto with frames] | frame_step ].

Ltac primary_only_side :=
  idtac;
  lazymatch goal with
  | |- primary_only ?m _ => destruct m as [[] [] ?]; split; reflexivity
  end.

Lemma file_write_primary_only text : frames primary_only (file_write Fprimary text).
Proof. unfold file_write. cbn [slot_get slot_store]. frames_by primary_only_side. Qed.

Lemma write_primary_only ts data : frames primary_only (write_primary ts data).
Proof.
  unfold write_primary. pose proof file_write_primary_only.
  frames_by ltac:(idtac; first [primary_only_side | solve [auto] ]).
Qed.

Lemma file_write_primary_emits text : emits primary_write_or_log (file_write Fprimary text).
Proof. unfold file_write. cbn [slot_get slot_store]. emit_solve. Qed.

Lemma write_primary_emits ts data : emits primary_write_or_log (write_primary ts data).
Proof. unfold write_primary. pose proof file_write_primary_emits. emit_solve. Qed.

Lemma write_primary_returns ts data m :
  (write_primary ts data m).1.1 = Ret ->
  contains BUFFERING (_state (self m)) = true.
Proof.
  unfold write_primary. rewrite bind_unfold. cbn [gets].
  destruct (fprimary (self m)); cbn [truthy when]; [|discriminate].
  rewrite bind_unfold. cbn [gets].
  destruct (contains BUFFERING (_state (self m))); [reflexivity|].
  match goal with |- context [?c m] =>
    assert (H : falls_or false true c) by fall_solve;
    specialize (H m); destruct (c m) as [[o m1] e1] end.
  cbn in *. destruct o; [discriminate|discriminate|discriminate].
Qed.

Lemma primary_block_spec ts data msg m :
  exists o m1 e1,
    try_except (write_primary ts data) (fun _ => logging_exception msg) m = (o, m1, e1)
    /\ (o = Val tt \/ o = Ret /\ contains BUFFERING (_state (self m)) = true)
    /\ primary_only m m1
    /\ Forall primary_write_or_log e1.
Proof.
  pose proof (write_primary_only ts data m) as Hf.
  pose proof (write_primary_emits ts data m) as He.
  pose proof (write_primary_returns ts data m) as Hr.
  unfold try_except. destruct (write_primary ts data m) as [[o m1] e1]. cbn in *.
  destruct o as [[]| |e].
  - eauto 10.
  - eexists _, _, _. split; [reflexivity|]. split; [right; auto|]. auto.
  - cbn. eexists _, _, _. split; [reflexivity|]. split; [left; reflexivity|].
    split; [exact Hf|]. apply Forall_app. split; [exact He|repeat constructor].
Qed.

Lemma io_calls_primary_writes evs :
  Forall primary_write_or_log evs -> Forall is_primary_write (io_calls evs).
Proof.
  induction 1 as [|ev evs Hev _ IH]; [constructor|].
  rewrite io_calls_cons. destruct ev as [| [] | | | | | |]; cbn in *; try contradiction;
    try exact IH.
  constructor; [exact I|exact IH].
Qed.

Lemma three_flags_cleared s :
  let s' := flag_cleared (union USB (union DUAL_WRITE SYNCING_FILES)) s in
  contains USB s' = false /\ contains DUAL_WRITE s' = false
  /\ contains SYNCING_FILES s' = false.
Proof.
  unfold flag_cleared. cbn zeta.
  change USB with (2 ^ 1) at 1. change DUAL_WRITE with (2 ^ 2) at 2.
  change SYNCING_FILES with (2 ^ 3) at 3.
  rewrite !contains_after_clear by lia.
  repeat split; apply andb_false_r.
Qed.

Lemma contains_after_set i flag s :
  0 <= i ->
  contains (2 ^ i) (flag_set flag s) = contains (2 ^ i) s || Z.testbit flag i.
Proof.
  intros Hi. unfold flag_set. destruct (contains flag s) eqn:E.
  - rewrite !contains_bit by lia. unfold contains in E. apply Z.eqb_eq in E.
    destruct (Z.testbit flag i) eqn:Hf; [|rewrite orb_false_r; reflexivity].
    rewrite <- E, Z.land_spec in Hf. apply andb_true_iff in Hf as [_ ->]. reflexivity.
  - apply contains_after_union, Hi.
Qed.

(** ** Losing the medium and finding it again *)

(** X4. A [write] on the day of the last rotation, BUFFERING clear, that
    finds the secondary folder gone: it returns normally; USB, DUAL_WRITE
    and SYNCING_FILES are clear afterwards, the secondary slot and the
    [sync_thread] slot are empty (whatever thread is still alive); the only
    calls on files or threads are writes to the primary file. *)
Theorem write_without_medium_forgets_secondary (data : string) (m : Machine) :
  secondary (world m) = None ->
  fdoy (self m) = Z.of_nat (yday (utcnow (world m))) ->
  contains BUFFERING (_state (self m)) = false ->
  exists m' evs,
    write data m = (Val tt, m', evs)
    /\ fsecondary (self m') = None
    /\ sync_thread (self m') = None
    /\ contains USB (_state (self m')) = false
    /\ contains DUAL_WRITE (_state (self m')) = false
    /\ contains SYNCING_FILES (_state (self m')) = false
    /\ Forall is_primary_write (io_calls evs)
    /\ secondary (world m') = None
    /\ alive (world m') = alive (world m).
Proof.
  intros Hsec Hday Hbuf. rewrite (write_same_day data m Hday).
  unfold def, write_record, datetime_utcnow.
  repeat (rewrite bind_unfold; cbn [get_world mret M_ret put_sbuffer world self app]).
  set (m0 := mkMachine (self m) (world m) []).
  destruct (primary_block_spec (epoch (utcnow (world m))) data
              "Unhandled exception in DualDataFile.write() primary file" m0)
    as (o1 & m1 & e1 & -> & Ho & (Hs1 & Hw1) & Hev).
  destruct Ho as [-> | [_ Hb]]; [|cbn in Hb; congruence].
  assert (Hsec1 : secondary (world m1) = None).
  { rewrite Hw1. cbn. exact Hsec. }
  assert (Halive : alive (world m1) = alive (world m)) by (rewrite Hw1; reflexivity).
  unfold try_except, write_secondary. rewrite bind_unfold, exists_folder_run.
  cbn [store]. rewrite Hsec1. cbn [truthy].
  unfold secondary_absent. run. rewrite clearflag_run. run.
  pose proof (three_flags_cleared (_state (self m1))) as (Hu & Hd & Hy).
  unfold flag_cleared in *.
  destruct (fsecondary (self m1)) eqn:Hfs; run;
    (eexists _, _; split; [reflexivity|]);
    cbn [self world with_state set_state set_fsecondary set_sync_thread fsecondary
         sync_thread _state];
    repeat split; try assumption; try reflexivity;
    io_norm; rewrite ?if_same, ?app_nil_r; apply io_calls_primary_writes, Hev.
Qed.

Lemma write_without_medium_forgets_secondary_witness :
  secondary (world Sample.m_medium_gone) = None
  /\ fdoy (self Sample.m_medium_gone)
     = Z.of_nat (yday (utcnow (world Sample.m_medium_gone)))
  /\ contains BUFFERING (_state (self Sample.m_medium_gone)) = false
  /\ exists m' evs,
       write "2.0" Sample.m_medium_gone = (Val tt, m', evs)
       /\ fsecondary (self m') = None
       /\ contains DUAL_WRITE (_state (self m')) = false.
Proof.
  assert (H1 : secondary (world Sample.m_medium_gone) = None) by reflexivity.
  assert (H2 : fdoy (self Sample.m_medium_gone)
               = Z.of_nat (yday (utcnow (world Sample.m_medium_gone)))) by reflexivity.
  assert (H3 : contains BUFFERING (_state (self Sample.m_medium_gone)) = false)
    by reflexivity.
  destruct (write_without_medium_forgets_secondary "2.0" Sample.m_medium_gone H1 H2 H3)
    as (m' & evs & E & Hfs & _ & _ & Hd & _).
  split; [exact H1|]. split; [exact H2|]. split; [exact H3|].
  exists m', evs. auto.
Defined.



(** ** The steady state *)

Lemma string_app_nil_r (s : string) : s +:+ "" = s.
Proof.
  induction s as [|x s IH]; [reflexivity|].
  change (String x s +:+ "") with (String x (s +:+ "")). rewrite IH. reflexivity.
Qed.

Lemma write_lines_content s name texts w d c :
  store w s = Some d ->
  d !! name = Some (File c) ->
  lookup_entry (write_lines s name texts w) s name = Some (File (c +:+ joined texts)).
Proof.
  revert w d c. induction texts as [|t texts IH]; intros w d c Hd Hn.
  - cbn. unfold lookup_entry. rewrite Hd, Hn, string_app_nil_r. reflexivity.
  - unfold write_lines in *. cbn [fold_left joined fold_right].
    rewrite <- string_app_assoc.
    apply (IH _ (alter (append_text t) name d)).
    + rewrite store_write_text. destruct (decide (s = s)); [|contradiction].
      rewrite Hd. reflexivity.
    + rewrite lookup_alter_eq, Hn. reflexivity.
Qed.

Lemma write_lines_other_content s s' name texts w name' :
  s <> s' \/ name <> name' ->
  lookup_entry (write_lines s name texts w) s' name' = lookup_entry w s' name'.
Proof.
  revert w. induction texts as [|t texts IH]; intros w Hne; [reflexivity|].
  unfold write_lines in *. cbn [fold_left]. rewrite IH by exact Hne.
  unfold lookup_entry. rewrite store_write_text.
  destruct (decide (s = s')) as [<-|]; [|reflexivity].
  destruct (store w s) as [d|]; [|reflexivity]. cbn.
  apply lookup_alter_ne. destruct Hne; congruence.
Qed.

Lemma io_calls_writes s f (texts : list string) :
  io_calls (EvWrite s f <$> texts) = EvWrite s f <$> texts.
Proof.
  induction texts as [|t texts IH]; [reflexivity|].
  cbn [fmap list_fmap]. rewrite io_calls_cons. cbn [is_io app]. f_equal. exact IH.
Qed.

(** The second [try] statement of [write] in the steady state: the folder
    is there, no Sync Worker is underway, the secondary file object is open
    and its writes do not fail. *)
Lemma secondary_block_run ts data msg m g :
  is_Some (secondary (world m)) ->
  contains SYNCING_FILES (_state (self m)) = false ->
  fsecondary (self m) = Some g -> fclosed g = false ->
  fault (world m) (OpWrite Secondary (fbase g)) = false ->
  exists evs,
    try_except (write_secondary ts data) (fun _ => logging_exception msg) m
    = (Val tt,
       with_world
         (write_lines Secondary (fbase g) (map line (sbuffer m ++ [ts +:+ sep +:+ data]))
            (world m))
         (with_state (flag_set DUAL_WRITE (flag_set USB (_state (self m)))) m),
       evs)
    /\ io_calls evs = EvWrite Secondary g <$> map line (sbuffer m ++ [ts +:+ sep +:+ data]).
Proof.
  intros [d Hd] Hsync Hg Hgc Hgw.
  unfold try_except, write_secondary. rewrite bind_unfold, exists_folder_run.
  cbn [store]. rewrite Hd. cbn [truthy].
  rewrite bind_unfold, setflag_spec. unfold secondary_present.
  set (m2 := with_state (flag_set USB (_state (self m))) m).
  assert (Hsy2 : contains SYNCING_FILES (_state (self m2)) = false).
  { unfold m2. cbn [with_state self _state set_state].
    change SYNCING_FILES with (2 ^ 3). rewrite contains_after_set by lia.
    change (2 ^ 3) with SYNCING_FILES. rewrite Hsync. reflexivity. }
  rewrite bind_unfold. cbn [gets]. rewrite Hsy2.
  rewrite bind_unfold. cbn [gets].
  assert (Hg2 : fsecondary (self m2) = Some g) by exact Hg.
  rewrite Hg2. cbn [truthy negb]. unfold try_except.
  rewrite bind_unfold. cbn [get_sbuffer]. rewrite bind_unfold.
  rewrite (flush_run Fsecondary (sbuffer m2) m2 g Hg2 Hgc);
    [|cbn [slot_store store]; unfold m2; cbn [with_state world]; rewrite Hd; eauto
     |exact Hgw].
  rewrite bind_unfold.
  erewrite file_write_run; [|exact Hg2|exact Hgc| |].
  2:{ cbn [slot_store world with_world]. apply store_write_lines_some.
      cbn [store]. unfold m2. cbn [with_state world]. rewrite Hd. eauto. }
  2:{ cbn [slot_store world with_world]. rewrite fault_write_lines. exact Hgw. }
  rewrite setflag_spec.
  eexists. split.
  - f_equal. f_equal. unfold m2.
    cbn [with_world with_state self world sbuffer set_state _state slot_store].
    rewrite record_line, (map_app line (sbuffer m)), (write_lines_app Secondary).
    reflexivity.
  - io_norm. rewrite ?if_same, ?app_nil_r, !io_calls_writes. unfold m2.
    cbn [with_state sbuffer]. rewrite record_line, (map_app line (sbuffer m)), !fmap_app.
    reflexivity.
Qed.

Lemma steady_write_run data m f g :
  fdoy (self m) = Z.of_nat (yday (utcnow (world m))) ->
  contains BUFFERING (_state (self m)) = false ->
  contains SYNCING_FILES (_state (self m)) = false ->
  fprimary (self m) = Some f -> fclosed f = false ->
  is_Some (primary (world m)) ->
  fault (world m) (OpWrite Primary (fbase f)) = false ->
  fsecondary (self m) = Some g -> fclosed g = false ->
  is_Some (secondary (world m)) ->
  fault (world m) (OpWrite Secondary (fbase g)) = false ->
  exists evs,
    write data m = (Val tt, both_written data m f g, evs)
    /\ io_calls evs
       = (EvWrite Primary f
            <$> map line (databuffer (self m) ++ [record_at (utcnow (world m)) data]))
         ++ (EvWrite Secondary g
               <$> map line (databuffer (self m) ++ [record_at (utcnow (world m)) data])).
Proof.
  intros Hday Hbuf Hsync Hf Hfc Hp Hfw Hg Hgc Hs Hgw.
  rewrite (write_same_day data m Hday).
  unfold def, write_record, datetime_utcnow, record_at.
  repeat (rewrite bind_unfold; cbn [get_world mret M_ret put_sbuffer world self app]).
  unfold try_except at 1.
  rewrite (write_primary_run _ data (mkMachine (self m) (world m) []) f Hf Hfc Hp Hfw Hbuf).
  cbn [self world]. fold (record_at (utcnow (world m)) data).
  fold (primary_written data m f).
  destruct (secondary_block_run (epoch (utcnow (world m))) data
              "Unhandled exception in DualDataFile.write() secondary file"
              (primary_written data m f) g)
    as (evs2 & -> & Hio2).
  { unfold primary_written. cbn [world]. rewrite secondary_write_lines. exact Hs. }
  { exact Hsync. }
  { exact Hg. }
  { exact Hgc. }
  { unfold primary_written. cbn [world]. rewrite fault_write_lines. exact Hgw. }
  eexists. split; [reflexivity|].
  rewrite io_calls_app, io_calls_writes, Hio2. reflexivity.
Qed.

Lemma both_written_fields data m f g :
  contains USB (_state (self (both_written data m f g))) = true
  /\ contains DUAL_WRITE (_state (self (both_written data m f g))) = true
  /\ databuffer (self (both_written data m f g)) = []
  /\ fprimary (self (both_written data m f g)) = fprimary (self m)
  /\ fsecondary (self (both_written data m f g)) = fsecondary (self m)
  /\ alive (world (both_written data m f g)) = alive (world m).
Proof.
  unfold both_written. cbn [self world _state set_state set_databuffer databuffer
                            fprimary fsecondary].
  split; [|split; [|split; [|split; [|split]]]]; try reflexivity.
  - change USB with (2 ^ 1) at 1. rewrite !contains_after_set by lia.
    rewrite orb_true_r. reflexivity.
  - change DUAL_WRITE with (2 ^ 2) at 1. rewrite contains_after_set by lia.
    apply orb_true_r.
  - generalize (map line (databuffer (self m) ++ [record_at (utcnow (world m)) data])).
    intros l.
    assert (H : forall s n (l : list string) w, alive (write_lines s n l w) = alive w).
    { intros s n l0. induction l0 as [|t l0 IH]; intros w; [reflexivity|].
      unfold write_lines in *. cbn [fold_left]. rewrite IH. unfold write_text.
      destruct (store w s); destruct w, s; reflexivity. }
    rewrite !H. reflexivity.
Qed.

Lemma both_written_content data m f g :
  (forall c,
     lookup_entry (world m) Primary (fbase f) = Some (File c) ->
     lookup_entry (world (both_written data m f g)) Primary (fbase f)
     = Some (File (c +:+ joined (map line (databuffer (self m)
                                            ++ [record_at (utcnow (world m)) data])))))
  /\ (forall c,
        lookup_entry (world m) Secondary (fbase g) = Some (File c) ->
        lookup_entry (world (both_written data m f g)) Secondary (fbase g)
        = Some (File (c +:+ joined (map line (databuffer (self m)
                                               ++ [record_at (utcnow (world m)) data]))))).
Proof.
  unfold both_written. cbn [world]. split.
  - intros c Hc. rewrite write_lines_other_content by (left; discriminate).
    unfold lookup_entry in Hc. destruct (store (world m) Primary) as [dp|] eqn:Hdp;
      [|discriminate].
    apply (write_lines_content Primary _ _ _ dp); assumption.
  - intros c Hc. unfold lookup_entry in Hc.
    destruct (store (world m) Secondary) as [ds|] eqn:Hds; [|discriminate].
    apply (write_lines_content Secondary _ _ _ ds); [|exact Hc].
    rewrite store_write_lines_other by discriminate. exact Hds.
Qed.

(** X6. A [write] in the steady state (no rotation due, BUFFERING and
    SYNCING_FILES clear, both file objects open on folders that are there,
    no write failing) writes the pending records and then the new one to
    the primary file and the same lines, in the same order, to the
    secondary file: each of the two files ends with the text it had before
    followed by these lines; USB and DUAL_WRITE are set and the pending
    buffer is empty afterwards. *)
Theorem steady_write_reaches_both_destinations
    (data : string) (m : Machine) (f g : FileObj) :
  fdoy (self m) = Z.of_nat (yday (utcnow (world m))) ->
  contains BUFFERING (_state (self m)) = false ->
  contains SYNCING_FILES (_state (self m)) = false ->
  fprimary (self m) = Some f -> fclosed f = false ->
  is_Some (primary (world m)) ->
  fault (world m) (OpWrite Primary (fbase f)) = false ->
  fsecondary (self m) = Some g -> fclosed g = false ->
  is_Some (secondary (world m)) ->
  fault (world m) (OpWrite Secondary (fbase g)) = false ->
  exists m' evs,
    write data m = (Val tt, m', evs)
    /\ io_calls evs
       = (EvWrite Primary f
            <$> map line (databuffer (self m) ++ [record_at (utcnow (world m)) data]))
         ++ (EvWrite Secondary g
               <$> map line (databuffer (self m) ++ [record_at (utcnow (world m)) data]))
    /\ (forall c,
          lookup_entry (world m) Primary (fbase f) = Some (File c) ->
          lookup_entry (world m') Primary (fbase f)
          = Some (File (c +:+ joined (map line (databuffer (self m)
                                                 ++ [record_at (utcnow (world m)) data])))))
    /\ (forall c,
          lookup_entry (world m) Secondary (fbase g) = Some (File c) ->
          lookup_entry (world m') Secondary (fbase g)
          = Some (File (c +:+ joined (map line (databuffer (self m)
                                                 ++ [record_at (utcnow (world m)) data])))))
    /\ contains USB (_state (self m')) = true
    /\ contains DUAL_WRITE (_state (self m')) = true
    /\ databuffer (self m') = []
    /\ fprimary (self m') = Some f
    /\ fsecondary (self m') = Some g.
Proof.
  intros Hday Hbuf Hsync Hf Hfc Hp Hfw Hg Hgc Hs Hgw.
  destruct (steady_write_run data m f g Hday Hbuf Hsync Hf Hfc Hp Hfw Hg Hgc Hs Hgw)
    as (evs & E & Hio).
  destruct (both_written_fields data m f g) as (Hu & Hd & Hdb & Hfp & Hfs & _).
  destruct (both_written_content data m f g) as (Hcp & Hcs).
  exists (both_written data m f g), evs.
  split; [exact E|]. split; [exact Hio|]. split; [exact Hcp|]. split; [exact Hcs|].
  split; [exact Hu|]. split; [exact Hd|]. split; [exact Hdb|].
  split; congruence.
Qed.

Lemma steady_write_reaches_both_destinations_witness :
  fdoy (self Sample.m_flush) = Z.of_nat (yday (utcnow (world Sample.m_flush)))
  /\ contains BUFFERING (_state (self Sample.m_flush)) = false
  /\ contains SYNCING_FILES (_state (self Sample.m_flush)) = false
  /\ fprimary (self Sample.m_flush) = Some Sample.fp
  /\ fclosed Sample.fp = false
  /\ is_Some (primary (world Sample.m_flush))
  /\ fault (world Sample.m_flush) (OpWrite Primary (fbase Sample.fp)) = false
  /\ fsecondary (self Sample.m_flush) = Some Sample.fs
  /\ fclosed Sample.fs = false
  /\ is_Some (secondary (world Sample.m_flush))
  /\ fault (world Sample.m_flush) (OpWrite Secondary (fbase Sample.fs)) = false
  /\ exists m' evs,
       write "1.1" Sample.m_flush = (Val tt, m', evs)
       /\ contains DUAL_WRITE (_state (self m')) = true
       /\ databuffer (self m') = [].
Proof.
  assert (H1 : fdoy (self Sample.m_flush)
               = Z.of_nat (yday (utcnow (world Sample.m_flush)))) by reflexivity.
  assert (H2 : contains BUFFERING (_state (self Sample.m_flush)) = false) by reflexivity.
  assert (H3 : contains SYNCING_FILES (_state (self Sample.m_flush)) = false)
    by reflexivity.
  assert (H4 : fprimary (self Sample.m_flush) = Some Sample.fp) by reflexivity.
  assert (H5 : fclosed Sample.fp = false) by reflexivity.
  assert (H6 : is_Some (primary (world Sample.m_flush))) by (eexists; reflexivity).
  assert (H7 : fault (world Sample.m_flush) (OpWrite Primary (fbase Sample.fp)) = false)
    by reflexivity.
  assert (H8 : fsecondary (self Sample.m_flush) = Some Sample.fs) by reflexivity.
  assert (H9 : fclosed Sample.fs = false) by reflexivity.
  assert (H10 : is_Some (secondary (world Sample.m_flush))) by (eexists; reflexivity).
  assert (H11 : fault (world Sample.m_flush) (OpWrite Secondary (fbase Sample.fs)) = false)
    by reflexivity.
  destruct (steady_write_reaches_both_destinations "1.1" Sample.m_flush Sample.fp Sample.fs
              H1 H2 H3 H4 H5 H6 H7 H8 H9 H10 H11)
    as (m' & evs & E & _ & _ & _ & _ & Hd & Hdb & _).
  repeat (split; [assumption|]).
  exists m', evs. auto.
Defined.

(** ** A primary write that fails *)

(** The first [try] statement of [write] when the write to the primary
    file fails: the exception is logged and nothing has changed. *)
Lemma primary_block_fails ts data msg m f :
  fprimary (self m) = Some f ->
  contains BUFFERING (_state (self m)) = false ->
  sbuffer m = [] ->
  fclosed f = true \/ primary (world m) = None
  \/ fault (world m) (OpWrite Primary (fbase f)) = true ->
  exists text,
    try_except (write_primary ts data) (fun _ => logging_exception msg) m
    = (Val tt, m, [EvWrite Primary f text; EvLog ERROR msg])
    /\ text = line (hd (ts +:+ sep +:+ data) (databuffer (self m))).
Proof.
  intros Hf Hbuf Hsb Hfail. unfold try_except, write_primary.
  rewrite bind_unfold. cbn [gets]. rewrite Hf. cbn [truthy when].
  rewrite bind_unfold. cbn [gets]. rewrite Hbuf. rewrite bind_unfold. cbn [gets].
  destruct (databuffer (self m)) as [|b rest] eqn:Hdb.
  - run. rewrite Hdb. run.
    assert (Hm : mkMachine (set_databuffer [] (self m)) (world m) [] = m).
    { destruct m as [d w sb]. cbn in *. subst sb. f_equal. rewrite <- Hdb.
      destruct d; reflexivity. }
    rewrite Hm.
    destruct (file_write_fails Fprimary (ts +:+ sep +:+ data +:+ newline) m f Hf Hfail)
      as (e & ->).
    cbn. eexists. split; [reflexivity|]. apply record_line.
  - cbn [for_each]. rewrite !bind_unfold.
    destruct (file_write_fails Fprimary (b +:+ newline) m f Hf Hfail) as (e & ->).
    cbn. eexists. split; reflexivity.
Qed.

Global Instance pending_kept_refl : Reflexive pending_kept.
Proof. intros m. split; reflexivity. Qed.

Global Instance pending_kept_trans : Transitive pending_kept.
Proof. intros m1 m2 m3 [? ?] [? ?]. split; congruence. Qed.

Ltac pending_kept_side :=
  idtac;
  lazymatch goal with
  | |- pending_kept ?m _ => destruct m as [[] [] ?]; split; reflexivity
  end.

Lemma secondary_block_pending_kept ts data msg :
  frames pending_kept (try_except (write_secondary ts data)
                         (fun _ => logging_exception msg)).
Proof.
  unfold write_secondary, secondary_present, secondary_absent, _offload_sync,
    _setflag, _clearflag, _notify_newstate, _exists, file_write, Thread_new, Thread_start.
  cbn [slot_get slot_store].
  frames_by pending_kept_side.
Qed.

Lemma secondary_block_falls ts data msg :
  falls_or true false (try_except (write_secondary ts data)
                         (fun _ => logging_exception msg)).
Proof.
  unfold write_secondary, secondary_present, secondary_absent. fall_solve.
Qed.

Lemma written_io s evs : written s evs = written s (io_calls evs).
Proof.
  induction evs as [|ev evs IH]; [reflexivity|].
  rewrite io_calls_cons, written_cons, written_app, <- IH.
  destruct ev; cbn [is_io]; rewrite ?written_nil, ?written_cons, ?app_nil_r;
    reflexivity.
Qed.



(** ** The file name and the day the workers read from it *)

Lemma fields_of_4 : forallb (field_ok 4) (seq 0 (10 ^ 4)) = true.
Proof. vm_compute. reflexivity. Qed.

Lemma fields_of_3 : forallb (field_ok 3) (seq 0 1000) = true.
Proof. vm_compute. reflexivity. Qed.

Lemma fields_of_2 : forallb (field_ok 2) (seq 0 100) = true.
Proof. vm_compute. reflexivity. Qed.

Lemma field_shape (width bound n : nat) :
  forallb (field_ok width) (seq 0 bound) = true ->
  (n < bound)%nat ->
  String.length (zfill width (decimal n)) = width
  /\ all_digits (zfill width (decimal n)) = true.
Proof.
  intros Hall Hn. rewrite forallb_forall in Hall.
  specialize (Hall n). unfold field_ok in Hall.
  rewrite andb_true_iff, Nat.eqb_eq in Hall. apply Hall.
  apply in_seq. lia.
Qed.

Lemma strip_prefix_app p s : strip_prefix p (p +:+ s) = Some s.
Proof.
  induction p as [|a p IH]; [reflexivity|].
  change (String a p +:+ s) with (String a (p +:+ s)).
  cbn [strip_prefix]. rewrite Ascii.eqb_refl. exact IH.
Qed.

Lemma substring_skip p k l s :
  substring (String.length p + k) l (p +:+ s) = substring k l s.
Proof.
  induction p as [|a p IH]; [reflexivity|].
  change (String a p +:+ s) with (String a (p +:+ s)). exact IH.
Qed.

Lemma length_app_string (a b : string) :
  String.length (a +:+ b) = (String.length a + String.length b)%nat.
Proof.
  induction a as [|x a IH]; [reflexivity|].
  change (String x a +:+ b) with (String x (a +:+ b)). cbn [String.length]. rewrite IH.
  reflexivity.
Qed.

Lemma all_digits_app (a b : string) :
  all_digits (a +:+ b) = all_digits a && all_digits b.
Proof.
  induction a as [|x a IH]; [reflexivity|].
  change (String x a +:+ b) with (String x (a +:+ b)). cbn [all_digits]. rewrite IH.
  apply andb_assoc.
Qed.

Lemma substring_all (s t : string) :
  substring 0 (String.length s) (s +:+ t) = s.
Proof.
  induction s as [|x s IH]; [destruct t; reflexivity|].
  change (String x s +:+ t) with (String x (s +:+ t)). cbn [String.length substring].
  rewrite IH. reflexivity.
Qed.

(** The digits of [%Y%j%H%M] for a time of the calendar. *)
Lemma stamp_shape (dt : DateTime) :
  (year dt < 10 ^ 4)%nat -> (yday dt < 1000)%nat ->
  (hour dt < 100)%nat -> (minute dt < 100)%nat ->
  String.length (strftime_YjHM dt) = 11%nat
  /\ all_digits (strftime_YjHM dt) = true
  /\ substring 4 3 (strftime_YjHM dt +:+ ".txt") = zfill 3 (decimal (yday dt)).
Proof.
  intros Hy Hj Hh Hm. unfold strftime_YjHM.
  destruct (field_shape 4 _ _ fields_of_4 Hy) as [Ly Dy].
  destruct (field_shape 3 _ _ fields_of_3 Hj) as [Lj Dj].
  destruct (field_shape 2 _ _ fields_of_2 Hh) as [Lh Dh].
  destruct (field_shape 2 _ _ fields_of_2 Hm) as [Lm Dm].
  set (Y := zfill 4 _) in *. set (J := zfill 3 _) in *.
  set (H := zfill 2 (decimal (hour dt))) in *. set (N := zfill 2 (decimal (minute dt))) in *.
  split; [rewrite !length_app_string, Ly, Lj, Lh, Lm; reflexivity|].
  split; [rewrite !all_digits_app, Dy, Dj, Dh, Dm; reflexivity|].
  rewrite !string_app_assoc.
  change 4%nat with (4 + 0)%nat. rewrite <- Ly at 1. rewrite substring_skip.
  rewrite <- Lj at 1. apply substring_all.
Qed.



(** ** What a run of the Sync Worker achieves *)

Lemma sync_entry_world_spec doy name node m :
  lookup_entry (world m) Primary name = Some node ->
  world (sync_entry doy (entry_of (name, node)) m).1.2
  = sync_entry_world (self m) doy (world m) (name, node).
Proof.
  intros Hnode.
  unfold sync_entry, sync_try, sync_entry_world, sync_wanted, name_day, try_except.
  cbn [fst snd].
  destruct node as [c|z]; [|reflexivity].
  rewrite bind_unfold. cbn [gets entry_of eis_file ename fst snd andb].
  destruct (data_file_match (file_prefix (self m)) name); cbn [andb]; [|reflexivity].
  rewrite bind_unfold. unfold int.
  destruct (int_of_string (slice_from_end 11 8 name)) as [fdoy|].
  2:{ run. rewrite clearflag_run. reflexivity. }
  cbn [mret M_ret]. rewrite bind_unfold.
  change (mkEntry name true) with (entry_of (name, File c)).
  rewrite (sync_stale_run doy fdoy name c m Hnode).
  destruct ((doy - fdoy <? max_sync (self m)) && copy_stale (world m) name c);
    cbn [andb when]; [|reflexivity].
  unfold sync_copy, entry_of. cbn [ename fst snd]. run.
  destruct (doy =? fdoy); run.
  - rewrite setflag_spec. run. rewrite shutil_copyfile_run.
    cbn [with_state self world _state set_state].
    destruct (copy_ok (world m) name); run; rewrite clearflag_run; reflexivity.
  - rewrite shutil_copyfile_run.
    destruct (copy_ok (world m) name); run; [reflexivity|].
    rewrite clearflag_run. reflexivity.
Qed.

Lemma sync_wanted_state s d w doy name node :
  sync_wanted (set_state s d) w doy name node = sync_wanted d w doy name node.
Proof. reflexivity. Qed.

Lemma sync_loop_world_spec doy m0 (kvs : list (string * Node)) :
  forall m,
    (forall kv, In kv kvs -> lookup_entry (world m0) Primary kv.1 = Some kv.2) ->
    self m = set_state (_state (self m)) (self m0) ->
    contains BUFFERING (_state (self m)) = false ->
    primary (world m) = primary (world m0) ->
    world (for_each (entry_of <$> kvs) (sync_entry doy) m).1.2
    = sync_loop_world (self m0) doy kvs (world m).
Proof.
  induction kvs as [|[name node] kvs IH]; intros m Hprim Hself Hbuf Hp; [reflexivity|].
  assert (Hnode : lookup_entry (world m) Primary name = Some node).
  { unfold lookup_entry. cbn [store]. rewrite Hp. apply (Hprim (name, node)). left. reflexivity. }
  pose proof (sync_entry_world_spec doy name node m Hnode) as Hw.
  destruct (sync_entry_spec doy name node m Hnode Hbuf)
    as (m1 & evs1 & E1 & (Hs1 & Hb1 & Hw1 & _) & _).
  rewrite E1 in Hw. cbn [fst snd] in Hw.
  cbn [fmap list_fmap for_each]. rewrite bind_unfold, E1.
  specialize (IH m1).
  destruct (for_each (entry_of <$> kvs) (sync_entry doy) m1) as [[o m2] evs2].
  cbn [fst snd] in *. rewrite IH.
  - unfold sync_loop_world. cbn [fold_left]. rewrite Hw, Hself. reflexivity.
  - intros kv Hkv. apply Hprim. right. exact Hkv.
  - rewrite Hs1, Hself. reflexivity.
  - exact Hb1.
  - rewrite Hw1. cbn. destruct (world m); exact Hp.
Qed.

Lemma sync_wanted_ext d d' w w' doy name node :
  file_prefix d' = file_prefix d -> max_sync d' = max_sync d ->
  lookup_entry w' Secondary name = lookup_entry w Secondary name ->
  sync_wanted d' w' doy name node = sync_wanted d w doy name node.
Proof.
  intros Hp Hm Hl. unfold sync_wanted, copy_stale. rewrite Hp, Hm, Hl. reflexivity.
Qed.

Lemma sync_wanted_file d w doy name node :
  sync_wanted d w doy name node = true -> exists c, node = File c.
Proof. destruct node as [c|z]; [eauto|discriminate]. Qed.

(** A file that has a secondary copy of its own size is not copied. *)
Lemma sync_wanted_current d w doy name c c' :
  lookup_entry w Secondary name = Some (File c') ->
  String.length c' = String.length c ->
  sync_wanted d w doy name (File c) = false.
Proof.
  intros Hl Hlen. unfold sync_wanted, copy_stale. rewrite Hl. cbn [node_size].
  rewrite Hlen, Z.eqb_refl. cbn [negb].
  destruct (name_day name); rewrite ?andb_false_r; reflexivity.
Qed.

(** A file that is not to be copied although it has no secondary copy is
    not to be copied whatever the secondary folder holds. *)
Lemma sync_wanted_missing d w w' doy name node :
  lookup_entry w Secondary name = None ->
  sync_wanted d w doy name node = false ->
  sync_wanted d w' doy name node = false.
Proof.
  unfold sync_wanted, copy_stale. intros ->. destruct node as [c|z]; [|reflexivity].
  destruct (data_file_match (file_prefix d) name); [|reflexivity].
  destruct (name_day name) as [fdoy|]; [|reflexivity].
  destruct (doy - fdoy <? max_sync d); [discriminate|reflexivity].
Qed.

Lemma sync_loop_secondary d doy dir (kvs : list (string * Node)) :
  forall w s,
    NoDup (map fst kvs) ->
    (forall kv, In kv kvs -> dir !! kv.1 = Some kv.2) ->
    primary w = Some dir ->
    secondary w = Some s ->
    (forall name, fault w (OpCopy name) = false) ->
    (forall kv z, In kv kvs -> s !! kv.1 <> Some (Dir z)) ->
    exists s',
      sync_loop_world d doy kvs w = set_store Secondary (Some s') w
      /\ (forall name, ~ In name (map fst kvs) -> s' !! name = s !! name)
      /\ (forall name node, In (name, node) kvs ->
            s' !! name = if sync_wanted d w doy name node then Some node else s !! name).
Proof.
  induction kvs as [|[n0 node0] kvs IH]; intros w s Hnd Hdir Hp Hs Hf Hnodir.
  - exists s. split; [|split; [reflexivity|intros ? ? []]].
    cbn. rewrite <- Hs. symmetry. apply (set_store_same Secondary).
  - cbn [map fst] in Hnd. apply NoDup_cons in Hnd as [Hfresh Hnd].
    assert (Hfresh' : ~ In n0 (map fst kvs))
      by (intros Hin; apply Hfresh, list_elem_of_In, Hin).
    set (s1 := if sync_wanted d w doy n0 node0 then <[n0 := node0]> s else s).
    assert (Hstep : sync_entry_world d doy w (n0, node0) = set_store Secondary (Some s1) w).
    { unfold sync_entry_world, s1. cbn [fst snd].
      destruct (sync_wanted d w doy n0 node0) eqn:Hw; cbn [andb].
      - destruct (sync_wanted_file _ _ _ _ _ Hw) as [c ->].
        assert (Hl : lookup_entry w Primary n0 = Some (File c)).
        { unfold lookup_entry. cbn [store]. rewrite Hp. apply (Hdir (n0, File c)). left.
          reflexivity. }
        unfold copy_ok, copied. rewrite Hl, Hs.
        destruct (s !! n0) as [[c'|z]|] eqn:E; rewrite ?Hf; cbn [negb]; try reflexivity.
        exfalso. apply (Hnodir (n0, File c) z); [left; reflexivity|exact E].
      - rewrite <- Hs. symmetry. apply (set_store_same Secondary). }
    assert (Hother : forall name, name <> n0 -> s1 !! name = s !! name).
    { intros name Hne. unfold s1. destruct (sync_wanted d w doy n0 node0); [|reflexivity].
      apply lookup_insert_ne. congruence. }
    destruct (IH (set_store Secondary (Some s1) w) s1 Hnd) as (s' & E & Hout & Hin).
    + intros kv Hkv. apply Hdir. right. exact Hkv.
    + exact Hp.
    + reflexivity.
    + exact Hf.
    + intros [name node] z Hkv. cbn [fst]. rewrite Hother.
      * apply (Hnodir (name, node) z). right. exact Hkv.
      * intros ->. apply Hfresh'. apply (in_map fst _ _ Hkv).
    + exists s'. split; [|split].
      * unfold sync_loop_world in *. cbn [fold_left]. rewrite Hstep, E.
        destruct w; reflexivity.
      * intros name Hn. cbn [map fst] in Hn.
        rewrite Hout by (intros H; apply Hn; right; exact H).
        apply Hother. intros ->. apply Hn. left. reflexivity.
      * intros name node [Hkv|Hkv].
        -- injection Hkv as <- <-. rewrite (Hout n0 Hfresh'). unfold s1.
           destruct (sync_wanted d w doy n0 node0); [apply lookup_insert_eq|reflexivity].
        -- assert (Hne : name <> n0).
           { intros ->. apply Hfresh'. apply (in_map fst _ _ Hkv). }
           rewrite (Hin name node Hkv), (Hother name Hne).
           rewrite (sync_wanted_ext d d w (set_store Secondary (Some s1) w) doy name node);
             [reflexivity|reflexivity|reflexivity|].
           unfold lookup_entry. cbn [store set_store secondary]. rewrite Hs.
           apply Hother, Hne.
Qed.

Lemma lookup_create_file s n w s' name x :
  lookup_entry w s' name = Some x ->
  lookup_entry (create_file s n w) s' name = Some x.
Proof.
  unfold lookup_entry, create_file. intros H.
  destruct (store w s) as [d|] eqn:Hd; [|exact H].
  destruct (d !! n) eqn:Hn; [exact H|].
  destruct (decide (s = s')) as [<-|Hne].
  - rewrite Hd in H. destruct w, s; cbn in *; rewrite lookup_insert_ne; congruence.
  - destruct w, s, s'; try congruence; exact H.
Qed.

Lemma opened_secondary_world m :
  world (opened_secondary m) = world m
  \/ exists n, world (opened_secondary m) = create_file Secondary n (world m).
Proof.
  unfold opened_secondary. case_all; cbn [world with_state with_self with_world]; eauto.
Qed.

Lemma opened_secondary_config m :
  file_prefix (self (opened_secondary m)) = file_prefix (self m)
  /\ max_sync (self (opened_secondary m)) = max_sync (self m).
Proof. unfold opened_secondary. case_all; split; reflexivity. Qed.

(** The loop of [_sync] with a medium in place on which no copy fails. *)
Lemma sync_loop_result doy m dir sec :
  primary (world m) = Some dir ->
  secondary (world m) = Some sec ->
  contains BUFFERING (_state (self m)) = false ->
  (forall name, fault (world m) (OpCopy name) = false) ->
  (forall name z, sec !! name = Some (Dir z) -> dir !! name = None) ->
  exists mL evsL sL,
    for_each (entry_of <$> map_to_list dir) (sync_entry doy) m = (Val tt, mL, evsL)
    /\ self mL = set_state (_state (self mL)) (self m)
    /\ contains BUFFERING (_state (self mL)) = false
    /\ world mL = set_store Secondary (Some sL) (world m)
    /\ (forall name c, dir !! name = Some (File c) ->
          sync_wanted (self m) (world m) doy name (File c) = true ->
          sL !! name = Some (File c))
    /\ (forall name node, dir !! name = Some node ->
          sync_wanted (self m) (world mL) doy name node = false).
Proof.
  intros Hdir Hsec Hbuf Hfault Hnodir.
  assert (Hprim : forall kv, In kv (map_to_list dir) ->
            lookup_entry (world m) Primary kv.1 = Some kv.2).
  { intros [name node] Hin. apply list_elem_of_In, elem_of_map_to_list in Hin.
    unfold lookup_entry. cbn [store fst snd]. rewrite Hdir. exact Hin. }
  destruct (sync_loop_spec doy m (map_to_list dir) [] m)
    as (mL & evsL & E & (Hself & HbL & _) & _).
  { apply (NoDup_fst_map_to_list dir). }
  { intros n []. }
  { exact Hprim. }
  { apply sync_inv_same, Hbuf. }
  pose proof (sync_loop_world_spec doy m (map_to_list dir) m Hprim
                (eq_sym (set_state_same _)) Hbuf eq_refl) as Hw.
  rewrite E in Hw. cbn [fst snd] in Hw.
  destruct (sync_loop_secondary (self m) doy dir (map_to_list dir) (world m) sec)
    as (sL & HwL & _ & Hin); try assumption.
  { apply (NoDup_fst_map_to_list dir). }
  { intros [name node] Hkv. apply list_elem_of_In, elem_of_map_to_list in Hkv. exact Hkv. }
  { intros [name node] z Hkv Hz. apply list_elem_of_In, elem_of_map_to_list in Hkv.
    cbn [fst] in *. apply Hnodir in Hz. congruence. }
  rewrite HwL in Hw.
  exists mL, evsL, sL. split; [exact E|]. split; [exact Hself|]. split; [exact HbL|].
  split; [exact Hw|].
  assert (Hl : forall name, lookup_entry (world mL) Secondary name = sL !! name).
  { intros name. rewrite Hw. reflexivity. }
  split.
  - intros name c Hn Hwant.
    rewrite (Hin name (File c)), Hwant; [reflexivity|].
    apply list_elem_of_In, elem_of_map_to_list. exact Hn.
  - intros name node Hn.
    assert (Hkv : In (name, node) (map_to_list dir))
      by (apply list_elem_of_In, elem_of_map_to_list; exact Hn).
    specialize (Hin name node Hkv).
    destruct (sync_wanted (self m) (world m) doy name node) eqn:Hwant.
    + destruct (sync_wanted_file _ _ _ _ _ Hwant) as [c ->].
      apply (sync_wanted_current _ _ _ _ c c); [rewrite Hl; exact Hin|reflexivity].
    + rewrite <- Hwant. apply sync_wanted_ext; [reflexivity..|].
      rewrite Hl, Hin. unfold lookup_entry. cbn [store]. rewrite Hsec. reflexivity.
Qed.

Lemma filter_none {A} (f : A -> bool) (l : list A) :
  (forall x, In x l -> f x = false) -> List.filter f l = [].
Proof.
  induction l as [|x l IH]; intros H; [reflexivity|].
  cbn [List.filter]. rewrite (H x) by (left; reflexivity).
  apply IH. intros y Hy. apply H. right. exact Hy.
Qed.

Lemma sync_loop_can_open doy m dir name :
  primary (world m) = Some dir ->
  contains BUFFERING (_state (self m)) = false ->
  can_open (world (for_each (entry_of <$> map_to_list dir) (sync_entry doy) m).1.2)
    Secondary name
  = can_open (world m) Secondary name.
Proof.
  intros Hdir Hbuf.
  destruct (sync_loop_spec doy m (map_to_list dir) [] m) as (mL & evsL & E & Hinv & _).
  { apply (NoDup_fst_map_to_list dir). }
  { intros n []. }
  { intros [n node] Hin. apply list_elem_of_In, elem_of_map_to_list in Hin.
    unfold lookup_entry. cbn [store fst snd]. rewrite Hdir. exact Hin. }
  { apply sync_inv_same, Hbuf. }
  rewrite E. cbn [fst snd]. apply (sync_inv_can_open _ m mL name Hinv).
Qed.

Lemma opened_secondary_kept m :
  fprimary (self (opened_secondary m)) = fprimary (self m)
  /\ fdoy (self (opened_secondary m)) = fdoy (self m)
  /\ databuffer (self (opened_secondary m)) = databuffer (self m)
  /\ fault (world (opened_secondary m)) = fault (world m)
  /\ utcnow (world (opened_secondary m)) = utcnow (world m)
  /\ alive (world (opened_secondary m)) = alive (world m)
  /\ (is_Some (secondary (world (opened_secondary m))) <-> is_Some (secondary (world m))).
Proof.
  assert (Hw : world (opened_secondary m) = world m
               \/ exists n, world (opened_secondary m) = create_file Secondary n (world m))
    by apply opened_secondary_world.
  repeat split.
  - unfold opened_secondary. destruct (secondary (world m)); [|reflexivity].
    destruct (fprimary (self m)) as [f|] eqn:Hf; [|exact Hf].
    destruct (can_open _ _ _); exact Hf.
  - unfold opened_secondary.
    repeat match goal with
           | |- context [if ?b then _ else _] => destruct b
           | |- context [match ?x with _ => _ end] => destruct x
           end; reflexivity.
  - unfold opened_secondary.
    repeat match goal with
           | |- context [if ?b then _ else _] => destruct b
           | |- context [match ?x with _ => _ end] => destruct x
           end; reflexivity.
  - destruct Hw as [-> | [n ->]]; rewrite ?fault_create_file; reflexivity.
  - destruct Hw as [-> | [n ->]]; rewrite ?utcnow_create_file; reflexivity.
  - destruct Hw as [-> | [n ->]]; [reflexivity|apply threads_create_file].
  - destruct Hw as [-> | [n ->]]; [tauto|].
    apply (store_create_file_some Secondary n (world m) Secondary).
  - destruct Hw as [-> | [n ->]]; [tauto|].
    apply (store_create_file_some Secondary n (world m) Secondary).
Qed.

(** A run of [_sync] with the medium in place on which no copy fails. *)
Lemma sync_run_result m dir sec :
  primary (world m) = Some dir ->
  secondary (world m) = Some sec ->
  contains BUFFERING (_state (self m)) = false ->
  (forall name, fault (world m) (OpCopy name) = false) ->
  (forall name z, sec !! name = Some (Dir z) -> dir !! name = None) ->
  exists mF evs,
    _sync m = (Val tt, mF, evs)
    /\ (primary (world mF) = Some dir
        /\ is_Some (secondary (world mF))
        /\ fault (world mF) = fault (world m)
        /\ utcnow (world mF) = utcnow (world m)
        /\ alive (world mF) = alive (world m))
    /\ (file_prefix (self mF) = file_prefix (self m)
        /\ max_sync (self mF) = max_sync (self m)
        /\ fprimary (self mF) = fprimary (self m)
        /\ fdoy (self mF) = fdoy (self m)
        /\ databuffer (self mF) = databuffer (self m))
    /\ (contains BUFFERING (_state (self mF)) = false
        /\ contains SYNCING_FILES (_state (self mF)) = false
        /\ sync_thread (self mF) = None)
    /\ (forall f, fprimary (self m) = Some f ->
          can_open (world m) Secondary (fbase f) = true ->
          fsecondary (self mF) = Some (mkFile (fbase f) false))
    /\ (forall name c,
          dir !! name = Some (File c) ->
          sync_wanted (self m) (world m) (Z.of_nat (yday (utcnow (world m)))) name (File c)
          = true ->
          lookup_entry (world mF) Secondary name = Some (File c))
    /\ (forall name node,
          dir !! name = Some node ->
          sync_wanted (self mF) (world mF) (Z.of_nat (yday (utcnow (world m)))) name node
          = false).
Proof.
  intros Hdir Hsec Hbuf Hfault Hnodir.
  set (doy := Z.of_nat (yday (utcnow (world m)))).
  pose proof (fun name => sync_loop_can_open doy m dir name Hdir Hbuf) as Hcan.
  destruct (sync_loop_result doy m dir sec Hdir Hsec Hbuf Hfault Hnodir)
    as (mL & evsL & sL & E & Hself & HbL & HwL & Hcopied & Hcurrent).
  rewrite E in Hcan. cbn [fst snd] in Hcan.
  unfold _sync. run. rewrite doy_run. run. rewrite Hdir. run. fold doy. rewrite E. run.
  rewrite clearflag_run. run.
  match goal with |- context [open true ?m3'] => set (m3 := m3') end.
  destruct (open_secondary_spec m3) as (evs3 & -> & _ & _).
  destruct (opened_secondary_fields m3) as (Hth3 & Hb3 & Hs3 & Hfs3 & _).
  destruct (opened_secondary_config m3) as (Hpre & Hmax).
  destruct (opened_secondary_kept m3) as (Hfp3 & Hfd3 & Hdb3 & Hfa3 & Hut3 & Hal3 & Hse3).
  pose proof (opened_secondary_world m3) as HwF.
  set (mF := opened_secondary m3) in *.
  assert (Hw3 : world m3 = world mL) by reflexivity.
  assert (Hself3 : self m3 = set_state (_state (self m3)) (set_sync_thread None (self m))).
  { unfold m3. cbn [self with_state with_self set_state _state]. rewrite Hself.
    reflexivity. }
  rewrite Hw3 in HwF.
  assert (HpF : primary (world mF) = Some dir).
  { destruct HwF as [-> | [n ->]]; rewrite HwL.
    - exact Hdir.
    - change (primary ?w) with (store w Primary).
      rewrite (store_create_file_other Secondary Primary) by discriminate. exact Hdir. }
  assert (Hkeep : forall name x, lookup_entry (world mL) Secondary name = Some x ->
            lookup_entry (world mF) Secondary name = Some x).
  { intros name x Hx.
    destruct HwF as [-> | [n ->]]; [exact Hx|apply lookup_create_file, Hx]. }
  assert (HpreF : file_prefix (self mF) = file_prefix (self m))
    by (rewrite Hpre, Hself3; reflexivity).
  assert (HmaxF : max_sync (self mF) = max_sync (self m))
    by (rewrite Hmax, Hself3; reflexivity).
  eexists mF, _. split; [reflexivity|].
  split; [|split; [|split; [|split; [|split]]]].
  - split; [exact HpF|]. split; [apply Hse3; rewrite Hw3, HwL; cbn; eauto|].
    rewrite Hfa3, Hut3, Hal3, Hw3, HwL. repeat split; reflexivity.
  - split; [exact HpreF|]. split; [exact HmaxF|].
    rewrite Hfp3, Hfd3, Hdb3, Hself3. repeat split; reflexivity.
  - split; [|split].
    + rewrite Hb3. unfold m3. cbn [self with_state with_self _state set_state].
      change BUFFERING with (2 ^ 5). rewrite contains_after_clear by lia.
      change (2 ^ 5) with BUFFERING. rewrite HbL. reflexivity.
    + apply Hs3. unfold m3. cbn [self with_state with_self _state set_state].
      change SYNCING_FILES with (2 ^ 3). unfold flag_cleared.
      rewrite contains_after_clear by lia. apply andb_false_r.
    + rewrite Hth3. reflexivity.
  - intros f Hf Hopen. apply Hfs3.
    + rewrite Hw3, HwL. cbn. eauto.
    + rewrite Hself3. exact Hf.
    + rewrite Hw3, Hcan. exact Hopen.
  - intros name c Hn Hwant. apply Hkeep. rewrite HwL. apply (Hcopied name c Hn Hwant).
  - intros name node Hn. specialize (Hcurrent name node Hn).
    destruct (lookup_entry (world mL) Secondary name) as [x|] eqn:Hx.
    + rewrite <- Hcurrent. apply sync_wanted_ext; [exact HpreF|exact HmaxF|].
      rewrite Hx. apply Hkeep, Hx.
    + apply (sync_wanted_missing _ (world mL) _ _ _ _ Hx).
      rewrite <- Hcurrent. apply sync_wanted_ext; [exact HpreF|exact HmaxF|reflexivity].
Qed.



Global Instance primary_kept_refl : Reflexive primary_kept.
Proof. intros m. reflexivity. Qed.

Global Instance primary_kept_trans : Transitive primary_kept.
Proof. intros m1 m2 m3 H1 H2. unfold primary_kept in *. congruence. Qed.

Ltac primary_kept_side :=
  idtac;
  lazymatch goal with
  | |- primary_kept ?m _ => destruct m as [? [] ?]; reflexivity
  end.

Ltac unfold_sync :=
  unfold _sync, doy, os_scandir, sync_entry, sync_try, sync_stale, sync_copy,
    shutil_copyfile, open, _exists, os_path_getsize, int, _setflag, _clearflag,
    _notify_newstate, filename, builtin_open, datetime_utcnow;
  cbn [negb when].

(** X10. Whatever it finds and however it ends, a run of the Sync Worker
    calls nothing but [shutil.copyfile] and [open] on a secondary file
    (besides logging and notifying observers): it writes through no file
    object, closes and removes nothing, starts no thread; and it leaves the
    primary folder as it was. *)
Theorem sync_worker_only_copies_and_opens_secondary (m : Machine) :
  Forall sync_call (_sync m).2
  /\ primary (world (_sync m).1.2) = primary (world m).
Proof.
  split.
  - assert (H : emits sync_call _sync) by (unfold_sync; emit_solve). apply H.
  - assert (H : frames primary_kept _sync) by (unfold_sync; frames_by primary_kept_side).
    apply H.
Qed.

(** ** Closing *)


(** ** The first [write] of a new object *)

(** The second [try] statement of [write] when there is no secondary file
    object and no Sync Worker underway: a Sync Worker is started if the
    folder is there. *)
Lemma secondary_block_no_handle ts data msg m :
  fsecondary (self m) = None ->
  contains SYNCING_FILES (_state (self m)) = false ->
  sync_thread (self m) = None ->
  exists o m' evs,
    try_except (write_secondary ts data) (fun _ => logging_exception msg) m = (o, m', evs)
    /\ (o = Val tt \/ o = Ret)
    /\ io_calls evs
       = (if truthy (secondary (world m)) then [EvStart (next_thread SyncWorker m)] else [])
    /\ (if truthy (secondary (world m))
        then contains USB (_state (self m')) = true
             /\ contains SYNCING_FILES (_state (self m')) = true
             /\ sync_thread (self m') = Some (next_thread SyncWorker m)
        else sync_thread (self m') = None
             /\ contains SYNCING_FILES (_state (self m')) = false)
    /\ fsecondary (self m') = None
    /\ databuffer (self m') = databuffer (self m)
    /\ primary (world m') = primary (world m)
    /\ delete_thread (self m') = delete_thread (self m)
    /\ contains DELETING_FILES (_state (self m'))
       = contains DELETING_FILES (_state (self m))
    /\ fprimary (self m') = fprimary (self m)
    /\ fdoy (self m') = fdoy (self m).
Proof.
  intros Hfs Hsync Hth.
  unfold try_except, write_secondary. rewrite bind_unfold, exists_folder_run.
  cbn [store]. destruct (secondary (world m)) as [d|] eqn:Hd; cbn [truthy].
  - rewrite bind_unfold, setflag_spec. unfold secondary_present.
    assert (Hsy : contains SYNCING_FILES (flag_set USB (_state (self m))) = false).
    { change SYNCING_FILES with (2 ^ 3). rewrite contains_after_set by lia.
      change (2 ^ 3) with SYNCING_FILES. rewrite Hsync. reflexivity. }
    rewrite bind_unfold. cbn [gets with_state self _state set_state]. rewrite Hsy.
    rewrite bind_unfold. cbn [gets with_state self set_state fsecondary].
    rewrite Hfs. cbn [truthy negb]. rewrite bind_unfold.
    unfold _offload_sync. run. rewrite Hsy, Hth. run. rewrite setflag_spec. run.
    assert (Hus : contains USB (flag_set SYNCING_FILES (flag_set USB (_state (self m))))
                  = true).
    { change USB with (2 ^ 1) at 1. rewrite !contains_after_set by lia.
      rewrite orb_true_r. reflexivity. }
    assert (Hss : contains SYNCING_FILES
                    (flag_set SYNCING_FILES (flag_set USB (_state (self m)))) = true).
    { change SYNCING_FILES with (2 ^ 3) at 1. rewrite !contains_after_set by lia.
      apply orb_true_r. }
    assert (Hdel : contains DELETING_FILES
                     (flag_set SYNCING_FILES (flag_set USB (_state (self m))))
                   = contains DELETING_FILES (_state (self m))).
    { change DELETING_FILES with (2 ^ 4). rewrite !contains_after_set by lia.
      rewrite !orb_false_r. reflexivity. }
    destruct (fault (world m) (OpStart SyncWorker)); run;
      (eexists _, _, _; split; [reflexivity|]);
      (split; [auto|]);
      (split; [io_norm; rewrite ?if_same, ?app_nil_r; reflexivity|]);
      cbn [self world _state fsecondary sync_thread set_sync_thread set_state
           databuffer primary set_alive set_threads_made delete_thread fprimary fdoy];
      repeat split; auto.
  - unfold secondary_absent. run. rewrite clearflag_run. run. rewrite Hfs. run.
    eexists _, _, _. split; [reflexivity|]. split; [auto|].
    split; [io_norm; rewrite ?if_same; reflexivity|].
    cbn [self world _state fsecondary sync_thread set_sync_thread set_state with_state
         databuffer primary delete_thread fprimary fdoy].
    repeat split; auto.
    + destruct (three_flags_cleared (_state (self m))) as (_ & _ & H). exact H.
    + change DELETING_FILES with (2 ^ 4). rewrite contains_after_clear by lia.
      apply andb_true_r.
Qed.

(** ** The machine after the rotation block, continued *)

Lemma rotated_sync_thread m : sync_thread (self (rotated m)) = sync_thread (self m).
Proof.
  unfold rotated, delete_offloaded, reopened, opened_secondary. case_all; reflexivity.
Qed.

(** A rotation that found no secondary file object. *)
Lemma rotated_without_handle m :
  fsecondary (self m) = None ->
  contains SYNCING_FILES (_state (self m)) = false ->
  sync_thread (self m) = None ->
  contains SYNCING_FILES (_state (self (rotated m))) = false
  /\ contains DELETING_FILES (_state (self (rotated m))) = true
  /\ delete_thread (self (rotated m)) = Some (next_thread DeleteWorker m)
  /\ threads_made (world (rotated m)) = S (threads_made (world m))
  /\ secondary (world (rotated m)) = secondary (world m).
Proof.
  intros Hfs Hsync Hth.
  pose proof (reopened_not_blocked m Hsync Hth) as Hnb.
  unfold rotated, delete_offloaded. rewrite Hnb.
  unfold reopened. rewrite Hfs. cbn [truthy].
  cbn [self world _state set_state set_delete_thread delete_thread with_self
       opened_primary closed with_state with_world set_fdoy set_fprimary set_fsecondary].
  change (name_now (mkMachine _ _ _)) with (name_now m).
  assert (Hth' : forall n, threads_made (create_file Primary n (world m))
                           = threads_made (world m))
    by (intros n; apply threads_create_file).
  assert (Hsec : forall n, secondary (create_file Primary n (world m))
                           = secondary (world m))
    by (intros n; apply (store_create_file_other Primary Secondary); discriminate).
  split; [|split; [|split; [|split]]].
  - change SYNCING_FILES with (2 ^ 3). rewrite contains_after_set by lia.
    unfold flag_cleared. rewrite contains_after_clear by lia.
    change (2 ^ 3) with SYNCING_FILES. rewrite Hsync. reflexivity.
  - change DELETING_FILES with (2 ^ 4) at 1. rewrite contains_after_set by lia.
    apply orb_true_r.
  - unfold next_thread, opened_primary, closed.
    cbn [world with_self with_world with_state]. rewrite Hth'. reflexivity.
  - unfold opened_primary, closed. cbn [world with_self with_world with_state].
    destruct (fault _ _); cbn [threads_made set_alive set_threads_made]; rewrite Hth';
      reflexivity.
  - unfold opened_primary, closed. cbn [world with_self with_world with_state].
    destruct (fault _ _); cbn [secondary set_alive set_threads_made]; apply Hsec.
Qed.



(** ** The medium comes back

    One schedule of the writer and of the worker it starts: a [write], the
    whole run of the Sync Worker, another [write]. *)

Lemma joined_one (t : string) : joined [t] = t.
Proof. apply string_app_nil_r. Qed.

Lemma secondary_block_starts_sync ts data msg m :
  is_Some (secondary (world m)) ->
  fsecondary (self m) = None ->
  contains SYNCING_FILES (_state (self m)) = false ->
  sync_thread (self m) = None ->
  fault (world m) (OpStart SyncWorker) = false ->
  exists evs,
    try_except (write_secondary ts data) (fun _ => logging_exception msg) m
    = (Ret, sync_started m, evs)
    /\ io_calls evs = [EvStart (next_thread SyncWorker m)].
Proof.
  intros [d Hd] Hfs Hsync Hth Hstart.
  unfold try_except, write_secondary. rewrite bind_unfold, exists_folder_run.
  cbn [store]. rewrite Hd. cbn [truthy].
  rewrite bind_unfold, setflag_spec. unfold secondary_present.
  assert (Hsy : contains SYNCING_FILES (flag_set USB (_state (self m))) = false).
  { change SYNCING_FILES with (2 ^ 3). rewrite contains_after_set by lia.
    change (2 ^ 3) with SYNCING_FILES. rewrite Hsync. reflexivity. }
  rewrite bind_unfold. cbn [gets with_state self _state set_state]. rewrite Hsy.
  rewrite bind_unfold. cbn [gets with_state self set_state fsecondary].
  rewrite Hfs. cbn [truthy negb]. rewrite bind_unfold.
  unfold _offload_sync. run. rewrite Hsy, Hth. run. rewrite setflag_spec. run.
  rewrite Hstart. run. eexists. split; [reflexivity|].
  io_norm. rewrite ?if_same, ?app_nil_r. reflexivity.
Qed.

Lemma write_starts_sync_run data m f :
  fdoy (self m) = Z.of_nat (yday (utcnow (world m))) ->
  contains BUFFERING (_state (self m)) = false ->
  fprimary (self m) = Some f -> fclosed f = false ->
  is_Some (primary (world m)) ->
  fault (world m) (OpWrite Primary (fbase f)) = false ->
  is_Some (secondary (world m)) ->
  fsecondary (self m) = None ->
  contains SYNCING_FILES (_state (self m)) = false ->
  sync_thread (self m) = None ->
  fault (world m) (OpStart SyncWorker) = false ->
  exists evs,
    write data m = (Val tt, sync_started (primary_written data m f), evs)
    /\ io_calls evs
       = (EvWrite Primary f
            <$> map line (databuffer (self m) ++ [record_at (utcnow (world m)) data]))
         ++ [EvStart (next_thread SyncWorker m)].
Proof.
  intros Hday Hbuf Hf Hfc Hp Hfw Hs Hfs Hsync Hth Hstart.
  rewrite (write_same_day data m Hday).
  unfold def, write_record, datetime_utcnow, record_at.
  repeat (rewrite bind_unfold; cbn [get_world mret M_ret put_sbuffer world self app]).
  unfold try_except at 1.
  rewrite (write_primary_run _ data (mkMachine (self m) (world m) []) f Hf Hfc Hp Hfw Hbuf).
  cbn [self world]. fold (record_at (utcnow (world m)) data).
  fold (primary_written data m f).
  destruct (secondary_block_starts_sync (epoch (utcnow (world m))) data
              "Unhandled exception in DualDataFile.write() secondary file"
              (primary_written data m f))
    as (evs2 & -> & Hio2).
  { unfold primary_written. cbn [world]. rewrite secondary_write_lines. exact Hs. }
  { exact Hfs. }
  { exact Hsync. }
  { exact Hth. }
  { unfold primary_written. cbn [world]. rewrite fault_write_lines. exact Hstart. }
  eexists. split; [reflexivity|].
  rewrite io_calls_app, io_calls_writes, Hio2. do 3 f_equal.
  unfold next_thread, primary_written. cbn [world]. f_equal.
  generalize (world m). intros w. unfold write_lines.
  generalize (map line (databuffer (self m) ++ [record_at (utcnow w) data])).
  intros l. revert w. induction l as [|t l IH]; intros w; [reflexivity|].
  cbn [fold_left]. rewrite IH. unfold write_text.
  destruct (store w Primary); destruct w; reflexivity.
Qed.



(** * The instrument and the polling loop *)

(** ** Running the blocks of the instrument's side *)

Create HintDb prun.
#[global] Hint Unfold mbind mret SR620.P_bind SR620.P_ret SR620.pass SR620.raise
  SR620.try_except SR620.try_except_all SR620.try_finally SR620.when SR620.get SR620.gets
  SR620.modify SR620.emit SR620.logging_debug SR620.logging_info SR620.logging_warning
  SR620.logging_error SR620.logging_exception SR620.print SR620.format
  SR620.config_getitem SR620.config_contains SR620.getitem SR620.exit : prun.

Ltac prun := repeat (progress (autounfold with prun; cbn)).

Lemma P_bind_unfold {A B} (c : SR620.P A) (k : A -> SR620.P B) b :
  (c ≫= k) b =
  let '(r, b1, t1) := c b in
  match r with
  | SR620.Done a => let '(r2, b2, t2) := k a b1 in (r2, b2, t1 ++ t2)
  | SR620.Raised e => (SR620.Raised e, b1, t1)
  end.
Proof. reflexivity. Qed.

Lemma P_split {A} (c : SR620.P A) b : c b = ((c b).1.1, (c b).1.2, (c b).2).
Proof. destruct (c b) as [[r b1] t1]. reflexivity. Qed.

Lemma sent_app t1 t2 : sent (t1 ++ t2) = sent t1 ++ sent t2.
Proof. unfold sent. apply flat_map_app. Qed.

Lemma sent_from_file evs : sent (map SR620.FromFile evs) = [].
Proof. induction evs as [|ev evs IH]; [reflexivity|exact IH]. Qed.

Lemma sent_instructions cmds :
  sent (flat_map instruction_calls cmds) = map (fun cd : string * string => cd.1 +:+ newline) cmds.
Proof.
  induction cmds as [|cd cmds IH]; [reflexivity|].
  cbn [flat_map map]. rewrite sent_app, IH. reflexivity.
Qed.

Section Keeps.

Context (R : SR620.Bench -> SR620.Bench -> Prop) `{!Reflexive R} `{!Transitive R}.

Lemma keeps_ret {A} (a : A) : keeps R (mret a).
Proof. intros b. reflexivity. Qed.

Lemma keeps_raise {A} e : keeps R (@SR620.raise A e).
Proof. intros b. reflexivity. Qed.

Lemma keeps_get : keeps R SR620.get.
Proof. intros b. reflexivity. Qed.

Lemma keeps_gets {A} (f : SR620.t -> A) : keeps R (SR620.gets f).
Proof. intros b. reflexivity. Qed.

Lemma keeps_emit ev : keeps R (SR620.emit ev).
Proof. intros b. reflexivity. Qed.

Lemma keeps_format v : keeps R (SR620.format v).
Proof. intros b. reflexivity. Qed.

Lemma keeps_call c ev : keeps R (SR620.call c ev).
Proof.
  intros b. unfold SR620.call.
  destruct (SR620.interrupted _ _); [reflexivity|].
  destruct (SR620.fails _ _); reflexivity.
Qed.

Lemma keeps_sleep s : keeps R (SR620.sleep s).
Proof. intros b. unfold SR620.sleep. destruct (SR620.interrupted _ _); reflexivity. Qed.

Lemma keeps_bind {A B} (c : SR620.P A) (k : A -> SR620.P B) :
  keeps R c -> (forall a, keeps R (k a)) -> keeps R (c ≫= k).
Proof.
  intros Hc Hk b. rewrite P_bind_unfold. specialize (Hc b).
  destruct (c b) as [[r b1] t1]. destruct r as [a|e]; cbn in *; [|exact Hc].
  specialize (Hk a b1). destruct (k a b1) as [[r2 b2] t2]. cbn in *.
  etransitivity; eassumption.
Qed.

Lemma keeps_try_except {A} (c : SR620.P A) (h : Error -> SR620.P A) :
  keeps R c -> (forall e, keeps R (h e)) -> keeps R (SR620.try_except c h).
Proof.
  intros Hc Hh b. unfold SR620.try_except. specialize (Hc b).
  destruct (c b) as [[r b1] t1]. destruct r as [a|e]; cbn in *; [exact Hc|].
  destruct (is_Exception e); [|exact Hc].
  specialize (Hh e b1). destruct (h e b1) as [[r2 b2] t2]. cbn in *.
  etransitivity; eassumption.
Qed.

Lemma keeps_try_except_all {A} (c h : SR620.P A) :
  keeps R c -> keeps R h -> keeps R (SR620.try_except_all c h).
Proof.
  intros Hc Hh b. unfold SR620.try_except_all. specialize (Hc b).
  destruct (c b) as [[r b1] t1]. destruct r as [a|e]; cbn in *; [exact Hc|].
  specialize (Hh b1). destruct (h b1) as [[r2 b2] t2]. cbn in *.
  etransitivity; eassumption.
Qed.

Lemma keeps_try_finally {A} (c : SR620.P A) (fin : SR620.P unit) :
  keeps R c -> keeps R fin -> keeps R (SR620.try_finally c fin).
Proof.
  intros Hc Hf b. unfold SR620.try_finally. specialize (Hc b).
  destruct (c b) as [[r b1] t1]. specialize (Hf b1).
  destruct (fin b1) as [[r2 b2] t2]. cbn in *. etransitivity; eassumption.
Qed.

Lemma keeps_when (c : bool) (body : SR620.P unit) :
  keeps R body -> keeps R (SR620.when c body).
Proof. intros Hc. destruct c; [exact Hc|apply keeps_ret]. Qed.

Lemma keeps_for_each {A} (xs : list A) (body : A -> SR620.P unit) :
  (forall x, keeps R (body x)) -> keeps R (SR620.for_each xs body).
Proof.
  intros Hb. induction xs as [|x xs IH]; cbn [SR620.for_each].
  - apply keeps_ret.
  - apply keeps_bind; [apply Hb|intros _; exact IH].
Qed.

Lemma keeps_modify (f : SR620.t -> SR620.t) :
  (forall b, R b (SR620.mkBench (f (SR620.this b)) (SR620.datafile b) (SR620.device b))) ->
  keeps R (SR620.modify f).
Proof. intros H b. apply H. Qed.

Lemma keeps_getitem v key : keeps R (SR620.getitem v key).
Proof.
  unfold SR620.getitem. destruct v; try apply keeps_raise.
  destruct (_ !! _); [apply keeps_ret|apply keeps_raise].
Qed.

Lemma keeps_iterate v : keeps R (SR620.iterate v).
Proof. unfold SR620.iterate. destruct v; first [apply keeps_ret|apply keeps_raise]. Qed.

Lemma keeps_encode s : keeps R (SR620.encode_ascii s).
Proof. unfold SR620.encode_ascii. destruct (is_ascii s); [apply keeps_ret|apply keeps_raise]. Qed.

Lemma keeps_decode s : keeps R (SR620.decode_ascii s).
Proof. unfold SR620.decode_ascii. destruct (is_ascii s); [apply keeps_ret|apply keeps_raise]. Qed.

Lemma keeps_serial_method : keeps R SR620.serial_method.
Proof.
  unfold SR620.serial_method. apply keeps_bind; [apply keeps_gets|].
  intros [|[p|]]; first [apply keeps_ret|apply keeps_raise].
Qed.

End Keeps.

(** One step of such a proof: the rule for the statement at hand. *)
Ltac keep_step :=
  lazymatch goal with
  | |- keeps _ (mbind _ _) => apply keeps_bind; try exact _; [|intros ?]
  | |- keeps _ (mret _) => apply keeps_ret; exact _
  | |- keeps _ SR620.pass => apply keeps_ret; exact _
  | |- keeps _ (SR620.raise _) => apply keeps_raise; exact _
  | |- keeps _ SR620.get => apply keeps_get; exact _
  | |- keeps _ (SR620.gets _) => apply keeps_gets; exact _
  | |- keeps _ (SR620.emit _) => apply keeps_emit; exact _
  | |- keeps _ (SR620.logging_debug _) => apply keeps_emit; exact _
  | |- keeps _ (SR620.logging_info _) => apply keeps_emit; exact _
  | |- keeps _ (SR620.logging_warning _) => apply keeps_emit; exact _
  | |- keeps _ (SR620.logging_error _) => apply keeps_emit; exact _
  | |- keeps _ (SR620.logging_exception _) => apply keeps_emit; exact _
  | |- keeps _ (SR620.print _) => apply keeps_emit; exact _
  | |- keeps _ (SR620.format _) => apply keeps_format; exact _
  | |- keeps _ (SR620.call _ _) => apply keeps_call; exact _
  | |- keeps _ (SR620.sleep _) => apply keeps_sleep; exact _
  | |- keeps _ (SR620.getitem _ _) => apply keeps_getitem; exact _
  | |- keeps _ (SR620.send_instruction _) => unfold SR620.send_instruction
  | |- keeps _ (SR620.config_getitem _) => unfold SR620.config_getitem
  | |- keeps _ (SR620.config_contains _) => unfold SR620.config_contains
  | |- keeps _ (SR620.iterate _) => apply keeps_iterate; exact _
  | |- keeps _ (SR620.encode_ascii _) => apply keeps_encode; exact _
  | |- keeps _ (SR620.decode_ascii _) => apply keeps_decode; exact _
  | |- keeps _ SR620.serial_method => apply keeps_serial_method; exact _
  | |- keeps _ (SR620.try_except _ _) => apply keeps_try_except; try exact _; [|intros ?]
  | |- keeps _ (SR620.try_except_all _ _) => apply keeps_try_except_all; try exact _
  | |- keeps _ (SR620.try_finally _ _) => apply keeps_try_finally; try exact _
  | |- keeps _ (SR620.when _ _) => apply keeps_when; try exact _
  | |- keeps _ (SR620.for_each _ _) => apply keeps_for_each; try exact _; intros ?
  | |- keeps _ (SR620.modify _) => apply keeps_modify; intros ?
  | |- keeps _ (if ?b then _ else _) => destruct b
  | |- keeps _ (match ?x with _ => _ end) => destruct x
  end.

Create HintDb keeps.

Ltac keep_solve side := repeat first [ side | solve [auto with keeps] | keep_step ].

(** ** The port *)

Lemma write_keeps command : keeps eq (SR620._write command).
Proof. unfold SR620._write. keep_solve ltac:(idtac; fail). Qed.
#[global] Hint Resolve write_keeps : keeps.

Global Instance same_but_answers_refl : Reflexive same_but_answers.
Proof. intros b. repeat split. Qed.

Global Instance same_but_answers_trans : Transitive same_but_answers.
Proof.
  intros b1 b2 b3 (? & ? & ? & ? & ? & ?) (? & ? & ? & ? & ? & ?).
  repeat split; congruence.
Qed.

Lemma eq_keeps_weaken (R : SR620.Bench -> SR620.Bench -> Prop) `{!Reflexive R}
  {A} (c : SR620.P A) : keeps eq c -> keeps R c.
Proof. intros H b. rewrite <- (H b). reflexivity. Qed.

Lemma take_answer_keeps : keeps same_but_answers SR620.take_answer.
Proof.
  intros b. unfold SR620.take_answer.
  destruct (SR620.answers (SR620.device b)); cbn; repeat split.
Qed.
#[global] Hint Resolve take_answer_keeps : keeps.

Lemma read_keeps : keeps same_but_answers SR620._read.
Proof.
  unfold SR620._read, SR620.serial_readline. keep_solve ltac:(idtac; fail).
Qed.
#[global] Hint Resolve read_keeps : keeps.

Lemma clearflag_serial_run b :
  SR620._clearflag SERIAL b =
  (SR620.Done tt,
   SR620.mkBench (SR620.set_state (serial_cleared (SR620._state (SR620.this b))) (SR620.this b))
                 (SR620.datafile b) (SR620.device b),
   (SR620._clearflag SERIAL b).2).
Proof.
  destruct b as [[cfg s n p] m d].
  unfold SR620._clearflag, members, serial_cleared. prun.
  change (contains SERIAL SERIAL) with true.
  change (contains USB SERIAL) with false.
  change (contains DUAL_WRITE SERIAL) with false.
  change (contains SYNCING_FILES SERIAL) with false.
  change (contains DELETING_FILES SERIAL) with false.
  change (contains BUFFERING SERIAL) with false.
  cbn. destruct (contains SERIAL s); cbn; reflexivity.
Qed.

Lemma serial_cleared_out s : contains SERIAL (serial_cleared s) = false.
Proof.
  unfold serial_cleared. destruct (contains SERIAL s) eqn:E; [|exact E].
  unfold contains, inter, invert, all_bits, SERIAL.
  rewrite (Z.land_comm s), Z.land_assoc. cbn. reflexivity.
Qed.

(** The other flags of the word are as before. *)
Lemma serial_cleared_others s f :
  In f [USB; DUAL_WRITE; SYNCING_FILES; DELETING_FILES; BUFFERING] ->
  contains f (serial_cleared s) = contains f s.
Proof.
  intros Hf. unfold serial_cleared. destruct (contains SERIAL s); [|reflexivity].
  unfold contains, inter, invert, all_bits, SERIAL.
  rewrite (Z.land_comm s), Z.land_assoc.
  cbn in Hf. destruct Hf as [<-|[<-|[<-|[<-|[<-|[]]]]]]; cbn; reflexivity.
Qed.

Lemma try_except_all_done (c h : SR620.P unit) b :
  (forall b', (h b').1.1 = SR620.Done tt) ->
  (SR620.try_except_all c h b).1.1 = SR620.Done tt.
Proof.
  intros Hh. unfold SR620.try_except_all.
  destruct (c b) as [[r b1] t1]. destruct r as [[]|e]; [reflexivity|].
  specialize (Hh b1). destruct (h b1) as [[r2 b2] t2]. exact Hh.
Qed.

Lemma close_done b : (SR620._close b).1.1 = SR620.Done tt.
Proof.
  unfold SR620._close, SR620.try_finally.
  match goal with |- context [SR620.try_except_all ?c ?h b] =>
    pose proof (try_except_all_done c h b (fun _ => eq_refl)) as Hd;
    destruct (SR620.try_except_all c h b) as [[r b1] t1]
  end.
  cbn in Hd. subst r. prun. rewrite clearflag_serial_run. reflexivity.
Qed.

Lemma close_bench b : (SR620._close b).1.2 = port_closed b.
Proof.
  unfold SR620._close, SR620.try_finally.
  match goal with |- context [SR620.try_except_all ?c ?h b] =>
    assert (Hk : keeps eq (SR620.try_except_all c h))
      by (keep_solve ltac:(idtac; fail));
    specialize (Hk b);
    destruct (SR620.try_except_all c h b) as [[r b1] t1]
  end.
  cbn in Hk. subst b1. prun. rewrite clearflag_serial_run. reflexivity.
Qed.

Lemma close_run b :
  SR620._close b = (SR620.Done tt, port_closed b, (SR620._close b).2).
Proof. rewrite (P_split SR620._close b) at 1. rewrite close_done, close_bench. reflexivity. Qed.

(** X14. [_close] never raises, whatever the port does and even when
    Ctrl-C arrives during one of its calls or the attribute [serial] was
    never set: it ends normally with [self.serial] set to [None] and
    [SERIAL] out of the flag word.  The other flags, the error count, the
    configuration, the writer and the lines the instrument has ready are
    as before. *)
Theorem close_port_never_raises (b : SR620.Bench) :
  exists b' tr,
    SR620._close b = (SR620.Done tt, b', tr) /\
    SR620.serial (SR620.this b') = SR620.Bound None /\
    contains SERIAL (SR620._state (SR620.this b')) = false /\
    (forall f, In f [USB; DUAL_WRITE; SYNCING_FILES; DELETING_FILES; BUFFERING] ->
       contains f (SR620._state (SR620.this b')) = contains f (SR620._state (SR620.this b))) /\
    SR620._read_error_count (SR620.this b') = SR620._read_error_count (SR620.this b) /\
    SR620.config (SR620.this b') = SR620.config (SR620.this b) /\
    SR620.datafile b' = SR620.datafile b /\
    SR620.device b' = SR620.device b.
Proof.
  exists (port_closed b), (SR620._close b).2.
  split; [apply close_run|].
  cbn. split; [reflexivity|]. split; [apply serial_cleared_out|].
  split; [intros f Hf; apply serial_cleared_others; exact Hf|].
  repeat split.
Qed.

(** ** The exceptions of a block *)

Section Throws.

Context (E : Error -> Prop).

Lemma throws_ret {A} (a : A) : throws E (mret a).
Proof. intros b e H. discriminate H. Qed.

Lemma throws_raise {A} e : E e -> throws E (@SR620.raise A e).
Proof. intros He b e' H. cbn in H. congruence. Qed.

Lemma throws_get : throws E SR620.get.
Proof. intros b e H. discriminate H. Qed.

Lemma throws_gets {A} (f : SR620.t -> A) : throws E (SR620.gets f).
Proof. intros b e H. discriminate H. Qed.

Lemma throws_modify f : throws E (SR620.modify f).
Proof. intros b e H. discriminate H. Qed.

Lemma throws_emit ev : throws E (SR620.emit ev).
Proof. intros b e H. discriminate H. Qed.

Lemma throws_format v : throws E (SR620.format v).
Proof. intros b e H. discriminate H. Qed.

Lemma throws_take_answer : throws E SR620.take_answer.
Proof.
  intros b e H. unfold SR620.take_answer in H.
  destruct (SR620.answers _); discriminate H.
Qed.

Lemma throws_call c ev :
  E KeyboardInterrupt -> E SerialException -> throws E (SR620.call c ev).
Proof.
  intros H1 H2 b e H. unfold SR620.call in H.
  destruct (SR620.interrupted _ _); [cbn in H; congruence|].
  destruct (SR620.fails _ _); cbn in H; [congruence|discriminate H].
Qed.

Lemma throws_sleep s : E KeyboardInterrupt -> throws E (SR620.sleep s).
Proof.
  intros H1 b e H. unfold SR620.sleep in H.
  destruct (SR620.interrupted _ _); cbn in H; [congruence|discriminate H].
Qed.

Lemma throws_bind {A B} (c : SR620.P A) (k : A -> SR620.P B) :
  throws E c -> (forall a, throws E (k a)) -> throws E (c ≫= k).
Proof.
  intros Hc Hk b e. rewrite P_bind_unfold. specialize (Hc b).
  destruct (c b) as [[r b1] t1]. destruct r as [a|e1]; cbn in *.
  - specialize (Hk a b1). destruct (k a b1) as [[r2 b2] t2]. cbn in *. apply Hk.
  - intros [= <-]. apply Hc. reflexivity.
Qed.

Lemma throws_when (c : bool) (body : SR620.P unit) :
  throws E body -> throws E (SR620.when c body).
Proof. intros Hc. destruct c; [exact Hc|apply throws_ret]. Qed.

Lemma throws_for_each {A} (xs : list A) (body : A -> SR620.P unit) :
  (forall x, throws E (body x)) -> throws E (SR620.for_each xs body).
Proof.
  intros Hb. induction xs as [|x xs IH]; cbn [SR620.for_each].
  - apply throws_ret.
  - apply throws_bind; [apply Hb|intros _; exact IH].
Qed.

(** What the body raises and the clause does not catch, and what the
    handler raises. *)
Lemma throws_try_except {A} (E0 : Error -> Prop) (c : SR620.P A) (h : Error -> SR620.P A) :
  throws E0 c -> (forall e, E0 e -> is_Exception e = false -> E e) ->
  (forall e, is_Exception e = true -> throws E (h e)) -> throws E (SR620.try_except c h).
Proof.
  intros Hc HE Hh b e. unfold SR620.try_except. specialize (Hc b).
  destruct (c b) as [[r b1] t1]. destruct r as [a|e1]; cbn in *; [discriminate|].
  destruct (is_Exception e1) eqn:Ex.
  - specialize (Hh e1 Ex b1). destruct (h e1 b1) as [[r2 b2] t2]. cbn in *. apply Hh.
  - cbn. intros [= <-]. apply HE; [apply Hc; reflexivity|exact Ex].
Qed.

Lemma throws_getitem v key :
  E (KeyError key) -> E (Of TypeError) -> throws E (SR620.getitem v key).
Proof.
  intros H1 H2. unfold SR620.getitem.
  destruct v; try (apply throws_raise; exact H2).
  destruct (_ !! _); [apply throws_ret|apply throws_raise; exact H1].
Qed.

Lemma throws_iterate v : E (Of TypeError) -> throws E (SR620.iterate v).
Proof.
  intros H. unfold SR620.iterate.
  destruct v; first [apply throws_ret|apply throws_raise; exact H].
Qed.

Lemma throws_encode s : E UnicodeError -> throws E (SR620.encode_ascii s).
Proof.
  intros H. unfold SR620.encode_ascii.
  destruct (is_ascii s); [apply throws_ret|apply throws_raise; exact H].
Qed.

Lemma throws_decode s : E UnicodeError -> throws E (SR620.decode_ascii s).
Proof.
  intros H. unfold SR620.decode_ascii.
  destruct (is_ascii s); [apply throws_ret|apply throws_raise; exact H].
Qed.

Lemma throws_serial_method : E (Of AttributeError) -> throws E SR620.serial_method.
Proof.
  intros H. unfold SR620.serial_method. apply throws_bind; [apply throws_gets|].
  intros [|[p|]]; first [apply throws_ret|apply throws_raise; exact H].
Qed.

End Throws.

Ltac throw_step :=
  lazymatch goal with
  | |- throws _ (mbind _ _) => apply throws_bind; [|intros ?]
  | |- throws _ (mret _) => apply throws_ret
  | |- throws _ SR620.pass => apply throws_ret
  | |- throws _ (SR620.raise _) => apply throws_raise
  | |- throws _ SR620.get => apply throws_get
  | |- throws _ (SR620.gets _) => apply throws_gets
  | |- throws _ (SR620.modify _) => apply throws_modify
  | |- throws _ (SR620.emit _) => apply throws_emit
  | |- throws _ (SR620.logging_debug _) => apply throws_emit
  | |- throws _ (SR620.logging_info _) => apply throws_emit
  | |- throws _ (SR620.logging_warning _) => apply throws_emit
  | |- throws _ (SR620.logging_error _) => apply throws_emit
  | |- throws _ (SR620.logging_exception _) => apply throws_emit
  | |- throws _ (SR620.print _) => apply throws_emit
  | |- throws _ (SR620.format _) => apply throws_format
  | |- throws _ SR620.take_answer => apply throws_take_answer
  | |- throws _ (SR620.call _ _) => apply throws_call
  | |- throws _ (SR620.sleep _) => apply throws_sleep
  | |- throws _ (SR620.getitem _ _) => apply throws_getitem
  | |- throws _ (SR620.send_instruction _) => unfold SR620.send_instruction
  | |- throws _ (SR620.config_getitem _) => unfold SR620.config_getitem
  | |- throws _ (SR620.config_contains _) => unfold SR620.config_contains
  | |- throws _ (SR620.iterate _) => apply throws_iterate
  | |- throws _ (SR620.encode_ascii _) => apply throws_encode
  | |- throws _ (SR620.decode_ascii _) => apply throws_decode
  | |- throws _ SR620.serial_method => apply throws_serial_method
  | |- throws _ (SR620.when _ _) => apply throws_when
  | |- throws _ (SR620.for_each _ _) => apply throws_for_each; intros ?
  | |- throws _ (if ?b then _ else _) => destruct b
  | |- throws _ (match ?x with _ => _ end) => destruct x
  end.

Create HintDb throws.

Ltac throw_solve := repeat first [ exact I | solve [auto with throws] | throw_step ].

Lemma write_throws command : throws not_exit (SR620._write command).
Proof. unfold SR620._write. throw_solve. Qed.
#[global] Hint Resolve write_throws : throws.

Lemma read_throws : throws not_exit SR620._read.
Proof. unfold SR620._read, SR620.serial_readline. throw_solve. Qed.
#[global] Hint Resolve read_throws : throws.

Lemma not_exit_interrupt e : not_exit e -> is_Exception e = false -> e = KeyboardInterrupt.
Proof. destruct e; cbn; intros H1 H2; first [reflexivity|discriminate H2|destruct H1]. Qed.

(** ** Reading a value *)

Lemma read_attempt_throws : throws not_exit SR620.read_attempt.
Proof. unfold SR620.read_attempt. throw_solve. Qed.

Lemma config_getitem_run key b :
  SR620.config_getitem key b =
  (match SR620.config (SR620.this b) !! key with
   | Some v => SR620.Done v
   | None => SR620.Raised (KeyError key)
   end, b, []).
Proof.
  unfold SR620.config_getitem. prun.
  destruct (SR620.config (SR620.this b) !! key); reflexivity.
Qed.

Lemma config_contains_run key b :
  SR620.config_contains key b =
  (SR620.Done (bool_decide (is_Some (SR620.config (SR620.this b) !! key))), b, []).
Proof. reflexivity. Qed.

(** A read that succeeds resets the error count; one that fails leaves
    the instrument object as it was. *)
Lemma read_attempt_cases b :
  SR620.datafile (SR620.read_attempt b).1.2 = SR620.datafile b /\
  match (SR620.read_attempt b).1.1 with
  | SR620.Done (Some _) =>
      SR620.this (SR620.read_attempt b).1.2 = SR620.set_read_error_count 0 (SR620.this b)
  | SR620.Done None => False
  | SR620.Raised _ => SR620.this (SR620.read_attempt b).1.2 = SR620.this b
  end.
Proof.
  unfold SR620.read_attempt.
  rewrite P_bind_unfold, config_getitem_run.
  destruct (SR620.config (SR620.this b) !! "read_value_commands") as [cmd|];
    [|cbn; split; reflexivity].
  rewrite P_bind_unfold.
  pose proof (write_keeps cmd b) as Hw.
  destruct (SR620._write cmd b) as [[r b1] t1]. cbn in Hw. subst b1.
  destruct r as [[]|e]; [|cbn; split; reflexivity].
  rewrite P_bind_unfold.
  pose proof (read_keeps b) as (Hr1 & Hr2 & _).
  destruct (SR620._read b) as [[r b2] t2]. cbn in Hr1, Hr2.
  destruct r as [data|e]; prun; split; congruence.
Qed.

(** The handler of [readvalue]. *)
Lemma read_failed_run b :
  let n := SR620._read_error_count (SR620.this b) + 1 in
  let b1 := SR620.mkBench (SR620.set_read_error_count n (SR620.this b))
              (SR620.datafile b) (SR620.device b) in
  SR620.read_failed b =
  (SR620.Done None, (if 5 <=? n then port_closed b1 else b1), (SR620.read_failed b).2).
Proof.
  intros n b1.
  rewrite (P_split SR620.read_failed b) at 1.
  unfold SR620.read_failed. prun. fold n. fold b1.
  destruct (5 <=? n); cbn.
  - rewrite (close_run b1). reflexivity.
  - reflexivity.
Qed.

(** X15. [readvalue] never raises an [Exception]: only Ctrl-C leaves it.
    A read that succeeds resets the error count to 0 and changes nothing
    else of the object; a read that fails returns [None] and adds one to
    the count, and when the count reaches 5 or more the port is closed:
    [self.serial] is [None] and [SERIAL] is out of the flag word.  The
    writer is not touched. *)
Theorem readvalue_counts_failures (b : SR620.Bench) :
  exists r b' tr,
    SR620.readvalue b = (r, b', tr) /\
    SR620.datafile b' = SR620.datafile b /\
    match r with
    | SR620.Done (Some data) =>
        SR620.this b' = SR620.set_read_error_count 0 (SR620.this b)
    | SR620.Done None =>
        let n := SR620._read_error_count (SR620.this b) + 1 in
        SR620._read_error_count (SR620.this b') = n /\
        SR620.config (SR620.this b') = SR620.config (SR620.this b) /\
        if 5 <=? n then
          SR620.serial (SR620.this b') = SR620.Bound None /\
          contains SERIAL (SR620._state (SR620.this b')) = false
        else
          SR620.serial (SR620.this b') = SR620.serial (SR620.this b) /\
          SR620._state (SR620.this b') = SR620._state (SR620.this b)
    | SR620.Raised e => e = KeyboardInterrupt /\ SR620.this b' = SR620.this b
    end.
Proof.
  unfold SR620.readvalue, SR620.try_except.
  pose proof (read_attempt_cases b) as [Hd Hc].
  pose proof (read_attempt_throws b) as Ht.
  destruct (SR620.read_attempt b) as [[r b1] t1]. cbn in Hd, Hc, Ht.
  destruct r as [[data|]|e]; [| destruct Hc |].
  - eexists _, _, _. split; [reflexivity|]. split; [exact Hd|exact Hc].
  - destruct (is_Exception e) eqn:Ex.
    + rewrite (read_failed_run b1). cbn zeta.
      eexists _, _, _. split; [reflexivity|]. rewrite Hc.
      destruct (5 <=? SR620._read_error_count (SR620.this b) + 1); cbn.
      * split; [exact Hd|]. split; [reflexivity|]. split; [reflexivity|].
        split; [reflexivity|]. apply serial_cleared_out.
      * split; [exact Hd|]. repeat split; reflexivity.
    + eexists _, _, _. split; [reflexivity|]. split; [exact Hd|].
      split; [|exact Hc]. apply not_exit_interrupt; [apply Ht; reflexivity|exact Ex].
Qed.

(** ** Opening the port *)

Global Instance same_session_refl : Reflexive same_session.
Proof. intros b. repeat split. Qed.

Global Instance same_session_trans : Transitive same_session.
Proof. intros b1 b2 b3 (? & ? & ?) (? & ? & ?). repeat split; congruence. Qed.

Global Instance same_port_refl : Reflexive same_port.
Proof. intros b. split; reflexivity. Qed.

Global Instance same_port_trans : Transitive same_port.
Proof. intros b1 b2 b3 [? ?] [? ?]. split; congruence. Qed.

Ltac session_side :=
  lazymatch goal with
  | |- same_session _ _ => repeat split
  | |- same_port _ _ => split; reflexivity
  | |- keeps _ (SR620._write _) => apply eq_keeps_weaken; [exact _|apply write_keeps]
  end.

Lemma same_but_answers_session b b' : same_but_answers b b' -> same_session b b'.
Proof. intros (H1 & H2 & _). repeat split; congruence. Qed.

Lemma same_but_answers_port b b' : same_but_answers b b' -> same_port b b'.
Proof. intros (H1 & H2 & _). split; congruence. Qed.

Lemma read_same_session : keeps same_session SR620._read.
Proof. intros b. apply same_but_answers_session, read_keeps. Qed.
#[global] Hint Resolve read_same_session : keeps.

Lemma read_same_port : keeps same_port SR620._read.
Proof. intros b. apply same_but_answers_port, read_keeps. Qed.
#[global] Hint Resolve read_same_port : keeps.

Lemma setflag_same_session flag : keeps same_session (SR620._setflag flag).
Proof. unfold SR620._setflag. keep_solve ltac:(idtac; session_side). Qed.
#[global] Hint Resolve setflag_same_session : keeps.

Lemma clearflag_same_session flag : keeps same_session (SR620._clearflag flag).
Proof. unfold SR620._clearflag. keep_solve ltac:(idtac; session_side). Qed.
#[global] Hint Resolve clearflag_same_session : keeps.

Lemma trigger_levels_same_session : keeps same_session SR620.write_trigger_levels.
Proof. unfold SR620.write_trigger_levels. keep_solve ltac:(idtac; session_side). Qed.
#[global] Hint Resolve trigger_levels_same_session : keeps.

Lemma trigger_levels_same_port : keeps same_port SR620.write_trigger_levels.
Proof. unfold SR620.write_trigger_levels. keep_solve ltac:(idtac; session_side). Qed.
#[global] Hint Resolve trigger_levels_same_port : keeps.

Lemma set_trigger_levels_same_session : keeps same_session SR620.set_trigger_levels.
Proof. unfold SR620.set_trigger_levels. keep_solve ltac:(idtac; session_side). Qed.
#[global] Hint Resolve set_trigger_levels_same_session : keeps.

Lemma set_trigger_levels_same_port : keeps same_port SR620.set_trigger_levels.
Proof. unfold SR620.set_trigger_levels. keep_solve ltac:(idtac; session_side). Qed.
#[global] Hint Resolve set_trigger_levels_same_port : keeps.

Lemma config_instrument_same_session : keeps same_session SR620.config_instrument.
Proof.
  unfold SR620.config_instrument, SR620._query. keep_solve ltac:(idtac; session_side).
Qed.
#[global] Hint Resolve config_instrument_same_session : keeps.

Lemma config_instrument_same_port : keeps same_port SR620.config_instrument.
Proof.
  unfold SR620.config_instrument, SR620._query. keep_solve ltac:(idtac; session_side).
Qed.
#[global] Hint Resolve config_instrument_same_port : keeps.

Lemma open_same_session : keeps same_session SR620._open.
Proof. unfold SR620._open. keep_solve ltac:(idtac; session_side). Qed.

Lemma setflag_throws E flag : throws E (SR620._setflag flag).
Proof. unfold SR620._setflag. throw_solve. Qed.

Lemma clearflag_throws E flag : throws E (SR620._clearflag flag).
Proof. unfold SR620._clearflag. throw_solve. Qed.

Lemma not_exit_kept e : not_exit e -> is_Exception e = false -> not_exit e.
Proof. intros H _. exact H. Qed.

Lemma trigger_levels_throws : throws not_exit SR620.write_trigger_levels.
Proof. unfold SR620.write_trigger_levels. throw_solve. Qed.
#[global] Hint Resolve trigger_levels_throws : throws.

Lemma set_trigger_levels_throws : throws not_exit SR620.set_trigger_levels.
Proof.
  unfold SR620.set_trigger_levels.
  apply throws_try_except with (E0 := not_exit); [|apply not_exit_kept|intros ? _]; throw_solve.
Qed.
#[global] Hint Resolve set_trigger_levels_throws : throws.

Lemma config_instrument_throws : throws not_exit SR620.config_instrument.
Proof.
  unfold SR620.config_instrument, SR620._query.
  repeat (apply throws_bind; [throw_solve|intros ?]).
  apply throws_try_except with (E0 := not_exit); [|apply not_exit_kept|intros ? _]; throw_solve.
Qed.
#[global] Hint Resolve config_instrument_throws : throws.

Lemma open_throws : throws interrupt_or_wrapped SR620._open.
Proof.
  unfold SR620._open.
  apply throws_try_except with (E0 := not_exit).
  - throw_solve. apply setflag_throws.
  - intros e H1 H2. left. apply not_exit_interrupt; assumption.
  - intros e Ex. apply throws_bind; [|intros ?; throw_solve; apply clearflag_throws].
    apply throws_raise. right. exists e. split; [reflexivity|exact Ex].
Qed.

Lemma try_except_done {A} (c : SR620.P A) (h : Error -> SR620.P A) b x b' tr :
  SR620.try_except c h b = (SR620.Done x, b', tr) ->
  (forall e b1 y, (h e b1).1.1 <> SR620.Done y) ->
  c b = (SR620.Done x, b', tr).
Proof.
  unfold SR620.try_except. destruct (c b) as [[r b1] t1].
  destruct r as [a|e]; [intros H _; exact H|].
  destruct (is_Exception e); [|discriminate].
  intros H Hh. specialize (Hh e b1 x). destruct (h e b1) as [[r2 b2] t2].
  injection H as -> _ _. cbn in Hh. congruence.
Qed.

Lemma keeps_eq_inv {A} (c : SR620.P A) b r b' tr :
  c b = (r, b', tr) -> keeps eq c -> b' = b.
Proof. intros E H. specialize (H b). rewrite E in H. cbn in H. congruence. Qed.

(** What a block that ended normally went through. *)
Lemma done_bind {A B} (c : SR620.P A) (k : A -> SR620.P B) b x b' tr :
  (c ≫= k) b = (SR620.Done x, b', tr) ->
  exists a b1 t1 t2, c b = (SR620.Done a, b1, t1) /\ k a b1 = (SR620.Done x, b', t2).
Proof.
  rewrite P_bind_unfold. destruct (c b) as [[r b1] t1].
  destruct r as [a|e]; [|discriminate].
  destruct (k a b1) as [[r2 b2] t2] eqn:Ek. intros [= -> -> <-].
  exists a, b1, t1, t2. split; [reflexivity|exact Ek].
Qed.

Lemma contains_union_r s f : 0 <= f -> contains f (union s f) = true.
Proof.
  intros Hf. unfold contains, union. apply Z.eqb_eq.
  rewrite Z.land_comm, Z.land_lor_distr_l, Z.land_diag.
  apply Z.bits_inj'. intros i Hi.
  rewrite Z.lor_spec, Z.land_spec. destruct (Z.testbit f i), (Z.testbit s i); reflexivity.
Qed.

Lemma setflag_serial_run b :
  (SR620._setflag SERIAL b).1.1 = SR620.Done tt /\
  contains SERIAL (SR620._state (SR620.this (SR620._setflag SERIAL b).1.2)) = true /\
  SR620.serial (SR620.this (SR620._setflag SERIAL b).1.2) = SR620.serial (SR620.this b).
Proof.
  unfold SR620._setflag. prun.
  destruct (contains SERIAL (SR620._state (SR620.this b))) eqn:E; cbn.
  - repeat split. exact E.
  - repeat split. apply contains_union_r. unfold SERIAL. lia.
Qed.

(** X16. [_open] leaves the error count, the configuration and the writer
    as they were, however it ends.  It ends normally only with a port in
    [self.serial] and [SERIAL] in the flag word; what it raises is Ctrl-C
    or an [Exception] that wraps the exception met. *)
Theorem open_port_keeps_error_count (b : SR620.Bench) :
  exists r b' tr,
    SR620._open b = (r, b', tr) /\
    SR620._read_error_count (SR620.this b') = SR620._read_error_count (SR620.this b) /\
    SR620.config (SR620.this b') = SR620.config (SR620.this b) /\
    SR620.datafile b' = SR620.datafile b /\
    match r with
    | SR620.Done _ =>
        (exists port, SR620.serial (SR620.this b') = SR620.Bound (Some port)) /\
        contains SERIAL (SR620._state (SR620.this b')) = true
    | SR620.Raised e =>
        e = KeyboardInterrupt \/
        exists cause, e = Exception_ cause /\ is_Exception cause = true
    end.
Proof.
  pose proof (open_same_session b) as (Hc & Hn & Hd).
  pose proof (open_throws b) as Ht.
  destruct (SR620._open b) as [[r b'] tr] eqn:Eo. cbn in Hc, Hn, Hd, Ht.
  exists r, b', tr. split; [reflexivity|]. split; [exact Hn|]. split; [exact Hc|].
  split; [exact Hd|]. destruct r as [[]|e]; [|apply Ht; reflexivity].
  unfold SR620._open in Eo.
  apply try_except_done in Eo; [|intros e' b1 x; cbn; discriminate].
  do 7 (apply done_bind in Eo; destruct Eo as (? & ? & ? & ? & Ek & Eo);
        apply keeps_eq_inv in Ek; [subst|keep_solve ltac:(idtac; fail)]).
  apply done_bind in Eo. destruct Eo as ([] & b8 & ? & ? & Ek & Eo).
  injection Ek as <- _.
  apply done_bind in Eo. destruct Eo as ([] & b9 & ? & ? & Ek & Eo).
  match type of Ek with SR620._setflag SERIAL ?b8 = _ =>
    pose proof (setflag_serial_run b8) as (_ & Hs1 & Hs2) end.
  rewrite Ek in Hs1, Hs2. cbn in Hs1, Hs2.
  match type of Eo with ?rest b9 = _ =>
    assert (Hk : keeps same_port rest) by (keep_solve ltac:(idtac; session_side));
    specialize (Hk b9); rewrite Eo in Hk; destruct Hk as [Hk1 Hk2]; cbn in Hk1, Hk2
  end.
  rewrite Hk1, Hk2, Hs2. split; [eexists; reflexivity|exact Hs1].
Qed.

(** ** One round of the loop *)

Lemma call_ok_run c ev b :
  port_works (SR620.device b) -> SR620.call c ev b = (SR620.Done tt, b, [ev]).
Proof.
  intros Hw. destruct (Hw c) as [Hf Hi]. unfold SR620.call. rewrite Hi, Hf. reflexivity.
Qed.

Lemma serial_method_run b port :
  SR620.serial (SR620.this b) = SR620.Bound (Some port) ->
  SR620.serial_method b = (SR620.Done port, b, []).
Proof. intros Hs. unfold SR620.serial_method. prun. rewrite Hs. reflexivity. Qed.

Lemma write_ok_run command b port :
  SR620.serial (SR620.this b) = SR620.Bound (Some port) ->
  port_works (SR620.device b) ->
  is_ascii (command_bytes b command) = true ->
  SR620._write command b =
  (SR620.Done tt, b,
   [SR620.SerialWrite (command_bytes b command); SR620.SerialFlush; SR620.SerialResetInput]).
Proof.
  intros Hs Hw Ha. unfold SR620._write, command_bytes in *.
  rewrite P_bind_unfold, (serial_method_run b port Hs). prun.
  unfold SR620.encode_ascii. rewrite Ha. prun.
  rewrite (call_ok_run _ _ b Hw). prun.
  rewrite (serial_method_run b port Hs). prun.
  rewrite (call_ok_run _ _ b Hw). prun.
  rewrite (serial_method_run b port Hs). prun.
  rewrite (call_ok_run _ _ b Hw). reflexivity.
Qed.

Lemma read_ok_run b port :
  SR620.serial (SR620.this b) = SR620.Bound (Some port) ->
  port_works (SR620.device b) ->
  is_ascii (next_answer b) = true ->
  SR620._read b =
  (SR620.Done (strip (next_answer b)), answer_taken b, [SR620.SerialReadline]).
Proof.
  intros Hs Hw Ha. unfold SR620._read, SR620.serial_readline.
  rewrite !P_bind_unfold, (serial_method_run b port Hs). prun.
  rewrite (call_ok_run _ _ b Hw). prun.
  unfold SR620.take_answer, SR620.decode_ascii, answer_taken, next_answer in *.
  destruct (SR620.answers (SR620.device b)) as [|raw rest]; cbn in Ha |- *.
  - change (is_ascii "") with true. reflexivity.
  - rewrite Ha. reflexivity.
Qed.

Lemma lift_writevalue_run value b :
  SR620.lift (writevalue value) b =
  (SR620.Done tt, with_datafile (writevalue value (SR620.datafile b)).1.2 b,
   map SR620.FromFile (writevalue value (SR620.datafile b)).2).
Proof.
  unfold SR620.lift.
  destruct (writevalue_never_raises value (SR620.datafile b)) as (m' & evs & ->).
  reflexivity.
Qed.

Lemma lift_close_run b :
  SR620.lift close b =
  (SR620.Done tt, with_datafile (closed (SR620.datafile b)) b,
   map SR620.FromFile (close (SR620.datafile b)).2).
Proof.
  unfold SR620.lift.
  destruct (close_spec (SR620.datafile b)) as (evs & -> & _). reflexivity.
Qed.

Lemma read_attempt_ok_run b port command :
  SR620.serial (SR620.this b) = SR620.Bound (Some port) ->
  port_works (SR620.device b) ->
  SR620.config (SR620.this b) !! "read_value_commands" = Some command ->
  is_ascii (command_bytes b command) = true ->
  is_ascii (next_answer b) = true ->
  SR620.read_attempt b =
  (SR620.Done (Some (strip (next_answer b))),
   with_this (SR620.set_read_error_count 0 (SR620.this b)) (answer_taken b),
   [SR620.SerialWrite (command_bytes b command); SR620.SerialFlush; SR620.SerialResetInput;
    SR620.SerialReadline]).
Proof.
  intros Hs Hw Hc Ha Hr. unfold SR620.read_attempt.
  rewrite P_bind_unfold, config_getitem_run, Hc.
  rewrite P_bind_unfold, (write_ok_run command b port Hs Hw Ha).
  rewrite P_bind_unfold, (read_ok_run b port Hs Hw Hr).
  unfold answer_taken, with_this.
  destruct (SR620.answers (SR620.device b)); reflexivity.
Qed.

(** X17. A round with the port open and working: the read command of
    the configuration is written, flushed, the input buffer reset and
    one line read; the line, decoded and stripped, is printed after the
    console time stamp and handed to the writer as the value of one
    record.  The error count is 0 afterwards.  When the instrument has
    no line ready, [readline] times out and the value is the empty
    text: a time-out is not an error. *)
Theorem round_reads_prints_and_records (b : SR620.Bench) port command :
  contains SERIAL (SR620._state (SR620.this b)) = true ->
  SR620.serial (SR620.this b) = SR620.Bound (Some port) ->
  port_works (SR620.device b) ->
  SR620.config (SR620.this b) !! "read_value_commands" = Some command ->
  is_ascii (command_bytes b command) = true ->
  is_ascii (next_answer b) = true ->
  let value := strip (next_answer b) in
  let stamp := SR620.console_stamp (SR620.device b) (utcnow (world (SR620.datafile b))) in
  SR620.execute_round b =
  (SR620.Done tt,
   SR620.mkBench (SR620.set_read_error_count 0 (SR620.this b))
     (writevalue value (SR620.datafile b)).1.2
     (SR620.device (answer_taken b)),
   [SR620.SerialWrite (command_bytes b command); SR620.SerialFlush; SR620.SerialResetInput;
    SR620.SerialReadline; SR620.Printed (stamp +:+ " " +:+ value)]
   ++ map SR620.FromFile (writevalue value (SR620.datafile b)).2).
Proof.
  intros Hf Hs Hw Hc Ha Hr value stamp.
  unfold SR620.execute_round, SR620.round_body.
  rewrite P_bind_unfold. cbn [SR620.gets]. rewrite Hf.
  rewrite P_bind_unfold. unfold SR620.readvalue, SR620.try_except.
  rewrite (read_attempt_ok_run b port command Hs Hw Hc Ha Hr).
  prun. unfold SR620.writevalue. rewrite lift_writevalue_run.
  unfold answer_taken, with_this, with_datafile.
  destruct (SR620.answers (SR620.device b)); reflexivity.
Qed.

Lemma round_reads_prints_and_records_witness :
  exists b' tr,
    SR620.execute_round Lab.b_polling = (SR620.Done tt, b', tr) /\
    SR620._read_error_count (SR620.this b') = 0 /\
    SR620.datafile b' = (writevalue "1.234E-9" Sample.m_flush).1.2 /\
    sent tr = ["*WAI;XAVG?" +:+ newline].
Proof.
  assert (H1 : contains SERIAL (SR620._state (SR620.this Lab.b_polling)) = true)
    by reflexivity.
  assert (H2 : SR620.serial (SR620.this Lab.b_polling) = SR620.Bound (Some Lab.port))
    by reflexivity.
  assert (H3 : port_works (SR620.device Lab.b_polling))
    by (intros c; split; reflexivity).
  assert (H4 : SR620.config (SR620.this Lab.b_polling) !! "read_value_commands"
               = Some (VStr "*WAI;XAVG?")) by reflexivity.
  assert (H5 : is_ascii (command_bytes Lab.b_polling (VStr "*WAI;XAVG?")) = true)
    by reflexivity.
  assert (H6 : is_ascii (next_answer Lab.b_polling) = true) by reflexivity.
  pose proof (round_reads_prints_and_records Lab.b_polling Lab.port (VStr "*WAI;XAVG?")
                H1 H2 H3 H4 H5 H6) as E.
  cbv zeta in E.
  eexists _, _. split; [exact E|].
  split; [reflexivity|]. split; [reflexivity|].
  rewrite sent_app, sent_from_file. reflexivity.
Defined.

Lemma gets_bind {A B} (f : SR620.t -> A) (k : A -> SR620.P B) b :
  (SR620.gets f ≫= k) b = k (f (SR620.this b)) b.
Proof.
  rewrite P_bind_unfold. cbn [SR620.gets].
  destruct (k (f (SR620.this b)) b) as [[r b1] t1]. reflexivity.
Qed.

Lemma readvalue_datafile b : SR620.datafile (SR620.readvalue b).1.2 = SR620.datafile b.
Proof.
  unfold SR620.readvalue, SR620.try_except.
  pose proof (read_attempt_cases b) as [Hd _].
  destruct (SR620.read_attempt b) as [[r b1] t1]. cbn in Hd.
  destruct r as [x|e]; [exact Hd|].
  destruct (is_Exception e); [|exact Hd].
  rewrite (read_failed_run b1). cbn zeta.
  destruct (5 <=? _); cbn; exact Hd.
Qed.

(** X18. A round in which the read fails ([readvalue] returns [None])
    goes on as after a good read: the console line ends in [None], and
    the writer is given the text [None] as the value of the record.  The
    round ends normally. *)
Theorem failed_read_is_recorded_as_None (b : SR620.Bench) :
  contains SERIAL (SR620._state (SR620.this b)) = true ->
  (SR620.readvalue b).1.1 = SR620.Done None ->
  let stamp := SR620.console_stamp (SR620.device (SR620.readvalue b).1.2)
                 (utcnow (world (SR620.datafile b))) in
  SR620.execute_round b =
  (SR620.Done tt,
   with_datafile (writevalue "None" (SR620.datafile b)).1.2 (SR620.readvalue b).1.2,
   (SR620.readvalue b).2 ++ [SR620.Printed (stamp +:+ " None")]
   ++ map SR620.FromFile (writevalue "None" (SR620.datafile b)).2).
Proof.
  intros Hf Hr stamp. subst stamp.
  unfold SR620.execute_round, SR620.round_body.
  rewrite gets_bind, Hf, P_bind_unfold.
  pose proof (readvalue_datafile b) as Hd.
  destruct (SR620.readvalue b) as [[r b1] t1]. cbn in Hr, Hd |- *. subst r.
  prun. unfold SR620.writevalue. rewrite lift_writevalue_run. cbn.
  rewrite Hd. unfold with_datafile. reflexivity.
Qed.

Lemma failed_read_is_recorded_as_None_witness :
  exists b' tr,
    SR620.execute_round Lab.b_unplugged = (SR620.Done tt, b', tr) /\
    SR620.datafile b' = (writevalue "None" Sample.m_flush).1.2 /\
    SR620._read_error_count (SR620.this b') = 1.
Proof.
  assert (H1 : contains SERIAL (SR620._state (SR620.this Lab.b_unplugged)) = true)
    by reflexivity.
  assert (H2 : (SR620.readvalue Lab.b_unplugged).1.1 = SR620.Done None)
    by reflexivity.
  pose proof (failed_read_is_recorded_as_None Lab.b_unplugged H1 H2) as E.
  cbv zeta in E.
  eexists _, _. split; [exact E|]. split; reflexivity.
Defined.

Lemma on_interrupt_run b :
  SR620.on_interrupt b =
  (SR620.Raised (SystemExit 1),
   with_datafile (closed (SR620.datafile b)) (port_closed b),
   (SR620.on_interrupt b).2).
Proof.
  rewrite (P_split SR620.on_interrupt b) at 1.
  unfold SR620.on_interrupt. prun.
  rewrite (close_run b). cbn. rewrite lift_close_run. reflexivity.
Qed.


(** When Ctrl-C leaves the [try] block of a round, the writer was not
    called. *)
Lemma interrupted_round_datafile b :
  (SR620.round_body b).1.1 = SR620.Raised KeyboardInterrupt ->
  SR620.datafile (SR620.round_body b).1.2 = SR620.datafile b.
Proof.
  unfold SR620.round_body. rewrite gets_bind.
  destruct (contains SERIAL _).
  - rewrite P_bind_unfold. pose proof (readvalue_datafile b) as Hd.
    destruct (SR620.readvalue b) as [[r b1] t1]. cbn in Hd.
    destruct r as [data|e]; [|intros _; exact Hd].
    prun. unfold SR620.writevalue. rewrite lift_writevalue_run. cbn. discriminate.
  - intros _.
    match goal with |- SR620.datafile (?c b).1.2 = _ =>
      assert (Hk : keeps same_session c);
      [|specialize (Hk b); destruct (c b) as [[r b1] t1]; destruct Hk as (_ & _ & Hk); exact Hk]
    end.
    keep_solve ltac:(idtac; first [session_side | apply open_same_session]).
Qed.



Lemma sleep_run s b :
  SR620.interrupted (SR620.device b) SR620.Sleep = false ->
  SR620.sleep s b = (SR620.Done tt, b, [SR620.Slept s]).
Proof. intros H. unfold SR620.sleep. rewrite H. reflexivity. Qed.

(** An exception met while the port is opened ends the loop. *)
Lemma open_failure_run (b : SR620.Bench) (e : Error) (n : nat) :
  contains SERIAL (SR620._state (SR620.this b)) = false ->
  SR620.interrupted (SR620.device b) SR620.Sleep = false ->
  (SR620._open b).1.1 = SR620.Raised e ->
  e <> KeyboardInterrupt ->
  (exists cause, e = Exception_ cause /\ is_Exception cause = true) /\
  SR620.execute (S n) b =
  (SR620.Raised (Exception_ e), (SR620._open b).1.2,
   [SR620.Printed (names_repr (SR620.state b)); SR620.Slept "3"] ++ (SR620._open b).2).
Proof.
  intros Hf Hi Ho Hne.
  destruct (open_throws b e Ho) as [->|(cause & -> & Hc)]; [congruence|].
  split; [exists cause; split; [reflexivity|exact Hc]|].
  cbn [SR620.execute]. rewrite P_bind_unfold.
  unfold SR620.execute_round, SR620.round_body.
  rewrite gets_bind, Hf. prun. rewrite (sleep_run "3" b Hi). cbn.
  destruct (SR620._open b) as [[r b1] t1]. cbn in Ho |- *. subst r.
  unfold SR620.on_exception. prun. rewrite app_nil_r. reflexivity.
Qed.

(** X20. The loop does not retry a port that cannot be opened: with
    [SERIAL] out of the flag word a round prints the state, sleeps 3
    seconds and calls [_open]; an exception met there leaves [_open]
    wrapped in an [Exception], the round wraps it once more, and that
    ends [execute], whatever the number of rounds still to come. *)
Theorem failed_open_ends_the_loop (b : SR620.Bench) (e : Error) (n : nat) :
  contains SERIAL (SR620._state (SR620.this b)) = false ->
  SR620.interrupted (SR620.device b) SR620.Sleep = false ->
  (SR620._open b).1.1 = SR620.Raised e ->
  e <> KeyboardInterrupt ->
  (exists cause, e = Exception_ cause /\ is_Exception cause = true) /\
  SR620.execute (S n) b =
  (SR620.Raised (Exception_ e), (SR620._open b).1.2,
   [SR620.Printed (names_repr (SR620.state b)); SR620.Slept "3"] ++ (SR620._open b).2).
Proof. apply open_failure_run. Qed.

Lemma failed_open_ends_the_loop_witness :
  (SR620.execute 3 Lab.b_no_device).1.1
  = SR620.Raised (Exception_ (Exception_ SerialException)).
Proof.
  assert (H1 : contains SERIAL (SR620._state (SR620.this Lab.b_no_device)) = false)
    by reflexivity.
  assert (H2 : SR620.interrupted (SR620.device Lab.b_no_device) SR620.Sleep = false)
    by reflexivity.
  assert (H3 : (SR620._open Lab.b_no_device).1.1
               = SR620.Raised (Exception_ SerialException))
    by reflexivity.
  assert (H4 : Exception_ SerialException <> KeyboardInterrupt) by discriminate.
  destruct (failed_open_ends_the_loop Lab.b_no_device _ 2 H1 H2 H3 H4) as [_ E].
  rewrite E. reflexivity.
Defined.

(** ** Five failed reads *)

Lemma read_attempt_dead_run b port command :
  port_dead port command b ->
  SR620.read_attempt b =
  (SR620.Raised SerialException, b, [SR620.SerialWrite (command_bytes b command)]).
Proof.
  intros (_ & Hs & Hf & Hi & Hc & Ha). unfold SR620.read_attempt.
  rewrite P_bind_unfold, config_getitem_run, Hc.
  rewrite P_bind_unfold. unfold SR620._write, command_bytes in *.
  rewrite P_bind_unfold, (serial_method_run b port Hs). prun.
  unfold SR620.encode_ascii. rewrite Ha. prun.
  unfold SR620.call. rewrite Hi, Hf. reflexivity.
Qed.

Lemma dead_round_run b port command :
  port_dead port command b ->
  let n := SR620._read_error_count (SR620.this b) + 1 in
  let b1 := with_this (SR620.set_read_error_count n (SR620.this b)) b in
  SR620.execute_round b =
  (SR620.Done tt,
   with_datafile (missed (SR620.datafile b)) (if 5 <=? n then port_closed b1 else b1),
   (SR620.execute_round b).2).
Proof.
  intros Hd n b1. rewrite (P_split SR620.execute_round b) at 1.
  unfold SR620.execute_round, SR620.round_body.
  rewrite gets_bind. destruct Hd as (Hf & Hd'). rewrite Hf.
  rewrite P_bind_unfold. unfold SR620.readvalue, SR620.try_except.
  rewrite (read_attempt_dead_run b port command (conj Hf Hd')).
  cbn [is_Exception]. rewrite (read_failed_run b). cbn zeta. fold n. fold b1.
  prun. unfold SR620.writevalue. rewrite lift_writevalue_run.
  unfold missed, with_datafile, with_this in *.
  destruct (5 <=? n); reflexivity.
Qed.

Lemma dead_rounds (k : nat) port command :
  forall b,
    port_dead port command b ->
    SR620._read_error_count (SR620.this b) + Z.of_nat k <= 5 ->
    exists b' tr,
      SR620.execute k b = (SR620.Done tt, b', tr) /\
      SR620._read_error_count (SR620.this b')
        = SR620._read_error_count (SR620.this b) + Z.of_nat k /\
      SR620.datafile b' = Nat.iter k missed (SR620.datafile b) /\
      (SR620._read_error_count (SR620.this b) + Z.of_nat k < 5 \/ k = 0%nat ->
         SR620.serial (SR620.this b') = SR620.serial (SR620.this b) /\
         SR620._state (SR620.this b') = SR620._state (SR620.this b)) /\
      (SR620._read_error_count (SR620.this b) + Z.of_nat k = 5 -> k <> 0%nat ->
         SR620.serial (SR620.this b') = SR620.Bound None /\
         contains SERIAL (SR620._state (SR620.this b')) = false).
Proof.
  induction k as [|k IH]; intros b Hd Hn.
  - exists b, []. split; [reflexivity|]. split; [cbn; lia|]. split; [reflexivity|].
    split; [intros _; split; reflexivity|]. intros _ H. congruence.
  - cbn [SR620.execute]. rewrite P_bind_unfold.
    rewrite (dead_round_run b port command Hd). cbn zeta.
    set (n := SR620._read_error_count (SR620.this b) + 1).
    destruct (5 <=? n) eqn:E5.
    + apply Z.leb_le in E5. assert (k = 0%nat) as -> by lia.
      cbn [SR620.execute]. prun.
      eexists _, _. split; [reflexivity|]. cbn.
      split; [reflexivity|]. split; [reflexivity|].
      split; [intros [H|H]; [lia|discriminate H]|].
      intros _ _. split; [reflexivity|apply serial_cleared_out].
    + apply Z.leb_gt in E5.
      match goal with |- context [SR620.execute k ?b1] =>
        destruct (IH b1) as (b' & tr & E & Hc & Hm & Hlt & Heq) end.
      * destruct Hd as (H1 & H2 & H3 & H4 & H5 & H6). repeat split; assumption.
      * cbn. fold n. lia.
      * rewrite E. eexists _, _. split; [reflexivity|].
        cbn in Hc, Hm, Hlt, Heq. fold n in Hc, Hlt, Heq.
        split; [rewrite Hc; unfold n; lia|].
        split; [rewrite Hm, Nat.iter_swap; reflexivity|].
        split.
        -- intros [H|H]; [|discriminate H]. apply Hlt. left. unfold n. lia.
        -- intros H _. destruct k as [|k'].
           ++ unfold n in E5. lia.
           ++ apply Heq; [unfold n; lia|discriminate].
Qed.

(** X22. With the port open and every write to it failing, the loop
    goes on: each round hands the text [None] to the writer and adds one
    to the error count.  For the first four rounds the port stays in
    [self.serial] and [SERIAL] in the flag word; the fifth round closes
    the port: [self.serial] is [None] and [SERIAL] is out of the flag
    word. *)
Theorem port_closed_after_five_failed_reads (b : SR620.Bench) port command (k : nat) :
  port_dead port command b ->
  SR620._read_error_count (SR620.this b) = 0 ->
  (1 <= k <= 5)%nat ->
  exists b' tr,
    SR620.execute k b = (SR620.Done tt, b', tr) /\
    SR620._read_error_count (SR620.this b') = Z.of_nat k /\
    SR620.datafile b' = Nat.iter k missed (SR620.datafile b) /\
    if (k <? 5)%nat then
      SR620.serial (SR620.this b') = SR620.Bound (Some port) /\
      contains SERIAL (SR620._state (SR620.this b')) = true
    else
      SR620.serial (SR620.this b') = SR620.Bound None /\
      contains SERIAL (SR620._state (SR620.this b')) = false.
Proof.
  intros Hd H0 Hk.
  destruct (dead_rounds k port command b Hd) as (b' & tr & E & Hc & Hm & Hlt & Heq);
    [lia|].
  exists b', tr. split; [exact E|]. split; [lia|]. split; [exact Hm|].
  destruct (k <? 5)%nat eqn:E5.
  - apply Nat.ltb_lt in E5. destruct Hlt as [Hs Hst]; [left; lia|].
    destruct Hd as (H1 & H2 & _). rewrite Hs, Hst. split; assumption.
  - apply Nat.ltb_ge in E5. apply Heq; lia.
Qed.

Lemma port_closed_after_five_failed_reads_witness :
  exists b' tr,
    SR620.execute 5 Lab.b_unplugged = (SR620.Done tt, b', tr) /\
    SR620._read_error_count (SR620.this b') = 5 /\
    SR620.datafile b' = Nat.iter 5 missed Sample.m_flush /\
    SR620.serial (SR620.this b') = SR620.Bound None /\
    contains SERIAL (SR620._state (SR620.this b')) = false.
Proof.
  assert (H1 : port_dead Lab.port (VStr "*WAI;XAVG?") Lab.b_unplugged).
  { split; [reflexivity|]. split; [reflexivity|]. split; [reflexivity|].
    split; [intros c; reflexivity|]. split; reflexivity. }
  assert (H2 : SR620._read_error_count (SR620.this Lab.b_unplugged) = 0) by reflexivity.
  assert (H3 : (1 <= 5 <= 5)%nat) by lia.
  destruct (port_closed_after_five_failed_reads Lab.b_unplugged Lab.port
              (VStr "*WAI;XAVG?") 5 H1 H2 H3) as (b' & tr & E & Hc & Hm & Hs & Hf).
  exists b', tr. split; [exact E|]. split; [exact Hc|]. split; [exact Hm|].
  split; [exact Hs|exact Hf].
Defined.

(** ** Configuring the instrument *)

Ltac pnext := cbv beta iota zeta; try rewrite P_bind_unfold.

Lemma query_ok_run command b port :
  SR620.serial (SR620.this b) = SR620.Bound (Some port) ->
  port_works (SR620.device b) ->
  is_ascii (command_bytes b command) = true ->
  is_ascii (next_answer b) = true ->
  SR620._query command b =
  (SR620.Done (strip (next_answer b)), answer_taken b,
   [SR620.SerialWrite (command_bytes b command); SR620.SerialFlush; SR620.SerialResetInput;
    SR620.SerialReadline]).
Proof.
  intros Hs Hw Ha Hr. unfold SR620._query.
  rewrite P_bind_unfold, (write_ok_run command b port Hs Hw Ha).
  rewrite (read_ok_run b port Hs Hw Hr). reflexivity.
Qed.

Lemma instruction_command cd :
  SR620.getitem (instruction cd) "command" = mret (VStr cd.1).
Proof. unfold instruction, SR620.getitem. rewrite lookup_insert_eq. reflexivity. Qed.

Lemma instruction_desc cd :
  SR620.getitem (instruction cd) "desc" = mret (VStr cd.2).
Proof.
  unfold instruction, SR620.getitem.
  rewrite lookup_insert_ne by discriminate. rewrite lookup_insert_eq. reflexivity.
Qed.

Lemma instructions_run cmds b port :
  SR620.serial (SR620.this b) = SR620.Bound (Some port) ->
  port_works (SR620.device b) ->
  Forall (fun cd : string * string => is_ascii (cd.1 +:+ newline) = true) cmds ->
  SR620.for_each (map instruction cmds) SR620.send_instruction b =
  (SR620.Done tt, b, flat_map instruction_calls cmds).
Proof.
  intros Hs Hw Ha. induction Ha as [|[c d] cmds Hc Ha IH]; [reflexivity|].
  cbn [map SR620.for_each flat_map]. rewrite P_bind_unfold.
  set (rest := SR620.for_each (map instruction cmds) SR620.send_instruction) in *.
  unfold SR620.send_instruction.
  rewrite instruction_command, instruction_desc. cbn [fst snd] in *.
  rewrite P_bind_unfold. cbn [mret SR620.P_ret].
  rewrite P_bind_unfold, (write_ok_run (VStr c) b port Hs Hw Hc).
  prun. rewrite (sleep_run "0.1" b (proj2 (Hw SR620.Sleep))).
  rewrite IH. reflexivity.
Qed.

Lemma answer_taken_this b : SR620.this (answer_taken b) = SR620.this b.
Proof. unfold answer_taken. destruct (SR620.answers _); reflexivity. Qed.

Lemma answer_taken_works b : port_works (SR620.device b) -> port_works (SR620.device (answer_taken b)).
Proof. unfold answer_taken. destruct (SR620.answers _); intros H; exact H. Qed.

Lemma answer_taken_repr b :
  SR620.repr (SR620.device (answer_taken b)) = SR620.repr (SR620.device b).
Proof. unfold answer_taken. destruct (SR620.answers _); reflexivity. Qed.

Lemma trigger_levels_ok_run b port level :
  SR620.serial (SR620.this b) = SR620.Bound (Some port) ->
  port_works (SR620.device b) ->
  SR620.config (SR620.this b) !! "trigger_level" = Some level ->
  is_ascii (level_command b level +:+ newline) = true ->
  SR620.write_trigger_levels b =
  (SR620.Done tt, b,
   [SR620.SerialWrite (level_command b level +:+ newline); SR620.SerialFlush;
    SR620.SerialResetInput;
    SR620.Logged INFO ("Trigger levels of channels A and B set to "
                       +:+ str (SR620.repr (SR620.device b)) level +:+ " V.")]).
Proof.
  intros Hs Hw Hl Ha. unfold SR620.write_trigger_levels.
  rewrite P_bind_unfold, config_getitem_run, Hl. prun. rewrite Hl. prun.
  fold (level_command b level).
  rewrite (write_ok_run (VStr (level_command b level)) b port Hs Hw Ha).
  prun. rewrite Hl. reflexivity.
Qed.

(** X23. With the port open and working, [config_instrument] sends, in
    this order: the two queries [*IDN?] and [ERRS?], the command of each
    entry of [instrument_configuration] in the order of the list, the
    command that sets both trigger levels when the configuration has a
    [trigger_level], and [STRT] when [start_measurement_immediately] is
    true.  Each is followed by a line feed.  The two answers to the
    queries are taken from the instrument and nothing else changes. *)
Theorem config_instrument_sends_the_commands (b : SR620.Bench) port cmds level start :
  SR620.serial (SR620.this b) = SR620.Bound (Some port) ->
  port_works (SR620.device b) ->
  is_ascii (next_answer b) = true ->
  is_ascii (next_answer (answer_taken b)) = true ->
  SR620.config (SR620.this b) !! "instrument_configuration"
    = Some (VList (map instruction cmds)) ->
  Forall (fun cd : string * string => is_ascii (cd.1 +:+ newline) = true) cmds ->
  SR620.config (SR620.this b) !! "trigger_level" = level ->
  (forall l, level = Some l -> is_ascii (level_command b l +:+ newline) = true) ->
  SR620.config (SR620.this b) !! "start_measurement_immediately" = Some start ->
  exists tr,
    SR620.config_instrument b = (SR620.Done tt, answer_taken (answer_taken b), tr) /\
    sent tr =
      ["*IDN?" +:+ newline; "ERRS?" +:+ newline]
      ++ map (fun cd : string * string => cd.1 +:+ newline) cmds
      ++ match level with Some l => [level_command b l +:+ newline] | None => [] end
      ++ (if truth start then ["STRT" +:+ newline] else []).
Proof.
  intros Hs Hw Ha1 Ha2 Hc Hcmds Hl Hla Hst.
  set (b1 := answer_taken b). set (b2 := answer_taken b1).
  assert (Hs1 : SR620.serial (SR620.this b1) = SR620.Bound (Some port))
    by (unfold b1; rewrite answer_taken_this; exact Hs).
  assert (Hs2 : SR620.serial (SR620.this b2) = SR620.Bound (Some port))
    by (unfold b2; rewrite answer_taken_this; exact Hs1).
  assert (Hw1 : port_works (SR620.device b1)) by (apply answer_taken_works, Hw).
  assert (Hw2 : port_works (SR620.device b2)) by (apply answer_taken_works, Hw1).
  assert (Ht2 : SR620.this b2 = SR620.this b)
    by (unfold b2, b1; rewrite !answer_taken_this; reflexivity).
  assert (Hr2 : SR620.repr (SR620.device b2) = SR620.repr (SR620.device b))
    by (unfold b2, b1; rewrite !answer_taken_repr; reflexivity).
  unfold SR620.config_instrument.
  pnext. cbn [SR620.logging_info SR620.emit].
  pnext; rewrite (query_ok_run (VStr "*IDN?") b port Hs Hw eq_refl Ha1).
  pnext. cbn [SR620.logging_debug SR620.emit]. fold b1.
  pnext; rewrite (query_ok_run (VStr "ERRS?") b1 port Hs1 Hw1 eq_refl Ha2).
  pnext. cbn [SR620.logging_debug SR620.emit]. fold b2.
  unfold SR620.try_except.
  pnext; rewrite config_getitem_run, Ht2, Hc.
  pnext. cbn [SR620.iterate mret SR620.P_ret].
  change (SR620.iterate (VList (map instruction cmds)) b2)
    with (SR620.Done (map instruction cmds), b2, @nil SR620.Trace).
  pnext; rewrite (instructions_run cmds b2 port Hs2 Hw2 Hcmds).
  pnext; rewrite config_contains_run, Ht2, Hl.
  pnext.
  assert (Hlev : exists tl,
    SR620.when (bool_decide (is_Some level)) SR620.write_trigger_levels b2
      = (SR620.Done tt, b2, tl) /\
    sent tl = match level with Some l => [level_command b l +:+ newline] | None => [] end).
  { destruct level as [l|].
    - assert (Hlc : level_command b2 l = level_command b l)
        by (unfold level_command; rewrite Hr2; reflexivity).
      rewrite bool_decide_true by (eexists; reflexivity). cbn [SR620.when].
      rewrite (trigger_levels_ok_run b2 port l Hs2 Hw2);
        [|rewrite Ht2; exact Hl|rewrite Hlc; apply Hla; reflexivity].
      eexists. split; [reflexivity|]. rewrite Hlc. reflexivity.
    - rewrite bool_decide_false by (intros [? H]; discriminate H).
      eexists. split; reflexivity. }
  cbv beta iota zeta. destruct Hlev as (tl & -> & Htl).
  pnext. cbn [SR620.logging_info SR620.emit].
  pnext; rewrite config_getitem_run, Ht2, Hst.
  destruct (truth start).
  - cbv beta iota zeta. cbn [SR620.when]. pnext.
    rewrite (write_ok_run (VStr "STRT") b2 port Hs2 Hw2 eq_refl).
    cbn [SR620.logging_info SR620.emit].
    eexists. split; [reflexivity|].
    rewrite !sent_app, sent_instructions, Htl. reflexivity.
  - cbv beta iota zeta. cbn [SR620.when SR620.pass mret SR620.P_ret].
    eexists. split; [reflexivity|].
    rewrite !sent_app, sent_instructions, Htl. reflexivity.
Qed.

Lemma config_instrument_sends_the_commands_witness :
  exists tr,
    SR620.config_instrument Lab.b_polling
      = (SR620.Done tt, answer_taken (answer_taken Lab.b_polling), tr) /\
    sent tr =
      ["*IDN?" +:+ newline; "ERRS?" +:+ newline]
      ++ map (fun cd : string * string => cd.1 +:+ newline) default_instructions
      ++ [] ++ ["STRT" +:+ newline].
Proof.
  assert (H1 : SR620.serial (SR620.this Lab.b_polling) = SR620.Bound (Some Lab.port))
    by reflexivity.
  assert (H2 : port_works (SR620.device Lab.b_polling))
    by (intros c; split; reflexivity).
  assert (H3 : is_ascii (next_answer Lab.b_polling) = true) by reflexivity.
  assert (H4 : is_ascii (next_answer (answer_taken Lab.b_polling)) = true) by reflexivity.
  assert (H5 : SR620.config (SR620.this Lab.b_polling) !! "instrument_configuration"
               = Some (VList (map instruction default_instructions)))
    by reflexivity.
  assert (H6 : Forall (fun cd : string * string => is_ascii (cd.1 +:+ newline) = true)
                 default_instructions)
    by (repeat constructor).
  assert (H7 : SR620.config (SR620.this Lab.b_polling) !! "trigger_level" = None)
    by reflexivity.
  assert (H8 : forall l, @None Value = Some l ->
                 is_ascii (level_command Lab.b_polling l +:+ newline) = true)
    by (intros l H; discriminate H).
  assert (H9 : SR620.config (SR620.this Lab.b_polling) !! "start_measurement_immediately"
               = Some (VBool true)) by reflexivity.
  exact (config_instrument_sends_the_commands Lab.b_polling Lab.port default_instructions
           None (VBool true) H1 H2 H3 H4 H5 H6 H7 H8 H9).
Defined.

(** ** The property [state] *)

Lemma contains_bit_union i a c :
  0 <= i -> contains (2 ^ i) (union a c) = contains (2 ^ i) a || contains (2 ^ i) c.
Proof.
  intros Hi. rewrite !contains_bit by exact Hi. unfold union. apply Z.lor_spec.
Qed.

(** X27. The property [state] lists, in the order of the class body, the
    names of the flags that are in the instrument's flag word or in the
    writer's; [NONE] is never listed. *)
Theorem state_lists_the_flags_of_both_words (b : SR620.Bench) :
  SR620.state b =
  map fst (List.filter (fun ne : string * StateFlag.t =>
                     negb (ne.2 =? NONE)
                     && (contains ne.2 (SR620._state (SR620.this b))
                         || contains ne.2 (_state (self (SR620.datafile b)))))
                  member_names).
Proof.
  unfold SR620.state, datafile_state, member_names.
  set (s1 := SR620._state (SR620.this b)). set (s2 := _state (self (SR620.datafile b))).
  cbn [flat_map List.filter fst snd].
  change (NONE =? NONE) with true. change (SERIAL =? NONE) with false.
  change (USB =? NONE) with false. change (DUAL_WRITE =? NONE) with false.
  change (SYNCING_FILES =? NONE) with false. change (DELETING_FILES =? NONE) with false.
  change (BUFFERING =? NONE) with false. cbn [negb andb].
  change SERIAL with (2 ^ 0). change USB with (2 ^ 1). change DUAL_WRITE with (2 ^ 2).
  change SYNCING_FILES with (2 ^ 3). change DELETING_FILES with (2 ^ 4).
  change BUFFERING with (2 ^ 5).
  rewrite !contains_bit_union by lia.
  repeat match goal with
         | |- context [contains ?f s1 || contains ?f s2] =>
             let c := fresh "c" in
             generalize (contains f s1 || contains f s2); intros c
         end.
  repeat match goal with c : bool |- _ => destruct c end; reflexivity.
Qed.

(** * The configuration *)

Lemma given_nonzero o : given VInt (nonzero o) = given VInt o.
Proof.
  destruct o as [z|]; [|reflexivity]. cbn. destruct (z =? 0) eqn:E; cbn; [reflexivity|].
  rewrite E. reflexivity.
Qed.

Lemma given_nonempty o : given VStr (nonempty o) = given VStr o.
Proof.
  destruct o as [s|]; [|reflexivity]. cbn. destruct (String.eqb s "") eqn:E; cbn; [reflexivity|].
  rewrite E. reflexivity.
Qed.


Lemma set_if_lookup key o (m : gmap string Value) k :
  set_if key o m !! k =
  if decide (k = key) then match o with Some v => Some v | None => m !! k end else m !! k.
Proof.
  unfold set_if. destruct o as [v|].
  - destruct (decide (k = key)) as [->|Hne].
    + apply lookup_insert_eq.
    + apply lookup_insert_ne. congruence.
  - destruct (decide (k = key)); reflexivity.
Qed.

Lemma normalise_lookup key config config' k :
  normalise key config = inr config' ->
  config' !! k =
  if decide (k = key) then
    match config !! key with Some (VStr path) => Some (VStr (normpath path)) | _ => None end
  else config !! k.
Proof.
  unfold normalise. destruct (config !! key) as [[]|] eqn:E; try discriminate.
  intros [= <-]. destruct (decide (k = key)) as [->|Hne].
  - apply lookup_insert_eq.
  - apply lookup_insert_ne. congruence.
Qed.

Lemma normalise_path key config config' :
  normalise key config = inr config' ->
  exists path, config !! key = Some (VStr path).
Proof.
  unfold normalise. destruct (config !! key) as [[]|] eqn:E; try discriminate.
  intros _. eexists. reflexivity.
Qed.

(** The dictionary before the two paths are normalised. *)
Lemma merge_unfold a fs cfg :
  merge_config_params a fs = inr cfg ->
  exists c1,
    normalise "primary_data_path" (parseArguments a ∪ (yaml_entries a fs ∪ default_config))
      = inr c1 /\
    normalise "secondary_data_path" c1 = inr cfg.
Proof.
  unfold merge_config_params, yaml_entries.
  destruct (parseArguments a !! "config") as [[]|] eqn:Ec; cbn.
  all: try (rewrite (left_id_L ∅ (∪) default_config);
            destruct (normalise "primary_data_path" _) as [e|c1] eqn:E1; cbn; [discriminate|];
            intros H; exists c1; split; [reflexivity|exact H]).
  destruct (config_exists (fs s)) as [e|[|]]; cbn; [discriminate| |].
  - destruct (load_yaml (fs s)) as [e|[]]; cbn; try discriminate.
    destruct (normalise "primary_data_path" _) as [e|c1] eqn:E1; cbn; [discriminate|].
    intros H; exists c1; split; [reflexivity|exact H].
  - rewrite (left_id_L ∅ (∪) default_config).
    destruct (load_yaml (fs s)) as [e|[]];
    destruct (normalise "primary_data_path" _) as [e'|c1] eqn:E1; cbn; try discriminate;
    intros H; exists c1; split; try reflexivity; exact H.
Qed.

Lemma union_lookup_chosen a fs key :
  (parseArguments a ∪ (yaml_entries a fs ∪ default_config)) !! key = chosen a fs key.
Proof.
  unfold chosen. rewrite !lookup_union.
  destruct (parseArguments a !! key), (yaml_entries a fs !! key), (default_config !! key);
    reflexivity.
Qed.

Lemma merge_lookup a fs cfg key :
  merge_config_params a fs = inr cfg ->
  key <> "primary_data_path" -> key <> "secondary_data_path" ->
  cfg !! key = chosen a fs key.
Proof.
  intros H H1 H2. destruct (merge_unfold a fs cfg H) as (c1 & E1 & E2).
  rewrite (normalise_lookup _ _ _ key E2). rewrite decide_False by exact H2.
  rewrite (normalise_lookup _ _ _ key E1). rewrite decide_False by exact H1.
  apply union_lookup_chosen.
Qed.

(** X24. In the merged configuration the entry for a key is the one of
    the command line when the option was given, else the one of the
    configuration file when it was read and has the key, else the
    default; an entry is taken whole, also when it is a dictionary.
    The two data paths are chosen in the same way and then normalised. *)
Theorem merged_entry_is_first_of_command_line_file_default
  (a : Namespace) (fs : string -> ConfigPath) (cfg : gmap string Value) :
  merge_config_params a fs = inr cfg ->
  (forall key, key <> "primary_data_path" -> key <> "secondary_data_path" ->
     cfg !! key = chosen a fs key) /\
  (forall key, key = "primary_data_path" \/ key = "secondary_data_path" ->
     exists path, chosen a fs key = Some (VStr path) /\
                  cfg !! key = Some (VStr (normpath path))).
Proof.
  intros H. split; [intros key; apply merge_lookup; exact H|].
  destruct (merge_unfold a fs cfg H) as (c1 & E1 & E2).
  intros key [->| ->].
  - destruct (normalise_path _ _ _ E1) as (path & Hp).
    exists path. split; [rewrite <- union_lookup_chosen; exact Hp|].
    rewrite (normalise_lookup _ _ _ _ E2). rewrite decide_False by discriminate.
    rewrite (normalise_lookup _ _ _ _ E1). rewrite decide_True by reflexivity.
    rewrite Hp. reflexivity.
  - destruct (normalise_path _ _ _ E2) as (path & Hp).
    exists path. split.
    + rewrite <- union_lookup_chosen. rewrite <- Hp.
      rewrite (normalise_lookup _ _ _ _ E1). rewrite decide_False by discriminate.
      reflexivity.
    + rewrite (normalise_lookup _ _ _ _ E2). rewrite decide_True by reflexivity.
      rewrite Hp. reflexivity.
Qed.

Lemma merged_entry_is_first_of_command_line_file_default_witness :
  Lab.merged Lab.usb_port !! "max_history" = Some (VInt 30) /\
  Lab.merged Lab.usb_port !! "max_sync" = Some (VInt 32) /\
  Lab.merged Lab.usb_port !! "primary_data_path" = Some (VStr "data").
Proof.
  assert (H1 : merge_config_params Lab.usb_port Lab.no_files = inr (Lab.merged Lab.usb_port))
    by reflexivity.
  destruct (merged_entry_is_first_of_command_line_file_default Lab.usb_port Lab.no_files
              (Lab.merged Lab.usb_port) H1) as [Hk Hp].
  split; [rewrite Hk by discriminate; reflexivity|].
  split; [rewrite Hk by discriminate; reflexivity|].
  destruct (Hp "primary_data_path" (or_introl eq_refl)) as (path & Hc & ->).
  change (chosen Lab.usb_port Lab.no_files "primary_data_path")
    with (Some (VStr "./data")) in Hc.
  injection Hc as <-. reflexivity.
Defined.

(** ** The serial options *)

Lemma parse_serial_connection a :
  parseArguments a !! "serial_connection" =
  match given VStr (a_serial_device a), given VInt (a_timeout a) with
  | Some d, Some t => Some (VDict (<["timeout" := t]> (<["device" := d]> ∅)))
  | Some d, None => Some (VDict (<["device" := d]> ∅))
  | None, Some t => Some (VDict (<["timeout" := t]> ∅))
  | None, None => None
  end.
Proof.
  unfold parseArguments. rewrite !set_if_lookup.
  repeat (rewrite decide_False by discriminate).
  destruct (given VStr (a_serial_device a)) as [d|], (given VInt (a_timeout a)) as [t|].
  - rewrite lookup_insert_eq. rewrite lookup_insert_eq. reflexivity.
  - rewrite lookup_insert_eq. reflexivity.
  - rewrite set_if_lookup, decide_False by discriminate. rewrite lookup_empty.
    rewrite lookup_insert_eq. reflexivity.
  - rewrite set_if_lookup, decide_False by discriminate. apply lookup_empty.
Qed.

Lemma getitem_run (d : gmap string Value) key b :
  SR620.getitem (VDict d) key b =
  (match d !! key with Some v => SR620.Done v | None => SR620.Raised (KeyError key) end, b, []).
Proof. unfold SR620.getitem. destruct (d !! key); reflexivity. Qed.

(** [_open] with a [serial_connection] that lacks a key. *)
Lemma open_missing_key_run b (d : gmap string Value) :
  SR620.config (SR620.this b) !! "serial_connection" = Some (VDict d) ->
  d !! "baudrate" = None ->
  SR620._open b =
  (SR620.Raised (Exception_ (KeyError (match d !! "device" with Some _ => "baudrate" | None => "device" end))),
   b, []).
Proof.
  intros Hc Hb. unfold SR620._open, SR620.try_except.
  rewrite P_bind_unfold, config_getitem_run, Hc.
  rewrite P_bind_unfold, getitem_run.
  destruct (d !! "device") as [dev|]; [|reflexivity].
  rewrite P_bind_unfold, config_getitem_run, Hc.
  rewrite P_bind_unfold, getitem_run, Hb. reflexivity.
Qed.

(** X21. The options [--serial_device] and [--timeout] cannot be used:
    when one of them is given (with a value that is not empty or 0), the
    command line's [serial_connection] holds only what was given, and it
    replaces the whole entry of the file and of the defaults, so the
    merged entry has no [baudrate].  The first round of the loop then
    ends the program with the [KeyError] for [device] or for [baudrate],
    wrapped twice, before any port is opened. *)
Theorem serial_options_lose_the_baudrate
  (a : Namespace) (fs : string -> ConfigPath) (cfg : gmap string Value)
  (ddf : Machine) (dev : SR620.Device) (n : nat) :
  merge_config_params a fs = inr cfg ->
  is_Some (given VStr (a_serial_device a)) \/ is_Some (given VInt (a_timeout a)) ->
  SR620.interrupted dev SR620.Sleep = false ->
  exists (d : gmap string Value) (key : string),
    cfg !! "serial_connection" = Some (VDict d) /\
    d !! "baudrate" = None /\
    (key = "device" \/ key = "baudrate") /\
    SR620.execute (S n) (SR620.__init__ cfg ddf dev) =
    (SR620.Raised (Exception_ (Exception_ (KeyError key))),
     SR620.__init__ cfg ddf dev,
     [SR620.Printed (names_repr (SR620.state (SR620.__init__ cfg ddf dev)));
      SR620.Slept "3"]).
Proof.
  intros Hm Hg Hi.
  assert (Hd : exists d : gmap string Value,
             parseArguments a !! "serial_connection" = Some (VDict d) /\
             d !! "baudrate" = None).
  { rewrite parse_serial_connection.
    destruct (given VStr (a_serial_device a)) as [s|], (given VInt (a_timeout a)) as [t|].
    - eexists. split; [reflexivity|].
      rewrite !lookup_insert_ne by discriminate. apply lookup_empty.
    - eexists. split; [reflexivity|].
      rewrite !lookup_insert_ne by discriminate. apply lookup_empty.
    - eexists. split; [reflexivity|].
      rewrite !lookup_insert_ne by discriminate. apply lookup_empty.
    - destruct Hg as [[? H]|[? H]]; discriminate H. }
  destruct Hd as (d & Hp & Hb).
  assert (Hc : cfg !! "serial_connection" = Some (VDict d)).
  { rewrite (merge_lookup a fs cfg _ Hm) by discriminate. unfold chosen. rewrite Hp. reflexivity. }
  set (b := SR620.__init__ cfg ddf dev).
  pose proof (open_missing_key_run b d Hc Hb) as Ho.
  exists d, (match d !! "device" with Some _ => "baudrate" | None => "device" end).
  split; [exact Hc|]. split; [exact Hb|].
  split; [destruct (d !! "device"); [right|left]; reflexivity|].
  destruct (open_failure_run b _ n eq_refl Hi (f_equal (fun x => x.1.1) Ho)) as [_ E];
    [discriminate|].
  rewrite E, Ho. reflexivity.
Qed.

Lemma serial_options_lose_the_baudrate_witness :
  exists (d : gmap string Value) (key : string),
    Lab.merged Lab.usb_port !! "serial_connection" = Some (VDict d) /\
    d !! "baudrate" = None /\
    (key = "device" \/ key = "baudrate") /\
    SR620.execute 1 (SR620.__init__ (Lab.merged Lab.usb_port) Sample.m_start (Lab.healthy [])) =
    (SR620.Raised (Exception_ (Exception_ (KeyError key))),
     SR620.__init__ (Lab.merged Lab.usb_port) Sample.m_start (Lab.healthy []),
     [SR620.Printed (names_repr (SR620.state
        (SR620.__init__ (Lab.merged Lab.usb_port) Sample.m_start (Lab.healthy []))));
      SR620.Slept "3"]).
Proof.
  assert (H1 : merge_config_params Lab.usb_port Lab.no_files = inr (Lab.merged Lab.usb_port))
    by reflexivity.
  assert (H2 : is_Some (given VStr (a_serial_device Lab.usb_port))
               \/ is_Some (given VInt (a_timeout Lab.usb_port)))
    by (left; eexists; reflexivity).
  assert (H3 : SR620.interrupted (Lab.healthy []) SR620.Sleep = false) by reflexivity.
  exact (serial_options_lose_the_baudrate Lab.usb_port Lab.no_files
           (Lab.merged Lab.usb_port) Sample.m_start (Lab.healthy []) 0 H1 H2 H3).
Defined.

(** ** The configuration file *)

Lemma parse_config a :
  a_config a <> "" -> parseArguments a !! "config" = Some (VStr (a_config a)).
Proof.
  intros Hne. unfold parseArguments. rewrite !set_if_lookup.
  repeat (rewrite decide_False by discriminate).
  assert (Hc : (set_if "config" (given VStr (Some (a_config a))) ∅ : gmap string Value)
               !! "config" = Some (VStr (a_config a))).
  { rewrite set_if_lookup, decide_True by reflexivity.
    cbn. destruct (String.eqb_spec (a_config a) ""); [contradiction|reflexivity]. }
  assert (Hs : (set_if "config" (given VStr (Some (a_config a))) ∅ : gmap string Value)
               !! "serial_connection" = None).
  { rewrite set_if_lookup, decide_False by discriminate. apply lookup_empty. }
  destruct (given VStr (a_serial_device a)) as [d|], (given VInt (a_timeout a)) as [t|].
  - rewrite lookup_insert_eq. rewrite !lookup_insert_ne by discriminate. exact Hc.
  - rewrite !lookup_insert_ne by discriminate. exact Hc.
  - rewrite Hs. rewrite !lookup_insert_ne by discriminate. exact Hc.
  - exact Hc.
Qed.

(** An entry of the command line's dictionary that does not come from
    the serial options. *)
Ltac parse_key :=
  unfold parseArguments; rewrite !set_if_lookup;
  repeat first [ rewrite decide_False by discriminate
               | rewrite decide_True by reflexivity ];
  repeat match goal with
         | |- context [match given ?f ?o with _ => _ end] => destruct (given f o)
         end;
  repeat first [ reflexivity
               | rewrite lookup_insert_eq
               | rewrite lookup_insert_ne by discriminate
               | rewrite set_if_lookup
               | rewrite decide_False by discriminate
               | rewrite lookup_empty ].

Lemma parse_primary_data_path a :
  parseArguments a !! "primary_data_path" = given VStr (a_data_path a).
Proof. parse_key. Qed.

Lemma parse_secondary_data_path a :
  parseArguments a !! "secondary_data_path" = given VStr (a_usb_path a).
Proof. parse_key. Qed.

Lemma given_str o : given VStr o = None \/ exists s, given VStr o = Some (VStr s).
Proof.
  destruct o as [s|]; [|left; reflexivity]. cbn.
  destruct (String.eqb s ""); [left|right; exists s]; reflexivity.
Qed.

(** Without a configuration file the merge succeeds. *)
Lemma merge_without_file a :
  exists cfg,
    normalise "primary_data_path" (parseArguments a ∪ default_config)
    ≫= (fun config => normalise "secondary_data_path" config) = inr cfg.
Proof.
  assert (H1 : exists p, (parseArguments a ∪ default_config) !! "primary_data_path"
                         = Some (VStr p)).
  { rewrite lookup_union, parse_primary_data_path.
    destruct (given_str (a_data_path a)) as [->|(s & ->)]; eexists; reflexivity. }
  assert (H2 : exists p, (parseArguments a ∪ default_config) !! "secondary_data_path"
                         = Some (VStr p)).
  { rewrite lookup_union, parse_secondary_data_path.
    destruct (given_str (a_usb_path a)) as [->|(s & ->)]; eexists; reflexivity. }
  destruct H1 as (p1 & H1). destruct H2 as (p2 & H2).
  unfold normalise at 2. rewrite H1. cbn.
  unfold normalise. rewrite lookup_insert_ne by discriminate. rewrite H2.
  eexists. reflexivity.
Qed.

(** X26. The configuration file named on the command line (by default
    [sr620-default.yml]): when nothing is at the path, the merge goes on
    without it and succeeds; when the file holds a mapping, its entries
    are the file's part of the merge; when the file is there but empty,
    or holds anything but a mapping, the merge raises [TypeError]; when
    it cannot be parsed, the loader's error; when it cannot be opened, or
    the path is a folder, [OSError], unless the folder is not listed in
    its parent. *)
Theorem config_file_outcomes (a : Namespace) (fs : string -> ConfigPath) :
  a_config a <> "" ->
  match fs (a_config a) with
  | NoSuchPath | ConfigFolder (Some false) =>
      (exists cfg, merge_config_params a fs = inr cfg) /\
      forall key, yaml_entries a fs !! key = None
  | ConfigFile (Some (Document (VDict d))) =>
      forall key, yaml_entries a fs !! key = d !! key
  | ConfigFile (Some (Document _)) => merge_config_params a fs = inl (Of TypeError)
  | ConfigFile (Some Malformed) => merge_config_params a fs = inl YAMLError
  | ConfigFile None | ConfigFolder (Some true) | ConfigFolder None =>
      merge_config_params a fs = inl (Of OSError)
  end.
Proof.
  intros Hne. pose proof (parse_config a Hne) as Hc.
  unfold merge_config_params, yaml_entries. rewrite Hc.
  destruct (fs (a_config a)) as [|[[|]|]|[[|v]|]]; cbn; try reflexivity.
  - split; [apply merge_without_file|intros key; apply lookup_empty].
  - split; [apply merge_without_file|intros key; apply lookup_empty].
  - destruct v; try reflexivity.
Qed.

Lemma config_file_outcomes_witness :
  (exists cfg, merge_config_params Lab.plain Lab.no_files = inr cfg) /\
  forall key, yaml_entries Lab.plain Lab.no_files !! key = None.
Proof.
  assert (H1 : a_config Lab.plain <> "") by discriminate.
  exact (config_file_outcomes Lab.plain Lab.no_files H1).
Defined.
